(** * autogas: the orchestration core

  A shallow embedding of the orchestrator of the autonomous GitHub agent
  system: the [StateManager] registry, the [Orchestrator] event handlers,
  the [WebhookServer] status route and the [GitHubPoller] watermark logic,
  together with the properties of the design document that concern them.
  The second part covers the code around them: the webhook route and its
  signature check, the helpers of the [GitHubClient], the naming and
  escaping done by the [ContainerManager], and the review loop of the
  [Agent].

  Conventions of the embedding.
  - JavaScript numbers that hold counts, identifiers and millisecond
    timestamps are integers ([Z]).
  - A JavaScript value that may be [undefined] at run time is a [JsVal].
  - Every call to an external collaborator (GitHub, Docker, the clock) is
    an input of the function that makes it: the caller supplies what the
    call returned or whether it threw.  Theorems quantify over these
    inputs.
  - Handlers run to completion one after another (the single control flow
    of the design document); an [await] is not a preemption point. *)

From stdpp Require Import base option list gmap strings pretty.
From Stdlib Require Import ZArith Lia Ascii String.

Local Open Scope string_scope.
Local Open Scope Z_scope.
Local Open Scope list_scope.
Local Open Scope stdpp_scope.

(** ** JavaScript values and strings *)

Module Js.

(** The run-time values that reach the registry through [issue: any]. *)
Inductive JsVal : Type :=
| JUndefined
| JStr (s : string)
| JNum (n : Z).

Global Instance JsVal_eq_dec : EqDecision JsVal.
Proof. solve_decision. Defined.

(** [`${v}`]: how a template literal renders a value. *)
Definition tmpl (v : JsVal) : string :=
  match v with
  | JUndefined => "undefined"
  | JStr s => s
  | JNum n => pretty n
  end.

(** [if (v)] on an optional string: [undefined] and [''] are falsy. *)
Definition truthy (v : option string) : bool :=
  match v with
  | None => false
  | Some s => negb (String.eqb s "")
  end.

(** [c.toLowerCase()] on one ASCII character. *)
Definition lower_ascii (c : ascii) : ascii :=
  let n := N_of_ascii c in
  if ((65 <=? n) && (n <=? 90))%N then ascii_of_N (n + 32) else c.

(** [s.toLowerCase()], on ASCII text. *)
Fixpoint toLowerCase (s : string) : string :=
  match s with
  | EmptyString => EmptyString
  | String c s' => String (lower_ascii c) (toLowerCase s')
  end.

(** [s.startsWith(p)]. *)
Definition startsWith (s p : string) : bool := String.prefix p s.

(** [s.includes(p)]. *)
Fixpoint includes (s p : string) : bool :=
  String.prefix p s ||
  match s with
  | EmptyString => false
  | String _ s' => includes s' p
  end.

(** [s.endsWith(p)]. *)
Fixpoint endsWith (s p : string) : bool :=
  String.eqb s p ||
  match s with
  | EmptyString => false
  | String _ s' => endsWith s' p
  end.

(** [Math.max(...xs)] on a non-empty array, given its head and tail. *)
Definition max_list (x : Z) (xs : list Z) : Z := foldl Z.max x xs.

End Js.
Export Js.

(** ** An insertion-ordered [Map<string, V>]

  [Map.prototype.values()] iterates in insertion order and
  [Array.prototype.find] returns the first match, so the order of the
  entries is observable and the map is kept as an association list:
  [set] on a present key replaces the value in place, [set] on an absent
  key appends. *)

Module JsMap.
Section JsMap.
Context {V : Type}.

Definition t := list (string * V).

Definition empty : t := [].

Fixpoint get (k : string) (m : t) : option V :=
  match m with
  | [] => None
  | (k', v) :: m' => if decide (k = k') then Some v else get k m'
  end.

Fixpoint set (k : string) (v : V) (m : t) : t :=
  match m with
  | [] => [(k, v)]
  | (k', v') :: m' =>
      if decide (k = k') then (k', v) :: m' else (k', v') :: set k v m'
  end.

Fixpoint delete (k : string) (m : t) : t :=
  match m with
  | [] => []
  | (k', v') :: m' =>
      if decide (k = k') then m' else (k', v') :: delete k m'
  end.

Definition has (k : string) (m : t) : bool := bool_decide (is_Some (get k m)).

Definition values (m : t) : list V := m.*2.

Definition keys (m : t) : list string := m.*1.

Definition size (m : t) : Z := Z.of_nat (List.length m).

(** Mutating the object stored under [k] (the Map holds a reference). *)
Fixpoint update (k : string) (f : V → V) (m : t) : t :=
  match m with
  | [] => []
  | (k', v') :: m' =>
      if decide (k = k') then (k', f v') :: m' else (k', v') :: update k f m'
  end.

(** Mutating the first object that satisfies [p]. *)
Fixpoint update_first (p : V → bool) (f : V → V) (m : t) : t :=
  match m with
  | [] => []
  | (k', v') :: m' =>
      if p v' then (k', f v') :: m' else (k', v') :: update_first p f m'
  end.

(** Keys are unique: what [new Map()], [set] and [delete] maintain. *)
Definition wf (m : t) : Prop := NoDup (keys m).

End JsMap.
Arguments t : clear implicits.
End JsMap.


(** ** Shared types ([types.ts]) *)

Inductive ActiveIssueStatus : Type :=
| starting | cloning | analyzing | developing | testing
| pr_created | awaiting_review | iterating
| done_ | error_ | aborted.

Global Instance ActiveIssueStatus_eq_dec : EqDecision ActiveIssueStatus.
Proof. solve_decision. Defined.

(** [ActiveIssue].  The five fields copied from the handler's [issue: any]
    argument hold whatever that argument carried, hence [JsVal]. *)
Record ActiveIssue : Type := mkActiveIssue {
  repoOwner : JsVal;
  repoName : JsVal;
  issueNumber : JsVal;
  issueTitle : JsVal;
  issueBody : JsVal;
  containerId : string;
  containerName : string;
  status : ActiveIssueStatus;
  branchName : string;
  prNumber : option Z;
  startedAt : Z;
  lastHeartbeat : option Z;
  error : option string
}.

Record GitHubIssue : Type := mkGitHubIssue {
  gi_owner : string;
  gi_repo : string;
  gi_number : Z;
  gi_title : string;
  gi_body : string;
  gi_htmlUrl : string;
  gi_userLogin : string
}.

Record Review : Type := mkReview {
  rv_id : Z;
  rv_userLogin : option string;
  rv_state : string;
  rv_body : string;
  rv_submittedAt : Z
}.

Record RepoConfig : Type := mkRepoConfig {
  rc_owner : string;
  rc_name : string;
  triggerComment : string;
  enabled : bool;
  promptTemplate : option string
}.

(** [StatusUpdate], as the agent posts it. *)
Record StatusUpdate : Type := mkStatusUpdate {
  su_containerId : string;
  su_status : ActiveIssueStatus;
  su_message : string;
  su_timestamp : string
}.

(** What an awaited call to a collaborator did: it resolved with a value,
    or it threw and [`${error}`] renders as [err]. *)
Inductive Result (A : Type) : Type :=
| Resolved (a : A)
| Rejected (err : string).
Arguments Resolved {A} a.
Arguments Rejected {A} err.

Definition resolved {A : Type} (r : Result A) : bool :=
  match r with Resolved _ => true | Rejected _ => false end.

(** ** [StateManager] ([state-manager.ts]) *)

Module StateManager.

Record t : Type := mk {
  activeIssues : JsMap.t ActiveIssue;
  maxConcurrent : Z
}.

(** [constructor(config)]. *)
Definition new (configMaxConcurrent : Z) : t :=
  {| activeIssues := JsMap.empty; maxConcurrent := configMaxConcurrent |}.

Definition with_issues (sm : t) (m : JsMap.t ActiveIssue) : t :=
  {| activeIssues := m; maxConcurrent := maxConcurrent sm |}.

Definition canStartNew (sm : t) : bool :=
  let activeCount := JsMap.size (activeIssues sm) in
  activeCount <? maxConcurrent sm.

Definition getQueuePosition (sm : t) : Z :=
  JsMap.size (activeIssues sm) - maxConcurrent sm + 1.

Definition getIssueKey (owner repo issueNumber : JsVal) : string :=
  tmpl owner +:+ "/" +:+ tmpl repo +:+ "#" +:+ tmpl issueNumber.

Definition registerIssue (issue : ActiveIssue) (sm : t) : t :=
  let key := getIssueKey (repoOwner issue) (repoName issue) (issueNumber issue) in
  with_issues sm (JsMap.set key issue (activeIssues sm)).

Definition getIssue (owner repo issueNumber : JsVal) (sm : t) : option ActiveIssue :=
  let key := getIssueKey owner repo issueNumber in
  JsMap.get key (activeIssues sm).

Definition getAllActive (sm : t) : list ActiveIssue :=
  JsMap.values (activeIssues sm).

Definition getIssueByContainerId (cid : string) (sm : t) : option ActiveIssue :=
  List.find (λ issue, bool_decide (containerId issue = cid)) (getAllActive sm).

(** The three assignments of [updateIssueStatus] on the object found. *)
Definition touch_status (now : Z) (st : ActiveIssueStatus) (err : option string)
    (issue : ActiveIssue) : ActiveIssue :=
  {| repoOwner := repoOwner issue; repoName := repoName issue;
     issueNumber := issueNumber issue; issueTitle := issueTitle issue;
     issueBody := issueBody issue; containerId := containerId issue;
     containerName := containerName issue;
     status := st;
     branchName := branchName issue; prNumber := prNumber issue;
     startedAt := startedAt issue;
     lastHeartbeat := Some now;
     error := if truthy err then err else error issue |}.

(** [now] is what [new Date()] reads inside the call. *)
Definition updateIssueStatus (now : Z) (owner repo issueNumber : JsVal)
    (st : ActiveIssueStatus) (err : option string) (sm : t) : t :=
  match getIssue owner repo issueNumber sm with
  | Some _ =>
      with_issues sm
        (JsMap.update (getIssueKey owner repo issueNumber)
           (touch_status now st err) (activeIssues sm))
  | None => sm
  end.

Definition touch_heartbeat (now : Z) (issue : ActiveIssue) : ActiveIssue :=
  {| repoOwner := repoOwner issue; repoName := repoName issue;
     issueNumber := issueNumber issue; issueTitle := issueTitle issue;
     issueBody := issueBody issue; containerId := containerId issue;
     containerName := containerName issue; status := status issue;
     branchName := branchName issue; prNumber := prNumber issue;
     startedAt := startedAt issue;
     lastHeartbeat := Some now;
     error := error issue |}.

(** [updates: Partial<ActiveIssue>] is given by what [Object.assign(issue,
    updates)] does to the record. *)
Definition updateIssueByContainerId (now : Z) (cid : string)
    (assign : ActiveIssue → ActiveIssue) (sm : t) : t :=
  match getIssueByContainerId cid sm with
  | Some _ =>
      with_issues sm
        (JsMap.update_first (λ issue, bool_decide (containerId issue = cid))
           (λ issue, touch_heartbeat now (assign issue)) (activeIssues sm))
  | None => sm
  end.

Definition assign_pr (pr : Z) (issue : ActiveIssue) : ActiveIssue :=
  {| repoOwner := repoOwner issue; repoName := repoName issue;
     issueNumber := issueNumber issue; issueTitle := issueTitle issue;
     issueBody := issueBody issue; containerId := containerId issue;
     containerName := containerName issue;
     status := pr_created;
     branchName := branchName issue;
     prNumber := Some pr;
     startedAt := startedAt issue; lastHeartbeat := lastHeartbeat issue;
     error := error issue |}.

Definition setPRNumber (owner repo issueNumber : JsVal) (pr : Z) (sm : t) : t :=
  match getIssue owner repo issueNumber sm with
  | Some _ =>
      with_issues sm
        (JsMap.update (getIssueKey owner repo issueNumber)
           (assign_pr pr) (activeIssues sm))
  | None => sm
  end.

Definition removeIssue (owner repo issueNumber : JsVal) (sm : t) : t :=
  let key := getIssueKey owner repo issueNumber in
  with_issues sm (JsMap.delete key (activeIssues sm)).

Definition getIssuesByStatus (st : ActiveIssueStatus) (sm : t) : list ActiveIssue :=
  List.filter (λ issue, bool_decide (status issue = st)) (getAllActive sm).

Definition isIssueActive (owner repo issueNumber : JsVal) (sm : t) : bool :=
  bool_decide (getIssue owner repo issueNumber sm ≠ None).

(** The predicate inside [getStaleIssues]; [now] is [Date.now()]. *)
Definition is_stale (now heartbeatTimeoutMs : Z) (issue : ActiveIssue) : bool :=
  match lastHeartbeat issue with
  | None => 10 * 60 * 1000 <? now - startedAt issue
  | Some hb => heartbeatTimeoutMs <? now - hb
  end.

Definition defaultHeartbeatTimeoutMs : Z := 5 * 60 * 1000.

Definition getStaleIssues (now heartbeatTimeoutMs : Z) (sm : t) : list ActiveIssue :=
  List.filter (is_stale now heartbeatTimeoutMs) (getAllActive sm).

(** [getAllStatuses()]. *)
Definition getAllStatuses : list ActiveIssueStatus :=
  [starting; cloning; analyzing; developing; testing; pr_created;
   awaiting_review; iterating; done_; error_; aborted].

(** The object [getStats] returns; [byStatus] lists its properties in the
    order they were assigned. *)
Record Stats : Type := mkStats {
  total : Z;
  byStatus : list (ActiveIssueStatus * Z);
  canStartMore : bool
}.

Definition getStats (sm : t) : Stats :=
  let all := getAllActive sm in
  {| total := Z.of_nat (List.length all);
     byStatus :=
       (λ st, (st, Z.of_nat (List.length
                               (List.filter (λ i, bool_decide (status i = st)) all))))
       <$> getAllStatuses;
     canStartMore := canStartNew sm |}.

End StateManager.

(** ** [Orchestrator] ([index.ts]) *)

Module Orchestrator.
Import StateManager.

(** Calls made to the collaborators, in the order they are made. *)
Inductive Effect : Type :=
| PostIssueComment (owner repo number : JsVal) (body : string)
| AddReaction (owner repo commentId : JsVal) (reaction : string)
| StartAgentContainer (issue : ActiveIssue)
| RemoveContainer (cid : string)
| GetContainerStatus (cid : string)
| GetLogs (cid : string) (tail : Z).

(** What the collaborators answer during one handler run.  [clock] is the
    reading of [Date.now()] and [new Date()]; the two reads of
    [handleIssueTriggered] follow each other directly.  [addReaction]
    catches its own errors and [getLogs] returns a text in every case, so
    neither has an answer that matters here. *)
Record World : Type := mkWorld {
  clock : Z;
  postIssueComment : JsVal → JsVal → JsVal → string → Result unit;
  startAgentContainer : ActiveIssue → Result string;
  removeContainer : string → Result unit
}.

(** The result of one handler run: the registry afterwards, the calls made,
    and whether the returned promise rejected. *)
Record Run : Type := mkRun {
  run_state : StateManager.t;
  run_effects : list Effect;
  run_threw : bool
}.

(** The first parameter of [handleIssueTriggered] is [issue: any]: the
    webhook server passes an issue object, the poller passes its first
    positional argument, the owner string. *)
Inductive IssueArg : Type :=
| IssueObject (i : GitHubIssue)
| IssueString (s : string).

(** [const { owner, repo, number } = issue], [issue.title], [issue.body]:
    a string primitive has none of these properties. *)
Definition issue_owner (issue : IssueArg) : JsVal :=
  match issue with IssueObject i => JStr (gi_owner i) | IssueString _ => JUndefined end.
Definition issue_repo (issue : IssueArg) : JsVal :=
  match issue with IssueObject i => JStr (gi_repo i) | IssueString _ => JUndefined end.
Definition issue_number (issue : IssueArg) : JsVal :=
  match issue with IssueObject i => JNum (gi_number i) | IssueString _ => JUndefined end.
Definition issue_title (issue : IssueArg) : JsVal :=
  match issue with IssueObject i => JStr (gi_title i) | IssueString _ => JUndefined end.
Definition issue_body (issue : IssueArg) : JsVal :=
  match issue with IssueObject i => JStr (gi_body i) | IssueString _ => JUndefined end.

Definition nl : string := String (ascii_of_nat 10) EmptyString.

Definition msgAlreadyHandled : string :=
  "🔄 This issue is already being handled by an agent.".

Definition msgQueueFull (queuePos : Z) : string :=
  "🕐 All agent slots are full. Queue position: #" +:+ pretty queuePos +:+
  ". An agent will start when a slot becomes available.".

Definition msgStarting (branch : string) : string :=
  "🚀 Starting agent for this issue..." +:+ nl +:+ nl +:+
  "- Branch: `" +:+ branch +:+ "`" +:+ nl +:+
  "- Status: Initializing container".

Definition msgStartFailed (err : string) : string :=
  "❌ Failed to start agent: " +:+ err +:+ nl +:+ nl +:+
  "Please check the orchestrator logs.".

Definition msgCompleted (pr : Z) : string :=
  "✅ Agent completed for this issue. PR #" +:+ pretty pr +:+
  " has been closed and container cleaned up.".

Definition msgFeedback (body : string) : string :=
  "📝 Feedback received:" +:+ nl +:+ nl +:+ body +:+ nl +:+ nl +:+
  "Agent will iterate on the changes.".

Definition msgContainerStopped (st : string) : string :=
  "❌ Agent encountered an error and stopped." +:+ nl +:+ nl +:+
  "Container status: " +:+ st +:+ nl +:+ nl +:+
  "Please check the issue or try triggering the agent again.".

Definition errTerminated (st : string) : string :=
  "Container terminated unexpectedly (status: " +:+ st +:+ ")".

(** The [catch] block of [handleIssueTriggered]: post the failure comment;
    if that post throws too, so does the handler. *)
Definition startFailed (w : World) (owner repo number : JsVal) (err : string)
    (sm : StateManager.t) (made : list Effect) : Run :=
  let body := msgStartFailed err in
  {| run_state := sm;
     run_effects := made ++ [PostIssueComment owner repo number body];
     run_threw := negb (resolved (postIssueComment w owner repo number body)) |}.

Definition handleIssueTriggered (w : World) (issue : IssueArg) (commentId : JsVal)
    (sm : StateManager.t) : Run :=
  let owner := issue_owner issue in
  let repo := issue_repo issue in
  let number := issue_number issue in
  if isIssueActive owner repo number sm then
    {| run_state := sm;
       run_effects := [PostIssueComment owner repo number msgAlreadyHandled];
       run_threw := negb (resolved (postIssueComment w owner repo number msgAlreadyHandled)) |}
  else if negb (canStartNew sm) then
    let queuePos := getQueuePosition sm in
    {| run_state := sm;
       run_effects := [PostIssueComment owner repo number (msgQueueFull queuePos)];
       run_threw := negb (resolved (postIssueComment w owner repo number (msgQueueFull queuePos))) |}
  else
    let branchName := "ai-agent-issue-" +:+ tmpl number +:+ "-" +:+ pretty (clock w) in
    let activeIssue :=
      {| repoOwner := owner; repoName := repo; issueNumber := number;
         issueTitle := issue_title issue; issueBody := issue_body issue;
         containerId := ""; containerName := "";
         status := starting; branchName := branchName;
         prNumber := None; startedAt := clock w;
         lastHeartbeat := None; error := None |} in
    let acked :=
      [AddReaction owner repo commentId "rocket";
       PostIssueComment owner repo number (msgStarting branchName)] in
    match postIssueComment w owner repo number (msgStarting branchName) with
    | Rejected err => startFailed w owner repo number err sm acked
    | Resolved _ =>
        match startAgentContainer w activeIssue with
        | Rejected err =>
            startFailed w owner repo number err sm
              (acked ++ [StartAgentContainer activeIssue])
        | Resolved cid =>
            let registered :=
              {| repoOwner := owner; repoName := repo; issueNumber := number;
                 issueTitle := issue_title issue; issueBody := issue_body issue;
                 containerId := cid;
                 containerName :=
                   "agent-" +:+ tmpl owner +:+ "-" +:+ tmpl repo +:+
                   "-issue-" +:+ tmpl number;
                 status := starting; branchName := branchName;
                 prNumber := None; startedAt := clock w;
                 lastHeartbeat := None; error := None |} in
            {| run_state := registerIssue registered sm;
               run_effects := acked ++ [StartAgentContainer activeIssue];
               run_threw := false |}
        end
    end.

(** [activeIssues.find(i => i.prNumber === prNumber)]. *)
Definition findByPR (pr : Z) (sm : StateManager.t) : option ActiveIssue :=
  List.find (λ i, bool_decide (prNumber i = Some pr)) (getAllActive sm).

Definition handlePRClosed (w : World) (owner repo : string) (pr : Z)
    (sm : StateManager.t) : Run :=
  match findByPR pr sm with
  | None => {| run_state := sm; run_effects := []; run_threw := false |}
  | Some issue =>
      let removal :=
        if String.eqb (containerId issue) "" then Resolved tt
        else removeContainer w (containerId issue) in
      let removalCall :=
        if String.eqb (containerId issue) "" then []
        else [RemoveContainer (containerId issue)] in
      match removal with
      | Rejected _ =>
          {| run_state := sm; run_effects := removalCall; run_threw := false |}
      | Resolved _ =>
          {| run_state :=
               removeIssue (repoOwner issue) (repoName issue) (issueNumber issue) sm;
             run_effects :=
               removalCall ++
               [PostIssueComment (JStr owner) (JStr repo) (issueNumber issue)
                  (msgCompleted pr)];
             run_threw := false |}
      end
  end.

Definition handlePRReview (w : World) (owner repo : string) (pr : Z)
    (review : Review) (sm : StateManager.t) : Run :=
  match findByPR pr sm with
  | None => {| run_state := sm; run_effects := []; run_threw := false |}
  | Some issue =>
      if String.eqb (rv_state review) "CHANGES_REQUESTED" then
        let body := msgFeedback (rv_body review) in
        {| run_state :=
             updateIssueStatus (clock w) (JStr owner) (JStr repo)
               (issueNumber issue) iterating None sm;
           run_effects :=
             [PostIssueComment (JStr owner) (JStr repo) (issueNumber issue) body];
           run_threw :=
             negb (resolved (postIssueComment w (JStr owner) (JStr repo)
                               (issueNumber issue) body)) |}
      else {| run_state := sm; run_effects := []; run_threw := false |}
  end.

(** What the health check learns while it examines the unit with a given
    container id: the inspected status ([getContainerStatus] returns
    ['unknown'] when the inspection fails) and the reading of [new Date()]
    inside [updateIssueStatus].  [getLogs] does not throw and its text is
    only logged; a failed notification is caught and logged. *)
Record Probe : Type := mkProbe {
  p_status : string;
  p_time : Z
}.

(** One iteration of [for (const issue of staleIssues)]. *)
Definition checkStale (probe : string → Probe) (acc : StateManager.t * list Effect)
    (issue : ActiveIssue) : StateManager.t * list Effect :=
  let '(sm, log) := acc in
  let p := probe (containerId issue) in
  let st := p_status p in
  if String.eqb st "exited" || String.eqb st "dead" then
    (updateIssueStatus (p_time p) (repoOwner issue) (repoName issue)
       (issueNumber issue) error_ (Some (errTerminated st)) sm,
     log ++ [GetContainerStatus (containerId issue);
             GetLogs (containerId issue) 50;
             PostIssueComment (repoOwner issue) (repoName issue)
               (issueNumber issue) (msgContainerStopped st)])
  else (sm, log ++ [GetContainerStatus (containerId issue)]).

(** One firing of the interval of [startHealthCheckLoop]; [now] is the
    [Date.now()] of [getStaleIssues]. *)
Definition healthCheck (now : Z) (probe : string → Probe) (sm : StateManager.t) : Run :=
  let staleIssues := getStaleIssues now defaultHeartbeatTimeoutMs sm in
  let '(sm', log) := foldl (checkStale probe) (sm, []) staleIssues in
  {| run_state := sm'; run_effects := log; run_threw := false |}.

(** The events the registry reacts to, each with what the collaborators
    answered while it was handled.  [PRNumberSet] is a call of
    [setPRNumber], the one way a unit gets its pull-request number. *)
Inductive Event : Type :=
| IssueTriggered (w : World) (issue : IssueArg) (commentId : JsVal)
| PRClosed (w : World) (owner repo : string) (pr : Z)
| PRReviewed (w : World) (owner repo : string) (pr : Z) (review : Review)
| HealthTick (now : Z) (probe : string → Probe)
| PRNumberSet (owner repo number : JsVal) (pr : Z).

Definition handle (e : Event) (sm : StateManager.t) : Run :=
  match e with
  | IssueTriggered w issue commentId => handleIssueTriggered w issue commentId sm
  | PRClosed w owner repo pr => handlePRClosed w owner repo pr sm
  | PRReviewed w owner repo pr review => handlePRReview w owner repo pr review sm
  | HealthTick now probe => healthCheck now probe sm
  | PRNumberSet owner repo number pr =>
      {| run_state := setPRNumber owner repo number pr sm;
         run_effects := []; run_threw := false |}
  end.

(** Events are handled one at a time, each on the registry the previous
    one left. *)
Definition process (events : list Event) (sm : StateManager.t) : StateManager.t :=
  foldl (λ s e, run_state (handle e s)) sm events.

End Orchestrator.

(** ** [GitHubClient] ([github-client.ts]): the pure helpers *)

Module GitHubClient.

Definition isTriggerComment (body : string) (repos : list RepoConfig) : bool :=
  let lowerBody := toLowerCase body in
  existsb (λ repo, enabled repo && includes lowerBody (toLowerCase (triggerComment repo)))
    repos.

Definition getRepoConfig (owner name : string) (repos : list RepoConfig)
    : option RepoConfig :=
  List.find
    (λ repo, enabled repo
             && String.eqb (toLowerCase (rc_owner repo)) (toLowerCase owner)
             && String.eqb (toLowerCase (rc_name repo)) (toLowerCase name))
    repos.

Definition botSuffixes : list string := ["[bot]"; "-bot"; "bot"; "agent"; "ai-agent"].

Definition isBotComment (userLogin : string) : bool :=
  existsb (λ suffix, endsWith (toLowerCase userLogin) suffix) botSuffixes.

(** [verifyWebhookSignature(payload, signature)].  [hmacSha256Hex payload]
    is [crypto.createHmac('sha256', this.webhookSecret).update(payload)
    .digest('hex')].  [crypto.timingSafeEqual] throws when its two buffers
    differ in byte length. *)
Definition verifyWebhookSignature (hmacSha256Hex : string → string)
    (payload signature : string) : Result bool :=
  let digest := "sha256=" +:+ hmacSha256Hex payload in
  if Nat.eqb (String.length signature) (String.length digest)
  then Resolved (String.eqb signature digest)
  else Rejected ("RangeError [ERR_CRYPTO_TIMING_SAFE_EQUAL_LENGTH]: " +:+
                 "Input buffers must have the same byte length").

(** [getMatchedTrigger(body, repos)]; [None] is [null]. *)
Fixpoint getMatchedTrigger (body : string) (repos : list RepoConfig) : option string :=
  match repos with
  | [] => None
  | repo :: rest =>
      if enabled repo && includes (toLowerCase body) (toLowerCase (triggerComment repo))
      then Some (triggerComment repo)
      else getMatchedTrigger body rest
  end.

End GitHubClient.

(** ** [WebhookServer] ([webhooks.ts]) *)

Module WebhookServer.
Import StateManager Orchestrator GitHubClient.

Record HookIssue : Type := mkHookIssue {
  hi_id : Z;
  hi_number : Z;
  hi_title : string;
  hi_body : option string;
  hi_html_url : string;
  hi_userLogin : string
}.

Record HookRepository : Type := mkHookRepository {
  hr_ownerLogin : string;
  hr_name : string
}.

Record HookComment : Type := mkHookComment {
  hc_id : Z;
  hc_body : string;
  hc_userLogin : string
}.

(** [body || '']. *)
Definition orEmpty (body : option string) : string :=
  match body with
  | Some b => if String.eqb b "" then "" else b
  | None => ""
  end.

Definition nothing (sm : StateManager.t) : Run :=
  {| run_state := sm; run_effects := []; run_threw := false |}.

(** The issue object both webhook paths hand to [onIssueTriggered]. *)
Definition triggerObject (issue : HookIssue) (repository : HookRepository) : IssueArg :=
  IssueObject
    {| gi_owner := hr_ownerLogin repository;
       gi_repo := hr_name repository;
       gi_number := hi_number issue;
       gi_title := hi_title issue;
       gi_body := orEmpty (hi_body issue);
       gi_htmlUrl := hi_html_url issue;
       gi_userLogin := hi_userLogin issue |}.

(** [handlers.onIssueTriggered] is [handleIssueTriggered.bind(this)]. *)
Definition handleIssuesEvent (w : World) (repos : list RepoConfig)
    (action : string) (issue : HookIssue) (repository : HookRepository)
    (sm : StateManager.t) : Run :=
  if negb (String.eqb action "opened") && negb (String.eqb action "edited") then nothing sm
  else
    match getRepoConfig (hr_ownerLogin repository) (hr_name repository) repos with
    | None => nothing sm
    | Some _ =>
        let hasTrigger := isTriggerComment (orEmpty (hi_body issue)) repos in
        if hasTrigger && negb (isBotComment (hi_userLogin issue)) then
          handleIssueTriggered w (triggerObject issue repository) (JNum (hi_id issue)) sm
        else nothing sm
    end.

Definition handleIssueCommentEvent (w : World) (repos : list RepoConfig)
    (action : string) (comment : HookComment) (issue : HookIssue)
    (repository : HookRepository) (sm : StateManager.t) : Run :=
  if negb (String.eqb action "created") then nothing sm
  else if isBotComment (hc_userLogin comment) then nothing sm
  else
    match getRepoConfig (hr_ownerLogin repository) (hr_name repository) repos with
    | None => nothing sm
    | Some _ =>
        if isTriggerComment (hc_body comment) repos then
          let r := handleIssueTriggered w (triggerObject issue repository)
                     (JNum (hc_id comment)) sm in
          {| run_state := run_state r;
             run_effects :=
               AddReaction (JStr (hr_ownerLogin repository)) (JStr (hr_name repository))
                 (JNum (hc_id comment)) "eyes" :: run_effects r;
             run_threw := run_threw r |}
        else nothing sm
    end.

Definition handlePullRequestEvent (w : World) (action : string) (prNumber : Z)
    (repository : HookRepository) (sm : StateManager.t) : Run :=
  if String.eqb action "closed" then
    handlePRClosed w (hr_ownerLogin repository) (hr_name repository) prNumber sm
  else nothing sm.

(** The reply of a route. *)
Inductive Reply : Type :=
| Received
| Failed (status : Z) (message : string).

(** [POST /api/status]: the update is logged and acknowledged.  The server
    holds the GitHub client, the configuration and the three handlers; it
    has no reference to the state manager. *)
Definition postApiStatus (statusUpdate : StatusUpdate) (sm : StateManager.t)
    : StateManager.t * Reply :=
  (sm, Received).

Record HookReview : Type := mkHookReview {
  hv_id : Z;
  hv_userLogin : string;
  hv_state : string;
  hv_body : option string;
  hv_submitted_at : Z
}.

(** [handlers.onPRReview] is [handlePRReview.bind(this)]. *)
Definition handlePullRequestReviewEvent (w : World) (review : HookReview)
    (prNumber : Z) (repository : HookRepository) (sm : StateManager.t) : Run :=
  if negb (String.eqb (hv_state review) "CHANGES_REQUESTED")
     && negb (String.eqb (hv_state review) "COMMENTED") then nothing sm
  else if isBotComment (hv_userLogin review) then nothing sm
  else
    handlePRReview w (hr_ownerLogin repository) (hr_name repository) prNumber
      {| rv_id := hv_id review;
         rv_userLogin := Some (hv_userLogin review);
         rv_state := hv_state review;
         rv_body := orEmpty (hv_body review);
         rv_submittedAt := hv_submitted_at review |}
      sm.

(** A delivery as GitHub sends it: the event name of the
    [x-github-event] header together with the parsed payload, which has the
    fields of that event. *)
Inductive Delivery : Type :=
| IssuesEvent (action : string) (issue : HookIssue) (repository : HookRepository)
| IssueCommentEvent (action : string) (comment : HookComment) (issue : HookIssue)
    (repository : HookRepository)
| PullRequestEvent (action : string) (prNumber : Z) (repository : HookRepository)
| PullRequestReviewEvent (review : HookReview) (prNumber : Z)
    (repository : HookRepository)
| OtherEvent (eventName : string).

Definition processWebhookEvent (w : World) (repos : list RepoConfig) (d : Delivery)
    (sm : StateManager.t) : Run :=
  match d with
  | IssuesEvent action issue repository =>
      handleIssuesEvent w repos action issue repository sm
  | IssueCommentEvent action comment issue repository =>
      handleIssueCommentEvent w repos action comment issue repository sm
  | PullRequestEvent action prNumber repository =>
      handlePullRequestEvent w action prNumber repository sm
  | PullRequestReviewEvent review prNumber repository =>
      handlePullRequestReviewEvent w review prNumber repository sm
  | OtherEvent _ => nothing sm
  end.

(** A request to [POST /webhook/github]: the [x-hub-signature-256] header,
    the raw body, and what [JSON.parse] makes of the body ([Rejected] when
    it throws). *)
Record Request : Type := mkRequest {
  signatureHeader : option string;
  rawBody : string;
  parsedBody : Result Delivery
}.

(** What the client gets back: a status code, or nothing when the error
    left the route handler. *)
Inductive Response : Type :=
| Status (code : Z)
| Unanswered (err : string).

(** [handleGitHubWebhook(req, res)]: the registry afterwards, the calls
    made and the response. *)
Definition handleGitHubWebhook (w : World) (repos : list RepoConfig)
    (hmacSha256Hex : string → string) (req : Request) (sm : StateManager.t)
    : StateManager.t * list Effect * Response :=
  if negb (truthy (signatureHeader req)) then (sm, [], Status 401)
  else
    match verifyWebhookSignature hmacSha256Hex (rawBody req)
            (default "" (signatureHeader req)) with
    | Rejected err => (sm, [], Unanswered err)
    | Resolved false => (sm, [], Status 401)
    | Resolved true =>
        match parsedBody req with
        | Rejected _ => (sm, [], Status 500)
        | Resolved d =>
            let r := processWebhookEvent w repos d sm in
            (run_state r, run_effects r,
             if run_threw r then Status 500 else Status 202)
        end
    end.

End WebhookServer.

(** ** [GitHubPoller] ([poller.ts]) *)

Module GitHubPoller.

(** The items of the GitHub listings, with the fields the poller reads. *)
Record ApiIssue : Type := mkApiIssue {
  ai_number : Z;
  ai_pull_request : bool;
  ai_body : option string;
  ai_userLogin : option string
}.

Record ApiComment : Type := mkApiComment {
  ac_id : Z;
  ac_userLogin : option string;
  ac_body : option string
}.

Record ApiPull : Type := mkApiPull {
  ap_number : Z;
  ap_headRef : string;
  ap_state : string
}.

Record ApiReview : Type := mkApiReview {
  ar_id : Z;
  ar_userLogin : option string;
  ar_state : string;
  ar_body : option string;
  ar_submitted_at : Z
}.

Record RateInfo : Type := mkRateInfo {
  rate_limit : Z;
  rate_remaining : Z;
  rate_reset : Z
}.

(** [PollState] and the two rate fields of the class. *)
Record t : Type := mk {
  lastIssueCheck : gmap string Z;
  lastCommentCheck : gmap string (gmap Z Z);
  knownPRs : gset string;
  knownReviews : gmap string Z;
  rateLimitRemaining : Z;
  rateLimitReset : Z
}.

Definition new (constructedAt : Z) : t :=
  {| lastIssueCheck := ∅; lastCommentCheck := ∅; knownPRs := ∅;
     knownReviews := ∅; rateLimitRemaining := 5000;
     rateLimitReset := constructedAt |}.

(** [PollerHandlers]: each handler returns a promise; the boolean tells
    whether awaiting it resolved ([true]) or threw ([false]). *)
Record PollerHandlers (St : Type) : Type := mkHandlers {
  onIssueTriggered : string → string → Z → string → St → St * bool;
  onPRClosed : string → string → Z → St → St * bool;
  onPRReview : string → string → Z → Review → St → St * bool
}.
Arguments onIssueTriggered {St} _ _ _ _ _ _.
Arguments onPRClosed {St} _ _ _ _ _.
Arguments onPRReview {St} _ _ _ _ _ _.

(** What a cycle does that the outside can see: requests and handler calls. *)
Inductive Action : Type :=
| GetRateLimit
| ListIssuesSince (owner name : string) (since : Z)
| ListOpenIssues (owner name : string)
| ListComments (owner name : string) (number : Z) (since : option Z)
| ListPulls (owner name : string)
| ListReviews (owner name : string) (pull : Z)
| IssueTriggeredCall (owner repo : string) (number : Z) (trigger : string)
| PRClosedCall (owner repo : string) (pr : Z)
| PRReviewCall (owner repo : string) (pr : Z) (review : Review).

(** The poller, the state its handlers act on, and the actions so far. *)
Record Sys (St : Type) : Type := mkSys {
  poller : t;
  hstate : St;
  trace : list Action
}.
Arguments mkSys {St} _ _ _.
Arguments poller {St} _.
Arguments hstate {St} _.
Arguments trace {St} _.

Definition with_poller {St} (s : Sys St) (p : t) : Sys St :=
  mkSys p (hstate s) (trace s).

Definition log {St} (a : Action) (s : Sys St) : Sys St :=
  mkSys (poller s) (hstate s) (trace s ++ [a]).

Definition set_lastIssueCheck (k : string) (v : Z) (p : t) : t :=
  {| lastIssueCheck := <[k := v]> (lastIssueCheck p);
     lastCommentCheck := lastCommentCheck p; knownPRs := knownPRs p;
     knownReviews := knownReviews p;
     rateLimitRemaining := rateLimitRemaining p; rateLimitReset := rateLimitReset p |}.

Definition set_lastCommentCheck (k : string) (v : gmap Z Z) (p : t) : t :=
  {| lastIssueCheck := lastIssueCheck p;
     lastCommentCheck := <[k := v]> (lastCommentCheck p); knownPRs := knownPRs p;
     knownReviews := knownReviews p;
     rateLimitRemaining := rateLimitRemaining p; rateLimitReset := rateLimitReset p |}.

Definition add_knownPR (k : string) (p : t) : t :=
  {| lastIssueCheck := lastIssueCheck p;
     lastCommentCheck := lastCommentCheck p; knownPRs := {[k]} ∪ knownPRs p;
     knownReviews := knownReviews p;
     rateLimitRemaining := rateLimitRemaining p; rateLimitReset := rateLimitReset p |}.

Definition set_knownReviews (k : string) (v : Z) (p : t) : t :=
  {| lastIssueCheck := lastIssueCheck p;
     lastCommentCheck := lastCommentCheck p; knownPRs := knownPRs p;
     knownReviews := <[k := v]> (knownReviews p);
     rateLimitRemaining := rateLimitRemaining p; rateLimitReset := rateLimitReset p |}.

(** [knownPRs.delete(prKey); knownReviews.delete(prKey)]. *)
Definition drop_pr (k : string) (p : t) : t :=
  {| lastIssueCheck := lastIssueCheck p;
     lastCommentCheck := lastCommentCheck p; knownPRs := knownPRs p ∖ {[k]};
     knownReviews := delete k (knownReviews p);
     rateLimitRemaining := rateLimitRemaining p; rateLimitReset := rateLimitReset p |}.

Definition set_rate (remaining reset : Z) (p : t) : t :=
  {| lastIssueCheck := lastIssueCheck p;
     lastCommentCheck := lastCommentCheck p; knownPRs := knownPRs p;
     knownReviews := knownReviews p;
     rateLimitRemaining := remaining; rateLimitReset := reset |}.

(** [m.get(k) || d] on numbers: a missing entry and a stored [0] both
    give [d]. *)
Definition getOr (v : option Z) (d : Z) : Z :=
  match v with
  | Some x => if x =? 0 then d else x
  | None => d
  end.

(** [body || '']. *)
Definition orEmpty (body : option string) : string :=
  match body with
  | Some b => b
  | None => ""
  end.

Definition repoKeyOf (repo : RepoConfig) : string :=
  rc_owner repo +:+ "/" +:+ rc_name repo.

Definition prKeyOf (repo : RepoConfig) (number : Z) : string :=
  repoKeyOf repo +:+ "#" +:+ pretty number.

Definition isTriggerComment (body : string) (repo : RepoConfig) : bool :=
  let lowerBody := toLowerCase body in
  includes lowerBody (toLowerCase (triggerComment repo)).

Definition botPatterns : list string := ["[bot]"; "-bot"; "bot"; "agent"; "ai-agent"].

Definition isBotUser (login : option string) : bool :=
  match login with
  | None => true
  | Some l =>
      if String.eqb l "" then true
      else existsb (λ p, endsWith (toLowerCase l) p) botPatterns
  end.

(** The rate check; [rate.limit * 0.1] is the exact tenth.  The double
    nearest to 0.1 is [0.1 * (1 + 2^-54)].  For an integer limit below
    [2^52] the double product is therefore the tenth itself when ten
    divides the limit, and otherwise lies within [0.1] of a number that is
    at least [0.1] away from every integer; so for integer [remaining] the
    comparison is that of [10 * remaining] with [limit]. *)
Definition checkRateLimit (response : Result RateInfo) (p : t) : t * bool :=
  match response with
  | Resolved rate =>
      let p' := set_rate (rate_remaining rate) (rate_reset rate * 1000) p in
      if rate_remaining rate * 10 <? rate_limit rate then (p', false)
      else (p', true)
  | Rejected _ => (p, true)
  end.

Section Polling.
Context {St : Type} (handlers : PollerHandlers St).

(** [await this.handlers.onIssueTriggered(repo.owner, repo.name, number,
    repo.triggerComment)]. *)
Definition emitTrigger (repo : RepoConfig) (number : Z) (s : Sys St) : Sys St * bool :=
  let '(h, ok) :=
    onIssueTriggered handlers (rc_owner repo) (rc_name repo) number
      (triggerComment repo) (hstate s) in
  (mkSys (poller s) h
     (trace s ++ [IssueTriggeredCall (rc_owner repo) (rc_name repo) number
                    (triggerComment repo)]),
   ok).

Definition emitClosed (repo : RepoConfig) (pr : Z) (s : Sys St) : Sys St * bool :=
  let '(h, ok) := onPRClosed handlers (rc_owner repo) (rc_name repo) pr (hstate s) in
  (mkSys (poller s) h (trace s ++ [PRClosedCall (rc_owner repo) (rc_name repo) pr]), ok).

Definition emitReview (repo : RepoConfig) (pr : Z) (review : Review) (s : Sys St)
    : Sys St * bool :=
  let '(h, ok) :=
    onPRReview handlers (rc_owner repo) (rc_name repo) pr review (hstate s) in
  (mkSys (poller s) h
     (trace s ++ [PRReviewCall (rc_owner repo) (rc_name repo) pr review]), ok).

(** [if (!this.state.lastCommentCheck.has(repoKey)) set(repoKey, new Map())]. *)
Definition initCommentTracking (repoKey : string) (s : Sys St) : Sys St :=
  match lastCommentCheck (poller s) !! repoKey with
  | Some _ => s
  | None => with_poller s (set_lastCommentCheck repoKey ∅ (poller s))
  end.

(** The system once a listing has been requested. *)
Definition issuesRequested (repo : RepoConfig) (dateNow : Z) (s : Sys St) : Sys St :=
  let since :=
    getOr (lastIssueCheck (poller s) !! repoKeyOf repo) (dateNow - 24 * 60 * 60 * 1000) in
  log (ListIssuesSince (rc_owner repo) (rc_name repo) since) s.

Definition commentsRequested (repo : RepoConfig) (number lastCommentId : Z) (s : Sys St)
    : Sys St :=
  log (ListComments (rc_owner repo) (rc_name repo) number
         (if 0 <? lastCommentId then Some lastCommentId else None)) s.

Definition reviewsRequested (repo : RepoConfig) (pr : Z) (s : Sys St) : Sys St :=
  log (ListReviews (rc_owner repo) (rc_name repo) pr) s.

(** The loop of [pollNewIssues]; [false] when a handler threw and the loop
    was left through the [catch]. *)
Fixpoint scanNewIssues (repo : RepoConfig) (issues : list ApiIssue) (s : Sys St)
    : Sys St * bool :=
  match issues with
  | [] => (s, true)
  | issue :: rest =>
      if ai_pull_request issue then scanNewIssues repo rest s
      else
        let '(s1, ok) :=
          if isTriggerComment (orEmpty (ai_body issue)) repo
          then emitTrigger repo (ai_number issue) s
          else (s, true) in
        if ok then scanNewIssues repo rest (initCommentTracking (repoKeyOf repo) s1)
        else (s1, false)
  end.

(** [dateNow] is the [Date.now()] of the default look-back, [now] the one
    read after the listing arrived. *)
Definition pollNewIssues (repo : RepoConfig) (dateNow : Z)
    (response : Result (list ApiIssue)) (now : Z) (s : Sys St) : Sys St :=
  let repoKey := repoKeyOf repo in
  let s0 := issuesRequested repo dateNow s in
  match response with
  | Rejected _ => s0
  | Resolved issues =>
      let '(s1, ok) := scanNewIssues repo issues s0 in
      if ok then with_poller s1 (set_lastIssueCheck repoKey now (poller s1))
      else s1
  end.

(** The inner loop of [pollIssueComments]. *)
Fixpoint scanComments (repo : RepoConfig) (number lastCommentId : Z)
    (comments : list ApiComment) (s : Sys St) : Sys St * bool :=
  match comments with
  | [] => (s, true)
  | comment :: rest =>
      if ac_id comment <=? lastCommentId then
        scanComments repo number lastCommentId rest s
      else if isBotUser (ac_userLogin comment) then
        scanComments repo number lastCommentId rest s
      else if isTriggerComment (orEmpty (ac_body comment)) repo then
        let '(s1, ok) := emitTrigger repo number s in
        if ok then scanComments repo number lastCommentId rest s1
        else (s1, false)
      else scanComments repo number lastCommentId rest s
  end.

(** One iteration of the outer loop of [pollIssueComments], on the local
    [repoCommentState] and the system; the item carries what
    [listComments] answers for it. *)
Definition checkIssueComments (repo : RepoConfig)
    (acc : gmap Z Z * Sys St) (item : ApiIssue * Result (list ApiComment))
    : gmap Z Z * Sys St :=
  let '(repoCommentState, s) := acc in
  let '(issue, commentsResponse) := item in
  if ai_pull_request issue then acc
  else if isBotUser (ai_userLogin issue) then acc
  else
    let lastCommentId := getOr (repoCommentState !! ai_number issue) 0 in
    let s0 := commentsRequested repo (ai_number issue) lastCommentId s in
    match commentsResponse with
    | Rejected _ => (repoCommentState, s0)
    | Resolved comments =>
        let '(s1, ok) := scanComments repo (ai_number issue) lastCommentId comments s0 in
        if ok then
          match comments with
          | [] => (repoCommentState, s1)
          | c :: cs =>
              let maxId := max_list (ac_id c) (ac_id <$> cs) in
              (<[ai_number issue := maxId]> repoCommentState, s1)
          end
        else (repoCommentState, s1)
    end.

Definition pollIssueComments (repo : RepoConfig)
    (response : Result (list (ApiIssue * Result (list ApiComment))))
    (s : Sys St) : Sys St :=
  let repoKey := repoKeyOf repo in
  let repoCommentState := default ∅ (lastCommentCheck (poller s) !! repoKey) in
  let s0 := log (ListOpenIssues (rc_owner repo) (rc_name repo)) s in
  match response with
  | Rejected _ => s0
  | Resolved items =>
      let '(repoCommentState', s1) :=
        foldl (checkIssueComments repo) (repoCommentState, s0) items in
      with_poller s1 (set_lastCommentCheck repoKey repoCommentState' (poller s1))
  end.

Definition reviewEvent (review : ApiReview) : Review :=
  {| rv_id := ar_id review; rv_userLogin := ar_userLogin review;
     rv_state := ar_state review; rv_body := orEmpty (ar_body review);
     rv_submittedAt := ar_submitted_at review |}.

(** The loop of [pollPRReviews]. *)
Fixpoint scanReviews (repo : RepoConfig) (pr lastReviewId : Z)
    (reviews : list ApiReview) (s : Sys St) : Sys St * bool :=
  match reviews with
  | [] => (s, true)
  | review :: rest =>
      if ar_id review <=? lastReviewId then scanReviews repo pr lastReviewId rest s
      else if isBotUser (ar_userLogin review) then
        scanReviews repo pr lastReviewId rest s
      else if String.eqb (ar_state review) "CHANGES_REQUESTED"
              || String.eqb (ar_state review) "COMMENTED" then
        let '(s1, ok) := emitReview repo pr (reviewEvent review) s in
        if ok then scanReviews repo pr lastReviewId rest s1
        else (s1, false)
      else scanReviews repo pr lastReviewId rest s
  end.

Definition pollPRReviews (repo : RepoConfig) (pr : ApiPull)
    (response : Result (list ApiReview)) (s : Sys St) : Sys St :=
  let prKey := prKeyOf repo (ap_number pr) in
  let lastReviewId := getOr (knownReviews (poller s) !! prKey) 0 in
  let s0 := reviewsRequested repo (ap_number pr) s in
  match response with
  | Rejected _ => s0
  | Resolved reviews =>
      let '(s1, ok) := scanReviews repo (ap_number pr) lastReviewId reviews s0 in
      if ok then
        match reviews with
        | [] => s1
        | r :: rs =>
            let maxId := max_list (ar_id r) (ar_id <$> rs) in
            with_poller s1 (set_knownReviews prKey maxId (poller s1))
        end
      else s1
  end.

(** The loop of [pollOurPRs]; each listed pull request carries what
    [listReviews] answers for it. *)
Fixpoint scanPulls (repo : RepoConfig)
    (pulls : list (ApiPull * Result (list ApiReview))) (s : Sys St) : Sys St * bool :=
  match pulls with
  | [] => (s, true)
  | (pr, reviewsResponse) :: rest =>
      if negb (startsWith (ap_headRef pr) "ai-agent-issue-") then scanPulls repo rest s
      else
        let prKey := prKeyOf repo (ap_number pr) in
        let s1 := with_poller s (add_knownPR prKey (poller s)) in
        let s2 := pollPRReviews repo pr reviewsResponse s1 in
        if String.eqb (ap_state pr) "closed" then
          let '(s3, ok) := emitClosed repo (ap_number pr) s2 in
          if ok then scanPulls repo rest (with_poller s3 (drop_pr prKey (poller s3)))
          else (s3, false)
        else scanPulls repo rest s2
  end.

Definition pollOurPRs (repo : RepoConfig)
    (response : Result (list (ApiPull * Result (list ApiReview))))
    (s : Sys St) : Sys St :=
  let s0 := log (ListPulls (rc_owner repo) (rc_name repo)) s in
  match response with
  | Rejected _ => s0
  | Resolved pulls => fst (scanPulls repo pulls s0)
  end.

(** What GitHub and the clock answer while one repository is polled. *)
Record RepoWorld : Type := mkRepoWorld {
  dateNow : Z;
  issuesSince : Result (list ApiIssue);
  scannedAt : Z;
  openIssues : Result (list (ApiIssue * Result (list ApiComment)));
  pulls : Result (list (ApiPull * Result (list ApiReview)))
}.

Definition pollRepo (repo : RepoConfig) (rw : RepoWorld) (s : Sys St) : Sys St :=
  let s1 := pollNewIssues repo (dateNow rw) (issuesSince rw) (scannedAt rw) s in
  let s2 := pollIssueComments repo (openIssues rw) s1 in
  pollOurPRs repo (pulls rw) s2.

(** One cycle.  None of the three polls lets an error escape, so the
    [catch] around [pollRepo] never runs. *)
Definition pollAll (repos : list RepoConfig) (rate : Result RateInfo)
    (world : RepoConfig → RepoWorld) (s : Sys St) : Sys St :=
  let s0 := log GetRateLimit s in
  let '(p, proceed) := checkRateLimit rate (poller s0) in
  let s1 := with_poller s0 p in
  if negb proceed then s1
  else
    let enabledRepos := List.filter enabled repos in
    foldl (λ acc repo, pollRepo repo (world repo) acc) s1 enabledRepos.

(** [start]: an initial cycle, then one per interval; a cycle begins on
    the state the previous one left.  Each cycle comes with what GitHub
    and the clock answer during it. *)
Definition runCycles (repos : list RepoConfig)
    (cycles : list (Result RateInfo * (RepoConfig → RepoWorld))) (s : Sys St) : Sys St :=
  foldl (λ acc cycle, pollAll repos cycle.1 cycle.2 acc) s cycles.

End Polling.
End GitHubPoller.

(** ** [ContainerManager] ([container-manager.ts]) *)

Module ContainerManager.

(** A character the class [[^a-z0-9-]] does not match. *)
Definition isSafeChar (c : ascii) : bool :=
  let n := N_of_ascii c in
  (((97 <=? n) && (n <=? 122)) || ((48 <=? n) && (n <=? 57)) || (n =? 45))%N.

(** [s.replace(/[^a-z0-9-]/g, '-')], on ASCII text. *)
Fixpoint sanitize (s : string) : string :=
  match s with
  | EmptyString => EmptyString
  | String c s' => String (if isSafeChar c then c else "-"%char) (sanitize s')
  end.

(** [v.toLowerCase()] on a run-time value; [expr] is the expression [v]
    was read from, which the error message of a non-string quotes. *)
Definition lowerOf (expr : string) (v : JsVal) : Result string :=
  match v with
  | JStr s => Resolved (toLowerCase s)
  | JUndefined =>
      Rejected "TypeError: Cannot read properties of undefined (reading 'toLowerCase')"
  | JNum _ => Rejected ("TypeError: " +:+ expr +:+ ".toLowerCase is not a function")
  end.

(** [generateContainerName(issue)]; [timestamp] is its [Date.now()]. *)
Definition generateContainerName (timestamp : Z) (issue : ActiveIssue) : Result string :=
  match lowerOf "issue.repoOwner" (repoOwner issue) with
  | Rejected err => Rejected err
  | Resolved lowerOwner =>
      let safeOwner := sanitize lowerOwner in
      match lowerOf "issue.repoName" (repoName issue) with
      | Rejected err => Rejected err
      | Resolved lowerRepo =>
          let safeRepo := sanitize lowerRepo in
          Resolved ("agent-" +:+ safeOwner +:+ "-" +:+ safeRepo +:+ "-issue-" +:+
                    tmpl (issueNumber issue) +:+ "-" +:+ pretty timestamp)
      end
  end.

(** [startAgentContainer(issue)].  Its first statement computes the
    container name, outside of any [try]; [rest containerName issue] is
    what the statements after it come to: the environment, the image, the
    creation and the start of the container. *)
Definition startAgentContainer (timestamp : Z)
    (rest : string → ActiveIssue → Result string) (issue : ActiveIssue)
    : Result string :=
  match generateContainerName timestamp issue with
  | Rejected err => Rejected err
  | Resolved containerName => rest containerName issue
  end.

Definition backslash : ascii := ascii_of_nat 92.
Definition quote : ascii := ascii_of_nat 34.
Definition dollar : ascii := ascii_of_nat 36.
Definition lineFeed : ascii := ascii_of_nat 10.
Definition carriageReturn : ascii := ascii_of_nat 13.

(** [s.replace(/[\n\r]/g, ' ')]. *)
Fixpoint replaceNewlines (s : string) : string :=
  match s with
  | EmptyString => EmptyString
  | String c s' =>
      String (if Ascii.eqb c lineFeed || Ascii.eqb c carriageReturn then " "%char else c)
        (replaceNewlines s')
  end.

(** [s.replace(/x/g, '\\x')] for a single character [x]: a backslash goes
    in front of every occurrence. *)
Fixpoint escapeChar (x : ascii) (s : string) : string :=
  match s with
  | EmptyString => EmptyString
  | String c s' =>
      if Ascii.eqb c x then String backslash (String x (escapeChar x s'))
      else String c (escapeChar x s')
  end.

Definition escapeEnvVar (value : string) : string :=
  escapeChar dollar (escapeChar quote (replaceNewlines value)).

End ContainerManager.

(** ** [Agent] ([agent.ts]): the review loop inside a container *)

Module Agent.

(** An item of the review listing, with the fields the agent reads. *)
Record PRReview : Type := mkPRReview {
  review_state : string;
  review_userLogin : option string;
  review_body : string
}.

Definition botPatterns : list string := ["[bot]"; "-bot"; "agent"; "ai-agent"].

Definition isBotUser (login : option string) : bool :=
  match login with
  | None => true
  | Some l =>
      if String.eqb l "" then true
      else existsb (λ p, endsWith (toLowerCase l) p) botPatterns
  end.

(** What the loop does that the outside can see. *)
Inductive Step : Type :=
| ReportStatus (status message : string)
| HandleFeedback (feedback : string)
| CommitAll (message : string)
| Push.

(** [`${v}`] on an optional string. *)
Definition render (v : option string) : string :=
  match v with
  | Some s => s
  | None => "undefined"
  end.

(** [reviews.filter(r => r.state === 'CHANGES_REQUESTED' &&
    !this.isBotUser(r.user?.login))]. *)
Definition changesRequested (reviews : list PRReview) : list PRReview :=
  List.filter
    (λ r, String.eqb (review_state r) "CHANGES_REQUESTED"
          && negb (isBotUser (review_userLogin r)))
    reviews.

Definition approved (reviews : list PRReview) : bool :=
  existsb (λ r, String.eqb (review_state r) "APPROVED") reviews.

Definition nl : string := String (ascii_of_nat 10) EmptyString.

(** The aggregated feedback handed to [handleFeedback]. *)
Definition feedbackOf (requested : list PRReview) : string :=
  String.concat (nl +:+ nl)
    ((λ r, "@" +:+ render (review_userLogin r) +:+ ": " +:+ review_body r) <$> requested).

(** One turn of the monitoring loop: what [getPRReviews] returned (the
    empty list when the request failed) and whether [handleFeedback]
    succeeds if the turn calls it. *)
Record Turn : Type := mkTurn {
  reviews : list PRReview;
  handled : bool
}.

(** How the loop stands after the turns given: it has ended with the
    iteration count shown, or it is waiting for its next turn. *)
Inductive Monitoring : Type :=
| Ended (iterations : Z)
| Waiting (iterations : Z).

Definition maxIterations : Z := 5.

(** [monitorPRAndIterate(prNumber)], run on a finite prefix of its turns. *)
Fixpoint monitorPRAndIterate (turns : list Turn) (iterations : Z) (log : list Step)
    : list Step * Monitoring :=
  if negb (iterations <? maxIterations) then (log, Ended iterations)
  else
    match turns with
    | [] => (log, Waiting iterations)
    | turn :: later =>
        match changesRequested (reviews turn) with
        | [] =>
            if approved (reviews turn) then (log, Ended iterations)
            else monitorPRAndIterate later iterations log
        | r :: rs =>
            let log1 :=
              log ++ [ReportStatus "iterating" "Addressing review feedback...";
                      HandleFeedback (feedbackOf (r :: rs))] in
            if negb (handled turn) then monitorPRAndIterate later (iterations + 1) log1
            else
              let log2 :=
                log1 ++
                [CommitAll ("Address review feedback (iteration " +:+
                            pretty (iterations + 1) +:+ ")");
                 Push;
                 ReportStatus "awaiting_review" "Changes pushed, awaiting review..."] in
              if approved (reviews turn) then (log2, Ended (iterations + 1))
              else monitorPRAndIterate later (iterations + 1) log2
        end
    end.

End Agent.

(** ** The orchestrator in polling mode

    [new GitHubPoller(this.config, handlers, ...)] receives the three bound
    handlers of the orchestrator.  The poller calls
    [onIssueTriggered(owner, repo, issueNumber, trigger)] while
    [handleIssueTriggered(issue, commentId)] takes two parameters: the owner
    string arrives as [issue], the repository name as [commentId], and the
    two other arguments are dropped. *)

Module Polling.
Import StateManager Orchestrator GitHubPoller.

(** The state the handlers act on: the registry, the calls made to the
    collaborators so far, and how many handler runs there were. *)
Record Core : Type := mkCore {
  registry : StateManager.t;
  effects : list Effect;
  runs : nat
}.

Definition after (c : Core) (r : Run) : Core * bool :=
  ({| registry := run_state r;
      effects := effects c ++ run_effects r;
      runs := S (runs c) |},
   negb (run_threw r)).

(** [worlds n] is what the collaborators answer during the [n]-th handler
    run. *)
Definition handlers (worlds : nat → World) : PollerHandlers Core :=
  {| onIssueTriggered := λ owner repo issueNumber trigger c,
       after c (handleIssueTriggered (worlds (runs c)) (IssueString owner) (JStr repo)
                  (registry c));
     onPRClosed := λ owner repo pr c,
       after c (handlePRClosed (worlds (runs c)) owner repo pr (registry c));
     onPRReview := λ owner repo pr review c,
       after c (handlePRReview (worlds (runs c)) owner repo pr review (registry c)) |}.

End Polling.

(** ** Predicates used in the statements *)

Module Props.
Import StateManager Orchestrator GitHubPoller.

(** The key a unit is registered under. *)
Definition keyOf (issue : ActiveIssue) : string :=
  getIssueKey (repoOwner issue) (repoName issue) (issueNumber issue).

(** A mutation that leaves owner, repository and issue number alone. *)
Definition keeps_key (f : ActiveIssue → ActiveIssue) : Prop :=
  ∀ issue, keyOf (f issue) = keyOf issue.

(** Every unit is stored under the key of its own owner, repository and
    issue number, and no key occurs twice. *)
Definition registry_wf (sm : StateManager.t) : Prop :=
  JsMap.wf (activeIssues sm) ∧
  ∀ k issue, (k, issue) ∈ activeIssues sm →
    k = getIssueKey (repoOwner issue) (repoName issue) (issueNumber issue).


(** The container states the health check treats as a crash. *)
Definition dead_status (s : string) : Prop := s = "exited" ∨ s = "dead".

(** The number of notifications posted on a given issue. *)
Definition notifies (owner repo number : JsVal) (e : Effect) : bool :=
  match e with
  | PostIssueComment o r n _ =>
      bool_decide (o = owner ∧ r = repo ∧ n = number)
  | _ => false
  end.

Definition notifications (owner repo number : JsVal) (log : list Effect) : nat :=
  List.length (List.filter (notifies owner repo number) log).

Definition startsContainer (e : Effect) : bool :=
  match e with
  | StartAgentContainer _ => true
  | _ => false
  end.

(** The number of closure events emitted for a pull request. *)
Definition isClosure (owner repo : string) (pr : Z) (a : Action) : bool :=
  match a with
  | PRClosedCall o r n => bool_decide (o = owner ∧ r = repo ∧ n = pr)
  | _ => false
  end.

Definition closures (owner repo : string) (pr : Z) (tr : list Action) : nat :=
  List.length (List.filter (isClosure owner repo pr) tr).

(** The action is not a closure event. *)
Definition noClosure (a : Action) : bool :=
  match a with
  | PRClosedCall _ _ _ => false
  | _ => true
  end.

(** A step that leaves the poller alone and emits no closure event. *)
Definition quiet {St : Type} (s s' : Sys St) : Prop :=
  poller s' = poller s
  ∧ ∃ added, trace s' = trace s ++ added ∧ Forall (λ a, noClosure a = true) added.

(** The handler for closed pull requests never throws. *)
Definition closes_quietly {St : Type} (hs : PollerHandlers St) : Prop :=
  ∀ owner repo pr h, (onPRClosed hs owner repo pr h).2 = true.

(** The part of the system a given pull request is concerned with. *)
Definition same_for {St : Type} (repo : RepoConfig) (n : Z) (s s' : Sys St) : Prop :=
  (prKeyOf repo n ∈ knownPRs (poller s') ↔ prKeyOf repo n ∈ knownPRs (poller s))
  ∧ knownReviews (poller s') !! prKeyOf repo n = knownReviews (poller s) !! prKeyOf repo n
  ∧ closures (rc_owner repo) (rc_name repo) n (trace s') =
    closures (rc_owner repo) (rc_name repo) n (trace s).

(** A step only adds to the trace. *)
Definition extends {St : Type} (s s' : Sys St) : Prop :=
  ∃ added, trace s' = trace s ++ added.

(** A stored numeric watermark did not go down: an absent entry is below
    every value. *)
Definition mark_le (old new : option Z) : Prop :=
  match old, new with
  | None, _ => True
  | Some x, Some y => x ≤ y
  | Some _, None => False
  end.

(** The per-issue comment watermark of a repository. *)
Definition commentMark (p : GitHubPoller.t) (repoKey : string) (number : Z) : option Z :=
  lastCommentCheck p !! repoKey ≫= λ m, m !! number.

(** No watermark of [p] is lower in [p']: issue timestamps, last-seen
    comment ids, known-PR membership and last-seen review ids. *)
Definition marks_le (p p' : GitHubPoller.t) : Prop :=
  (∀ k, mark_le (lastIssueCheck p !! k) (lastIssueCheck p' !! k))
  ∧ (∀ k n, mark_le (commentMark p k n) (commentMark p' k n))
  ∧ (∀ k, k ∈ knownPRs p → k ∈ knownPRs p')
  ∧ (∀ k, mark_le (knownReviews p !! k) (knownReviews p' !! k)).

(** What a cycle is given is not behind what the poller [p] has stored: the
    clock is not behind a stored issue timestamp, the largest id of a
    non-empty batch of comments or reviews is not below the id stored for
    its key, and no pull request on an agent branch is listed as closed. *)
Definition cycle_current (repos : list RepoConfig) (world : RepoConfig → RepoWorld)
    (p : GitHubPoller.t) : Prop :=
  ∀ repo, repo ∈ repos → enabled repo = true →
    (∀ t, lastIssueCheck p !! repoKeyOf repo = Some t → t ≤ scannedAt (world repo))
    ∧ (∀ items issue c cs old,
         openIssues (world repo) = Resolved items →
         (issue, Resolved (c :: cs)) ∈ items →
         commentMark p (repoKeyOf repo) (ai_number issue) = Some old →
         old ≤ max_list (ac_id c) (ac_id <$> cs))
    ∧ (∀ prs pr response,
         pulls (world repo) = Resolved prs →
         (pr, response) ∈ prs →
         startsWith (ap_headRef pr) "ai-agent-issue-" = true →
         ap_state pr ≠ "closed"
         ∧ ∀ r rs old,
             response = Resolved (r :: rs) →
             knownReviews p !! prKeyOf repo (ap_number pr) = Some old →
             old ≤ max_list (ar_id r) (ar_id <$> rs)).

(** Every cycle of a run is current for the poller it starts on. *)
Fixpoint cycles_current {St : Type} (hs : PollerHandlers St) (repos : list RepoConfig)
    (cycles : list (Result RateInfo * (RepoConfig → RepoWorld))) (s : Sys St) : Prop :=
  match cycles with
  | [] => True
  | cycle :: rest =>
      cycle_current repos cycle.2 (poller s)
      ∧ cycles_current hs repos rest (pollAll hs repos cycle.1 cycle.2 s)
  end.

(** The world starts containers the way [ContainerManager] does. *)
Definition starts_by_manager (w : World) : Prop :=
  ∃ timestamp rest, ∀ issue,
    startAgentContainer w issue = ContainerManager.startAgentContainer timestamp rest issue.

(** The call is addressed to an issue whose owner, repository and number
    are all [undefined]. *)
Definition addressedToUndefined (e : Effect) : bool :=
  match e with
  | PostIssueComment o r n _ =>
      bool_decide (o = JUndefined ∧ r = JUndefined ∧ n = JUndefined)
  | AddReaction o r _ _ => bool_decide (o = JUndefined ∧ r = JUndefined)
  | StartAgentContainer issue =>
      bool_decide (repoOwner issue = JUndefined ∧ repoName issue = JUndefined
                   ∧ issueNumber issue = JUndefined)
  | _ => false
  end.

(** Each of the three handlers keeps the property [P] of the state it
    acts on. *)
Definition kept_by {St : Type} (hs : PollerHandlers St) (P : St → Prop) : Prop :=
  (∀ owner repo number trigger h, P h → P (onIssueTriggered hs owner repo number trigger h).1)
  ∧ (∀ owner repo pr h, P h → P (onPRClosed hs owner repo pr h).1)
  ∧ (∀ owner repo pr review h, P h → P (onPRReview hs owner repo pr review h).1).

(** The pass over a batch of comments of an issue was not cut short by a
    handler that threw. *)
Definition comments_pass_completed {St : Type} (hs : PollerHandlers St)
    (repo : RepoConfig) (marks : gmap Z Z) (s : Sys St) (issue : ApiIssue)
    (comments : list ApiComment) : Prop :=
  let lastCommentId := getOr (marks !! ai_number issue) 0 in
  (scanComments hs repo (ai_number issue) lastCommentId comments
     (commentsRequested repo (ai_number issue) lastCommentId s)).2 = true.

(** The pass over a batch of reviews of a pull request was not cut short
    by a handler that threw. *)
Definition reviews_pass_completed {St : Type} (hs : PollerHandlers St)
    (repo : RepoConfig) (pr : ApiPull) (reviews : list ApiReview) (s : Sys St) : Prop :=
  let lastReviewId := getOr (knownReviews (poller s) !! prKeyOf repo (ap_number pr)) 0 in
  (scanReviews hs repo (ap_number pr) lastReviewId reviews
     (reviewsRequested repo (ap_number pr) s)).2 = true.

(** The action is a call of one of the three handlers. *)
Definition isHandlerCall (a : Action) : bool :=
  match a with
  | IssueTriggeredCall _ _ _ _ | PRClosedCall _ _ _ | PRReviewCall _ _ _ _ => true
  | _ => false
  end.

(** The step hands review feedback to Claude Code. *)
Definition isHandleFeedback (step : Agent.Step) : bool :=
  match step with
  | Agent.HandleFeedback _ => true
  | _ => false
  end.

(** How often the loop handed feedback to Claude Code. *)
Definition feedbackRounds (log : list Agent.Step) : nat :=
  List.length (List.filter isHandleFeedback log).

(** Every occurrence of the character [x] in [s] comes right after a
    backslash; [afterBackslash] tells whether [s] itself does. *)
Fixpoint guardedFrom (x : ascii) (afterBackslash : bool) (s : string) : bool :=
  match s with
  | EmptyString => true
  | String c s' =>
      (negb (Ascii.eqb c x) || afterBackslash)
      && guardedFrom x (Ascii.eqb c ContainerManager.backslash) s'
  end.

(** How many handler calls a trace holds. *)
Definition handlerCalls (tr : list Action) : nat :=
  List.length (List.filter isHandlerCall tr).

(** The handler for triggers throws whatever it is called with. *)
Definition trigger_always_throws {St : Type} (hs : PollerHandlers St) : Prop :=
  ∀ owner repo number trigger h, (onIssueTriggered hs owner repo number trigger h).2 = false.

End Props.

(** ** Concrete inputs used in the examples *)

Module Samples.
Import StateManager Orchestrator WebhookServer GitHubPoller.

(** Every collaborator call succeeds; the container started is ["c1"]. *)
Definition calm : World :=
  {| clock := 1000;
     postIssueComment := λ _ _ _ _, Resolved tt;
     startAgentContainer := λ _, Resolved "c1";
     removeContainer := λ _, Resolved tt |}.



(** The unit the orchestrator registers for [issue7] at time 0. *)
Definition unit7 : ActiveIssue :=
  {| repoOwner := JStr "alice"; repoName := JStr "proj"; issueNumber := JNum 7;
     issueTitle := JStr "Crash on start"; issueBody := JStr "@agent please fix";
     containerId := "c1"; containerName := "agent-alice-proj-issue-7";
     status := starting; branchName := "ai-agent-issue-7-0";
     prNumber := None; startedAt := 0; lastHeartbeat := None; error := None |}.

(** The same unit once its pull request 5 is known. *)
Definition unit7pr : ActiveIssue := assign_pr 5 unit7.

(** The same issue under an owner spelled with a capital letter. *)
Definition unit7caps : ActiveIssue :=
  {| repoOwner := JStr "Alice"; repoName := JStr "proj"; issueNumber := JNum 7;
     issueTitle := JStr "Crash on start"; issueBody := JStr "@agent please fix";
     containerId := "c2"; containerName := "agent-Alice-proj-issue-7";
     status := starting; branchName := "ai-agent-issue-7-1";
     prNumber := None; startedAt := 1; lastHeartbeat := None; error := None |}.

Definition oneUnit : StateManager.t := registerIssue unit7 (StateManager.new 2).

Definition oneUnitWithPR : StateManager.t := registerIssue unit7pr (StateManager.new 2).

(** The registry after the poller reported a trigger on alice/proj#7 and
    the container could be started. *)
Definition polledOnce : StateManager.t :=
  run_state
    (handleIssueTriggered calm (IssueString "alice") (JStr "proj") (StateManager.new 2)).

(** [Object.assign(issue, { status })]. *)
Definition assignStatus (st : ActiveIssueStatus) (issue : ActiveIssue) : ActiveIssue :=
  {| repoOwner := repoOwner issue; repoName := repoName issue;
     issueNumber := issueNumber issue; issueTitle := issueTitle issue;
     issueBody := issueBody issue; containerId := containerId issue;
     containerName := containerName issue; status := st;
     branchName := branchName issue; prNumber := prNumber issue;
     startedAt := startedAt issue; lastHeartbeat := lastHeartbeat issue;
     error := error issue |}.

(** The container of every unit has exited; the clock reads [t]. *)
Definition allExited (t : Z) : string → Probe :=
  λ _, {| p_status := "exited"; p_time := t |}.

Definition elevenMinutes : Z := 11 * 60 * 1000.

Definition repoAlice : RepoConfig :=
  {| rc_owner := "alice"; rc_name := "proj"; triggerComment := "@agent";
     enabled := true; promptTemplate := None |}.

(** The poller knows pull request 5 of alice/proj and has seen its
    review 9. *)
Definition knows5 : GitHubPoller.t :=
  {| lastIssueCheck := ∅; lastCommentCheck := ∅;
     knownPRs := {["alice/proj#5"]};
     knownReviews := {["alice/proj#5" := 9]};
     rateLimitRemaining := 5000; rateLimitReset := 0 |}.

Definition pr5closed : ApiPull :=
  {| ap_number := 5; ap_headRef := "ai-agent-issue-7-0"; ap_state := "closed" |}.

Definition pr6open : ApiPull :=
  {| ap_number := 6; ap_headRef := "ai-agent-issue-8-0"; ap_state := "open" |}.

(** The orchestrator holds the unit of alice/proj#7 with its pull request. *)
Definition coreWithPR : Polling.Core :=
  {| Polling.registry := oneUnitWithPR; Polling.effects := []; Polling.runs := 0 |}.

Definition pollingWithPR : Sys Polling.Core := mkSys knows5 coreWithPR [].

(** The poller has seen comment 103 on issue 7 and comment 50 on issue 9
    of alice/proj. *)
Definition seen103 : GitHubPoller.t :=
  {| lastIssueCheck := ∅;
     lastCommentCheck := {["alice/proj" := {[7 := 103; 9 := 50]}]};
     knownPRs := ∅; knownReviews := ∅;
     rateLimitRemaining := 5000; rateLimitReset := 0 |}.

(** The poller has seen comment 100 on issue 7 and comment 50 on issue 9. *)
Definition seen100 : GitHubPoller.t :=
  {| lastIssueCheck := ∅;
     lastCommentCheck := {["alice/proj" := {[7 := 100; 9 := 50]}]};
     knownPRs := ∅; knownReviews := ∅;
     rateLimitRemaining := 5000; rateLimitReset := 0 |}.

Definition openIssue (n : Z) : ApiIssue :=
  {| ai_number := n; ai_pull_request := false; ai_body := Some "It crashes";
     ai_userLogin := Some "carol" |}.

Definition remark (id : Z) : ApiComment :=
  {| ac_id := id; ac_userLogin := Some "carol"; ac_body := Some "me too" |}.

Definition idleCore : Polling.Core :=
  {| Polling.registry := StateManager.new 2; Polling.effects := []; Polling.runs := 0 |}.


Definition fullBudget : RateInfo :=
  {| rate_limit := 5000; rate_remaining := 4200; rate_reset := 1700000000 |}.

(** One cycle on alice/proj: issue 7 is listed as updated, its comments
    101 to 103 arrive while those of issue 9 cannot be fetched, and the
    open pull request 6 has no review. *)
Definition busyCycle : RepoConfig → RepoWorld :=
  λ _, {| dateNow := 1000;
          issuesSince := Resolved [openIssue 7];
          scannedAt := 1001;
          openIssues :=
            Resolved [(openIssue 9, Rejected "Error: 502");
                      (openIssue 7, Resolved [remark 101; remark 102; remark 103])];
          pulls := Resolved [(pr6open, Resolved [])] |}.

Definition developingUpdate : StatusUpdate :=
  {| su_containerId := "c1"; su_status := developing;
     su_message := "Working on it"; su_timestamp := "2024-01-01T00:00:00.000Z" |}.

(** Another issue of the same repository. *)
Definition issue8 : GitHubIssue :=
  {| gi_owner := "alice"; gi_repo := "proj"; gi_number := 8;
     gi_title := "Typo in README"; gi_body := "@agent fix the typo";
     gi_htmlUrl := "https://github.com/alice/proj/issues/8";
     gi_userLogin := "dave" |}.

(** The Docker daemon refuses every start. *)
Definition dockerDown : World :=
  {| clock := 3000;
     postIssueComment := λ _ _ _ _, Resolved tt;
     startAgentContainer :=
       λ _, Rejected "Error: Failed to start container: Error: connect ENOENT";
     removeContainer := λ _, Resolved tt |}.

(** A registry with a single slot, taken by the unit of alice/proj#7. *)
Definition fullHouse : StateManager.t := registerIssue unit7 (StateManager.new 1).

Definition changesRequested : Review :=
  {| rv_id := 31; rv_userLogin := Some "erin"; rv_state := "CHANGES_REQUESTED";
     rv_body := "Please add a test"; rv_submittedAt := 5000 |}.

(** The inspection of every container fails; the clock reads [t]. *)
Definition allUnknown (t : Z) : string → Probe :=
  λ _, {| p_status := "unknown"; p_time := t |}.

(** Containers are started by the container manager; Docker itself does
    whatever it is asked. *)
Definition managed : World :=
  {| clock := 1000;
     postIssueComment := λ _ _ _ _, Resolved tt;
     startAgentContainer :=
       ContainerManager.startAgentContainer 1000 (λ _ _, Resolved "c1");
     removeContainer := λ _, Resolved tt |}.

(** An open issue whose body asks for the agent. *)
Definition askingIssue (n : Z) : ApiIssue :=
  {| ai_number := n; ai_pull_request := false; ai_body := Some "@agent please fix";
     ai_userLogin := Some "carol" |}.

(** One cycle on alice/proj: issue 7 is listed as updated and asks for the
    agent; no comments, no pull requests. *)
Definition triggerCycle : RepoConfig → RepoWorld :=
  λ _, {| dateNow := 1000;
          issuesSince := Resolved [askingIssue 7];
          scannedAt := 1001;
          openIssues := Resolved [(askingIssue 7, Resolved [])];
          pulls := Resolved [] |}.

Definition hookRepo : HookRepository :=
  {| hr_ownerLogin := "alice"; hr_name := "proj" |}.

Definition hookIssue7 : HookIssue :=
  {| hi_id := 70007; hi_number := 7; hi_title := "Crash on start";
     hi_body := Some "It crashes";
     hi_html_url := "https://github.com/alice/proj/issues/7";
     hi_userLogin := "carol" |}.

(** A second configured repository with a phrase of its own. *)
Definition repoBob : RepoConfig :=
  {| rc_owner := "bob"; rc_name := "tools"; triggerComment := "@helper";
     enabled := true; promptTemplate := None |}.

(** A comment that uses the phrase of bob/tools. *)
Definition helperComment : HookComment :=
  {| hc_id := 900; hc_body := "@Helper take this one"; hc_userLogin := "carol" |}.

(** A comment by a GitHub app that uses the phrase of alice/proj. *)
Definition appComment : HookComment :=
  {| hc_id := 901; hc_body := "@agent rebase"; hc_userLogin := "dependabot[bot]" |}.

(** A stand-in for the keyed hash of the server. *)
Definition toyHmac : string → string := λ _, "00ff".

(** A closure delivery for pull request 5 with a signature of the right
    length that is not the digest. *)
Definition forged : Request :=
  {| signatureHeader := Some "sha256=beef";
     rawBody := "{}";
     parsedBody := Resolved (PullRequestEvent "closed" 5 hookRepo) |}.

Definition commentReview : HookReview :=
  {| hv_id := 40; hv_userLogin := "erin"; hv_state := "COMMENTED";
     hv_body := Some "Looks fine so far"; hv_submitted_at := 6000 |}.

(** The orchestrator's handlers in a world where every call succeeds. *)
Definition calmHandlers : PollerHandlers Polling.Core := Polling.handlers (λ _, calm).

(** A poller that has seen nothing yet, on an empty registry. *)
Definition pollingIdle : Sys Polling.Core := mkSys (GitHubPoller.new 0) idleCore [].

(** A comment that asks for the agent. *)
Definition askingComment (id : Z) : ApiComment :=
  {| ac_id := id; ac_userLogin := Some "carol"; ac_body := Some "@agent go" |}.

Definition requestingReview (id : Z) : ApiReview :=
  {| ar_id := id; ar_userLogin := Some "erin"; ar_state := "CHANGES_REQUESTED";
     ar_body := Some "Please add a test"; ar_submitted_at := 5000 |}.

(** A closed pull request on a branch the agent did not create. *)
Definition pr3foreign : ApiPull :=
  {| ap_number := 3; ap_headRef := "feature/login"; ap_state := "closed" |}.

(** erin requests changes; nobody has approved. *)
Definition erinWantsChanges : Agent.PRReview :=
  {| Agent.review_state := "CHANGES_REQUESTED"; Agent.review_userLogin := Some "erin";
     Agent.review_body := "Please add a test" |}.

(** A turn in which the listing holds erin's review and Claude Code
    handles the feedback. *)
Definition sameReviewAgain : Agent.Turn :=
  {| Agent.reviews := [erinWantsChanges]; Agent.handled := true |}.

(** GitHub refuses every comment. *)
Definition commentsRefused : World :=
  {| clock := 4000;
     postIssueComment := λ _ _ _ _, Rejected "Error: Failed to post comment: Not Found";
     startAgentContainer := λ _, Resolved "c1";
     removeContainer := λ _, Resolved tt |}.

(** A unit of bob/tools#7 that carries pull request 5. *)
Definition bobUnit : ActiveIssue :=
  {| repoOwner := JStr "bob"; repoName := JStr "tools"; issueNumber := JNum 7;
     issueTitle := JStr "Flaky test"; issueBody := JStr "@helper look";
     containerId := "c9"; containerName := "agent-bob-tools-issue-7";
     status := pr_created; branchName := "ai-agent-issue-7-5";
     prNumber := Some 5; startedAt := 0; lastHeartbeat := None; error := None |}.

Definition onlyBob : StateManager.t := registerIssue bobUnit (StateManager.new 2).


End Samples.

(** * Properties *)

(** ** The insertion-ordered map *)

Section JsMapFacts.
Context {V : Type}.
Implicit Types (m : JsMap.t V) (k : string) (v : V).

Lemma get_set_eq k v m : JsMap.get k (JsMap.set k v m) = Some v.
Proof.
  induction m as [|[k' v'] m IH]; simpl.
  - by rewrite decide_True.
  - destruct (decide (k = k')) as [->|Hne]; simpl.
    + by rewrite decide_True.
    + by rewrite decide_False.
Qed.

Lemma get_set_ne k k' v m : k ≠ k' → JsMap.get k' (JsMap.set k v m) = JsMap.get k' m.
Proof.
  intros Hne. induction m as [|[k0 v0] m IH]; simpl.
  - rewrite decide_False; [done|congruence].
  - destruct (decide (k = k0)) as [->|Hk]; simpl.
    + rewrite !decide_False; congruence.
    + destruct (decide (k' = k0)); done.
Qed.

Lemma get_None_keys k m : JsMap.get k m = None ↔ k ∉ JsMap.keys m.
Proof.
  unfold JsMap.keys. induction m as [|[k' v'] m IH]; simpl.
  - split; [intros _; apply not_elem_of_nil | done].
  - destruct (decide (k = k')) as [->|Hne].
    + split; [done|]. intros Hn. exfalso. apply Hn. left.
    + rewrite IH. rewrite not_elem_of_cons. tauto.
Qed.

Lemma get_Some_elem k v m : JsMap.get k m = Some v → (k, v) ∈ m.
Proof.
  induction m as [|[k' v'] m IH]; simpl; [done|].
  destruct (decide (k = k')) as [->|Hne].
  - intros [= ->]. left.
  - intros Hg. right. by apply IH.
Qed.

Lemma elem_get k v m : JsMap.wf m → (k, v) ∈ m → JsMap.get k m = Some v.
Proof.
  unfold JsMap.wf, JsMap.keys. induction m as [|[k' v'] m IH]; simpl.
  - intros _ Hin. by apply elem_of_nil in Hin.
  - intros Hnd Hin. apply NoDup_cons in Hnd as [Hk Hnd].
    apply elem_of_cons in Hin as [[= -> ->]|Hin].
    + by rewrite decide_True.
    + destruct (decide (k = k')) as [->|Hne]; [|by apply IH].
      exfalso. apply Hk. apply list_elem_of_fmap. by exists (k', v).
Qed.

Lemma keys_set_present k v m :
  k ∈ JsMap.keys m → JsMap.keys (JsMap.set k v m) = JsMap.keys m.
Proof.
  unfold JsMap.keys. induction m as [|[k' v'] m IH]; simpl.
  - intros Hin. by apply elem_of_nil in Hin.
  - intros Hin. destruct (decide (k = k')) as [->|Hne]; simpl; [done|].
    f_equal. apply IH. apply elem_of_cons in Hin as [?|?]; [done|done].
Qed.

Lemma keys_set_absent k v m :
  k ∉ JsMap.keys m → JsMap.keys (JsMap.set k v m) = JsMap.keys m ++ [k].
Proof.
  unfold JsMap.keys. induction m as [|[k' v'] m IH]; simpl; [done|].
  intros Hn. apply not_elem_of_cons in Hn as [Hne Hn].
  rewrite decide_False; [|done]. simpl. f_equal. by apply IH.
Qed.

Lemma wf_set k v m : JsMap.wf m → JsMap.wf (JsMap.set k v m).
Proof.
  unfold JsMap.wf. intros Hnd.
  destruct (decide (k ∈ JsMap.keys m)) as [Hin|Hn].
  - by rewrite keys_set_present.
  - rewrite keys_set_absent; [|done].
    apply NoDup_app. split; [done|]. split.
    + intros x Hx Hx'. apply list_elem_of_singleton in Hx'. by subst.
    + apply NoDup_singleton.
Qed.

Lemma size_set_present k v m :
  k ∈ JsMap.keys m → JsMap.size (JsMap.set k v m) = JsMap.size m.
Proof.
  intros Hin. unfold JsMap.size. f_equal.
  rewrite <- !(length_fmap fst). fold (JsMap.keys (JsMap.set k v m)).
  fold (JsMap.keys m). by rewrite keys_set_present.
Qed.

Lemma size_set_absent k v m :
  k ∉ JsMap.keys m → JsMap.size (JsMap.set k v m) = JsMap.size m + 1.
Proof.
  intros Hn. unfold JsMap.size.
  rewrite <- !(length_fmap fst). fold (JsMap.keys (JsMap.set k v m)).
  fold (JsMap.keys m). rewrite keys_set_absent; [|done].
  rewrite length_app. simpl. lia.
Qed.


Lemma size_nonneg m : 0 ≤ JsMap.size m.
Proof. unfold JsMap.size. lia. Qed.

Lemma keys_update k f m : JsMap.keys (JsMap.update k f m) = JsMap.keys m.
Proof.
  unfold JsMap.keys. induction m as [|[k' v'] m IH]; simpl; [done|].
  destruct (decide (k = k')); simpl; [done|]. by f_equal.
Qed.

Lemma size_update k f m : JsMap.size (JsMap.update k f m) = JsMap.size m.
Proof.
  unfold JsMap.size. f_equal.
  rewrite <- !(length_fmap fst). fold (JsMap.keys (JsMap.update k f m)).
  by rewrite keys_update.
Qed.

Lemma get_update k k' f m :
  JsMap.get k' (JsMap.update k f m) =
  if decide (k = k') then f <$> JsMap.get k m else JsMap.get k' m.
Proof.
  induction m as [|[k0 v0] m IH]; simpl.
  - by destruct (decide (k = k')).
  - destruct (decide (k = k0)) as [->|Hk]; simpl.
    + repeat case_decide; simplify_eq; done.
    + rewrite IH. repeat case_decide; simplify_eq; done.
Qed.

Lemma elem_update k f m kv :
  kv ∈ JsMap.update k f m → ∃ v, (kv.1, v) ∈ m ∧ (kv.2 = v ∨ kv.2 = f v).
Proof.
  induction m as [|[k0 v0] m IH]; simpl.
  - intros Hin. by apply elem_of_nil in Hin.
  - destruct (decide (k = k0)) as [->|Hk].
    + intros [->|Hin]%elem_of_cons.
      * exists v0. split; [left|by right].
      * destruct kv as [k1 v1]. exists v1. split; [by right|by left].
    + intros [->|Hin]%elem_of_cons.
      * exists v0. split; [left|by left].
      * destruct (IH Hin) as (v & Hv & Hor). exists v. split; [by right|done].
Qed.

Lemma keys_delete_sub k m x : x ∈ JsMap.keys (JsMap.delete k m) → x ∈ JsMap.keys m.
Proof.
  unfold JsMap.keys. induction m as [|[k' v'] m IH]; simpl; [done|].
  destruct (decide (k = k')) as [->|Hne]; simpl.
  - intros Hx. by right.
  - intros [->|Hx]%elem_of_cons; [left|right; by apply IH].
Qed.

Lemma wf_delete k m : JsMap.wf m → JsMap.wf (JsMap.delete k m).
Proof.
  unfold JsMap.wf. induction m as [|[k' v'] m IH]; simpl; [done|].
  intros [Hk Hnd]%NoDup_cons.
  destruct (decide (k = k')) as [->|Hne]; simpl; [done|].
  apply NoDup_cons. split; [|by apply IH].
  intros Hx. apply Hk. by apply keys_delete_sub in Hx.
Qed.

Lemma elem_delete k m kv : kv ∈ JsMap.delete k m → kv ∈ m.
Proof.
  induction m as [|[k' v'] m IH]; simpl; [done|].
  destruct (decide (k = k')) as [->|Hne].
  - intros Hx. by right.
  - intros [->|Hx]%elem_of_cons; [left|right; by apply IH].
Qed.


Lemma size_delete_present k m :
  k ∈ JsMap.keys m → JsMap.size (JsMap.delete k m) = JsMap.size m - 1.
Proof.
  unfold JsMap.size, JsMap.keys. induction m as [|[k' v'] m IH]; simpl.
  - intros Hin. by apply elem_of_nil in Hin.
  - destruct (decide (k = k')) as [->|Hne]; simpl; [lia|].
    intros [?|Hin]%elem_of_cons; [done|]. specialize (IH Hin). lia.
Qed.

Lemma get_delete_eq k m : JsMap.wf m → JsMap.get k (JsMap.delete k m) = None.
Proof.
  unfold JsMap.wf, JsMap.keys. induction m as [|[k' v'] m IH]; simpl; [done|].
  intros [Hk Hnd]%NoDup_cons.
  destruct (decide (k = k')) as [->|Hne]; simpl.
  - by apply get_None_keys.
  - rewrite decide_False; [|done]. by apply IH.
Qed.


End JsMapFacts.

Lemma elem_set {V : Type} (k : string) (v : V) (m : JsMap.t V) (kv : string * V) :
  kv ∈ JsMap.set k v m → kv = (k, v) ∨ kv ∈ m.
Proof.
  induction m as [|[k' v'] m IH]; simpl.
  - intros Hin. left. by apply list_elem_of_singleton in Hin.
  - destruct (decide (k = k')) as [->|Hne].
    + intros [->|Hin]%elem_of_cons; [by left|right; by right].
    + intros [->|Hin]%elem_of_cons; [right; left|].
      destruct (IH Hin) as [->|Hm]; [by left|right; by right].
Qed.

(** ** Strings *)

Lemma length_toLowerCase (s : string) :
  String.length (toLowerCase s) = String.length s.
Proof. induction s as [|c s IH]; simpl; [done|by rewrite IH]. Qed.

Lemma append_inj_length (s1 s2 t1 t2 : string) :
  String.length s1 = String.length s2 →
  s1 +:+ t1 = s2 +:+ t2 → s1 = s2 ∧ t1 = t2.
Proof.
  revert s2. induction s1 as [|c s1 IH]; intros [|c' s2]; simpl; try done.
  intros [= Hlen] [= -> Happ]. destruct (IH _ Hlen Happ) as [-> ->]. done.
Qed.

Lemma append_nonempty_r (s t : string) : t ≠ "" → s +:+ t ≠ "".
Proof. destruct s; simpl; [done|discriminate]. Qed.

(** ** The registry *)

Section RegistryFacts.
Import StateManager Orchestrator Props.
Implicit Types (sm : StateManager.t) (issue : ActiveIssue).

Lemma touch_status_keeps now st err : keeps_key (touch_status now st err).
Proof. by intros []. Qed.

Lemma assign_pr_keeps pr : keeps_key (assign_pr pr).
Proof. by intros []. Qed.

Lemma wf_new maxC : registry_wf (StateManager.new maxC).
Proof.
  split; [apply NoDup_nil_2|]. intros k issue Hin. by apply elem_of_nil in Hin.
Qed.

Lemma wf_registerIssue issue sm : registry_wf sm → registry_wf (registerIssue issue sm).
Proof.
  intros [Hnd Hkey]. split; simpl.
  - by apply wf_set.
  - intros k i [[= -> ->]|Hin]%elem_set; [done|by apply Hkey].
Qed.

Lemma wf_update_keeps k f sm :
  keeps_key f → registry_wf sm →
  registry_wf (with_issues sm (JsMap.update k f (activeIssues sm))).
Proof.
  intros Hf [Hnd Hkey]. split; simpl.
  - unfold JsMap.wf. by rewrite keys_update.
  - intros k' i Hin. apply elem_update in Hin as (v & Hv & [Heq|Heq]); simpl in *.
    + subst. by apply Hkey.
    + subst. rewrite (Hkey _ _ Hv). symmetry. apply Hf.
Qed.

Lemma wf_updateIssueStatus now o r n st err sm :
  registry_wf sm → registry_wf (updateIssueStatus now o r n st err sm).
Proof.
  intros Hwf. unfold updateIssueStatus. destruct (getIssue o r n sm); [|done].
  apply wf_update_keeps; [apply touch_status_keeps|done].
Qed.

Lemma wf_setPRNumber o r n pr sm : registry_wf sm → registry_wf (setPRNumber o r n pr sm).
Proof.
  intros Hwf. unfold setPRNumber. destruct (getIssue o r n sm); [|done].
  apply wf_update_keeps; [apply assign_pr_keeps|done].
Qed.

Lemma wf_removeIssue o r n sm : registry_wf sm → registry_wf (removeIssue o r n sm).
Proof.
  intros [Hnd Hkey]. split; simpl.
  - by apply wf_delete.
  - intros k i Hin. apply Hkey. by apply elem_delete in Hin.
Qed.

(** Sizes: only [registerIssue] can add an entry, and it adds at most one. *)

Lemma size_updateIssueStatus now o r n st err sm :
  JsMap.size (activeIssues (updateIssueStatus now o r n st err sm)) =
  JsMap.size (activeIssues sm).
Proof.
  unfold updateIssueStatus. destruct (getIssue o r n sm); [|done].
  simpl. apply size_update.
Qed.

Lemma size_setPRNumber o r n pr sm :
  JsMap.size (activeIssues (setPRNumber o r n pr sm)) = JsMap.size (activeIssues sm).
Proof.
  unfold setPRNumber. destruct (getIssue o r n sm); [|done].
  simpl. apply size_update.
Qed.

Lemma max_updateIssueStatus now o r n st err sm :
  maxConcurrent (updateIssueStatus now o r n st err sm) = maxConcurrent sm.
Proof. unfold updateIssueStatus. by destruct (getIssue o r n sm). Qed.


Lemma canStartNew_spec sm :
  canStartNew sm = true ↔ JsMap.size (activeIssues sm) < maxConcurrent sm.
Proof. unfold canStartNew. apply Z.ltb_lt. Qed.

Lemma isIssueActive_spec o r n sm :
  isIssueActive o r n sm = true ↔
  ∃ issue, JsMap.get (getIssueKey o r n) (activeIssues sm) = Some issue.
Proof.
  unfold isIssueActive, getIssue. rewrite bool_decide_eq_true.
  destruct (JsMap.get _ _) as [i|]; split; try done.
  - intros _. by exists i.
  - by intros [? ?].
Qed.

(** What [updateIssueStatus] stores. *)
Lemma getIssue_updateIssueStatus now o r n st err sm issue :
  getIssue o r n sm = Some issue →
  getIssue o r n (updateIssueStatus now o r n st err sm) =
  Some (touch_status now st err issue).
Proof.
  intros Hg. unfold updateIssueStatus. rewrite Hg. unfold getIssue in *. simpl.
  rewrite get_update, decide_True; [|done]. by rewrite Hg.
Qed.

Lemma get_updateIssueStatus_ne now o r n st err sm k :
  k ≠ getIssueKey o r n →
  JsMap.get k (activeIssues (updateIssueStatus now o r n st err sm)) =
  JsMap.get k (activeIssues sm).
Proof.
  intros Hne. unfold updateIssueStatus. destruct (getIssue o r n sm); [|done].
  simpl. rewrite get_update, decide_False; [done|congruence].
Qed.

End RegistryFacts.

(** ** The health check *)

Section HealthFacts.
Import StateManager Orchestrator Props.
Implicit Types (sm : StateManager.t) (issue : ActiveIssue) (log : list Effect).

Lemma dead_status_test s :
  dead_status s → String.eqb s "exited" || String.eqb s "dead" = true.
Proof. intros [-> | ->]; reflexivity. Qed.

Lemma notifications_app o r n log1 log2 :
  notifications o r n (log1 ++ log2) =
  (notifications o r n log1 + notifications o r n log2)%nat.
Proof. unfold notifications. by rewrite List.filter_app, length_app. Qed.

Lemma notifies_other issue o r n body :
  keyOf issue ≠ getIssueKey o r n →
  notifies o r n
    (PostIssueComment (repoOwner issue) (repoName issue) (issueNumber issue) body) = false.
Proof.
  intros Hne. simpl. apply bool_decide_eq_false. intros (E1 & E2 & E3).
  apply Hne. unfold keyOf. by rewrite E1, E2, E3.
Qed.

Lemma checkStale_get_ne probe sm log x k :
  keyOf x ≠ k →
  JsMap.get k (activeIssues (checkStale probe (sm, log) x).1) =
  JsMap.get k (activeIssues sm).
Proof.
  intros Hne. unfold checkStale.
  destruct (String.eqb _ "exited" || String.eqb _ "dead"); simpl; [|done].
  apply get_updateIssueStatus_ne. by intros ->.
Qed.

Lemma checkStale_notifications_ne probe sm log x o r n :
  keyOf x ≠ getIssueKey o r n →
  notifications o r n (checkStale probe (sm, log) x).2 = notifications o r n log.
Proof.
  intros Hne. unfold checkStale.
  destruct (String.eqb _ "exited" || String.eqb _ "dead"); simpl;
    rewrite notifications_app; unfold notifications at 2; simpl.
  - rewrite bool_decide_eq_false_2; [simpl; lia|].
    intros (E1 & E2 & E3). apply Hne. unfold keyOf. by rewrite E1, E2, E3.
  - lia.
Qed.

Lemma fold_checkStale_ne probe (l : list ActiveIssue) sm log o r n :
  (∀ x, x ∈ l → keyOf x ≠ getIssueKey o r n) →
  JsMap.get (getIssueKey o r n)
    (activeIssues (foldl (checkStale probe) (sm, log) l).1) =
    JsMap.get (getIssueKey o r n) (activeIssues sm)
  ∧ notifications o r n (foldl (checkStale probe) (sm, log) l).2 =
    notifications o r n log.
Proof.
  revert sm log. induction l as [|x l IH]; intros sm log Hall; [done|].
  assert (Hx : keyOf x ≠ getIssueKey o r n) by (apply Hall; left).
  change (foldl (checkStale probe) (sm, log) (x :: l)) with
    (foldl (checkStale probe) (checkStale probe (sm, log) x) l).
  destruct (checkStale probe (sm, log) x) as [sm1 log1] eqn:Hstep.
  destruct (IH sm1 log1) as [Hg Hn].
  { intros y Hy. apply Hall. by right. }
  rewrite Hg, Hn. split.
  - pose proof (checkStale_get_ne probe sm log x _ Hx) as E. by rewrite Hstep in E.
  - pose proof (checkStale_notifications_ne probe sm log x o r n Hx) as E.
    by rewrite Hstep in E.
Qed.

Lemma keyOf_values (m : JsMap.t ActiveIssue) :
  (∀ k issue, (k, issue) ∈ m → k = keyOf issue) →
  keyOf <$> JsMap.values m = JsMap.keys m.
Proof.
  unfold JsMap.values, JsMap.keys. induction m as [|[k v] m IH]; simpl; [done|].
  intros Hkey. f_equal.
  - symmetry. apply Hkey. left.
  - apply IH. intros k' i Hin. apply Hkey. by right.
Qed.

Lemma NoDup_fmap_filter {A B : Type} (f : A → B) (p : A → bool) (l : list A) :
  NoDup (f <$> l) → NoDup (f <$> List.filter p l).
Proof.
  induction l as [|x l IH]; simpl; [done|].
  intros [Hx Hnd]%NoDup_cons. destruct (p x); simpl; [|by apply IH].
  apply NoDup_cons. split; [|by apply IH].
  intros Hin. apply Hx. apply list_elem_of_fmap in Hin as (y & -> & Hy).
  apply list_elem_of_fmap. exists y. split; [done|].
  apply list_elem_of_In. apply list_elem_of_In in Hy.
  by apply List.filter_In in Hy as [? _].
Qed.

Lemma split_by_key (l : list ActiveIssue) issue :
  NoDup (keyOf <$> l) → issue ∈ l →
  ∃ l1 l2, l = l1 ++ issue :: l2
           ∧ (∀ x, x ∈ l1 → keyOf x ≠ keyOf issue)
           ∧ (∀ x, x ∈ l2 → keyOf x ≠ keyOf issue).
Proof.
  intros Hnd Hin. apply list_elem_of_split in Hin as (l1 & l2 & ->).
  exists l1, l2. split; [done|].
  rewrite fmap_app, fmap_cons in Hnd.
  apply NoDup_app in Hnd as (_ & Hdisj & Hnd2).
  apply NoDup_cons in Hnd2 as [Hnot _].
  split.
  - intros x Hx Heq. apply (Hdisj (keyOf x)).
    + apply list_elem_of_fmap. by exists x.
    + rewrite Heq. left.
  - intros x Hx Heq. apply Hnot. rewrite <- Heq.
    apply list_elem_of_fmap. by exists x.
Qed.

Lemma healthCheck_unfold now probe sm :
  run_state (healthCheck now probe sm) =
    (foldl (checkStale probe) (sm, []) (getStaleIssues now defaultHeartbeatTimeoutMs sm)).1
  ∧ run_effects (healthCheck now probe sm) =
    (foldl (checkStale probe) (sm, []) (getStaleIssues now defaultHeartbeatTimeoutMs sm)).2
  ∧ run_threw (healthCheck now probe sm) = false.
Proof. unfold healthCheck. by destruct (foldl _ _ _). Qed.

(** The unit a stale, dead container leaves behind, and the single
    notification posted for it. *)
Lemma healthCheck_forces_error now probe sm issue :
  registry_wf sm →
  JsMap.get (keyOf issue) (activeIssues sm) = Some issue →
  is_stale now defaultHeartbeatTimeoutMs issue = true →
  dead_status (p_status (probe (containerId issue))) →
  JsMap.get (keyOf issue) (activeIssues (run_state (healthCheck now probe sm))) =
    Some (touch_status (p_time (probe (containerId issue))) error_
            (Some (errTerminated (p_status (probe (containerId issue))))) issue)
  ∧ notifications (repoOwner issue) (repoName issue) (issueNumber issue)
      (run_effects (healthCheck now probe sm)) = 1%nat.
Proof.
  intros [Hnd Hkey] Hget Hstale Hdead.
  destruct (healthCheck_unfold now probe sm) as (-> & -> & _).
  unfold getStaleIssues. set (l := List.filter _ _).
  assert (Hin : issue ∈ l).
  { apply list_elem_of_In, List.filter_In. split; [|done].
    apply list_elem_of_In. unfold getAllActive, JsMap.values.
    apply list_elem_of_fmap. exists (keyOf issue, issue). split; [done|].
    by apply get_Some_elem. }
  assert (Hndl : NoDup (keyOf <$> l)).
  { apply NoDup_fmap_filter. unfold getAllActive. by rewrite keyOf_values. }
  destruct (split_by_key l issue Hndl Hin) as (l1 & l2 & -> & H1 & H2).
  rewrite foldl_app.
  destruct (fold_checkStale_ne probe l1 sm []
              (repoOwner issue) (repoName issue) (issueNumber issue) H1) as [Hg1 Hn1].
  destruct (foldl (checkStale probe) (sm, []) l1) as [sm1 log1].
  cbn [fst snd] in Hg1, Hn1.
  change (foldl (checkStale probe) (sm1, log1) (issue :: l2)) with
    (foldl (checkStale probe) (checkStale probe (sm1, log1) issue) l2).
  unfold checkStale at 2 4. rewrite (dead_status_test _ Hdead).
  match goal with
  | |- context [foldl _ (?a, ?b) l2] => set (sm2 := a); set (log2 := b)
  end.
  destruct (fold_checkStale_ne probe l2 sm2 log2
              (repoOwner issue) (repoName issue) (issueNumber issue) H2) as [Hg2 Hn2].
  unfold keyOf. rewrite Hg2, Hn2. subst sm2 log2. split.
  - fold (keyOf issue) in Hg1. rewrite Hget in Hg1.
    change (JsMap.get (getIssueKey ?o ?r ?n) (activeIssues ?s)) with (getIssue o r n s).
    by apply getIssue_updateIssueStatus.
  - rewrite notifications_app, Hn1. unfold notifications. simpl.
    rewrite bool_decide_eq_true_2; [done|done].
Qed.

End HealthFacts.

(** ** Admission *)

Section AdmissionFacts.
Import StateManager Orchestrator Props.
Implicit Types (sm : StateManager.t) (e : Event).

Lemma checkStale_preserves probe acc x :
  maxConcurrent (checkStale probe acc x).1 = maxConcurrent acc.1
  ∧ JsMap.size (activeIssues (checkStale probe acc x).1) = JsMap.size (activeIssues acc.1)
  ∧ (registry_wf acc.1 → registry_wf (checkStale probe acc x).1).
Proof.
  destruct acc as [sm log]. unfold checkStale.
  destruct (String.eqb _ "exited" || String.eqb _ "dead"); simpl; [|done].
  split; [apply max_updateIssueStatus|].
  split; [apply size_updateIssueStatus|apply wf_updateIssueStatus].
Qed.

Lemma fold_checkStale_preserves probe (l : list ActiveIssue) acc :
  maxConcurrent (foldl (checkStale probe) acc l).1 = maxConcurrent acc.1
  ∧ JsMap.size (activeIssues (foldl (checkStale probe) acc l).1) =
    JsMap.size (activeIssues acc.1)
  ∧ (registry_wf acc.1 → registry_wf (foldl (checkStale probe) acc l).1).
Proof.
  revert acc. induction l as [|x l IH]; intros acc; [done|].
  change (foldl (checkStale probe) acc (x :: l)) with
    (foldl (checkStale probe) (checkStale probe acc x) l).
  destruct (IH (checkStale probe acc x)) as (-> & -> & Hwf).
  destruct (checkStale_preserves probe acc x) as (-> & -> & Hwf').
  auto.
Qed.

Lemma handleIssueTriggered_cases w issue commentId sm :
  let r := handleIssueTriggered w issue commentId sm in
  (run_state r = sm ∧ List.existsb startsContainer (run_effects r) = false
   ∧ ∃ body, run_effects r =
       [PostIssueComment (issue_owner issue) (issue_repo issue) (issue_number issue) body])
  ∨ (run_state r = sm
     ∧ isIssueActive (issue_owner issue) (issue_repo issue) (issue_number issue) sm = false
     ∧ canStartNew sm = true)
  ∨ (∃ unit, run_state r = registerIssue unit sm
     ∧ isIssueActive (issue_owner issue) (issue_repo issue) (issue_number issue) sm = false
     ∧ canStartNew sm = true).
Proof.
  unfold handleIssueTriggered.
  destruct (isIssueActive _ _ _ sm) eqn:Hact; simpl.
  { left. eauto. }
  destruct (canStartNew sm) eqn:Hcan; simpl.
  2:{ left. eauto. }
  destruct (postIssueComment w _ _ _ _); simpl.
  - destruct (startAgentContainer w _); simpl.
    + right. right. eauto.
    + right. left. eauto.
  - right. left. eauto.
Qed.



Lemma handle_wf e sm : registry_wf sm → registry_wf (run_state (handle e sm)).
Proof.
  intros Hwf. destruct e as [w issue cid|w o r pr|w o r pr rv|now probe|o r n pr]; simpl.
  - destruct (handleIssueTriggered_cases w issue cid sm)
      as [(-> & _)|[(-> & _)|(unit & -> & _)]]; try done.
    by apply wf_registerIssue.
  - unfold handlePRClosed. destruct (findByPR pr sm); [|done].
    destruct (if String.eqb _ "" then _ else _); [|done].
    by apply wf_removeIssue.
  - unfold handlePRReview. destruct (findByPR pr sm); [|done].
    destruct (String.eqb _ _); [|done]. by apply wf_updateIssueStatus.
  - destruct (healthCheck_unfold now probe sm) as (-> & _).
    by apply fold_checkStale_preserves.
  - by apply wf_setPRNumber.
Qed.

(** Every registry the orchestrator can reach is well formed. *)
Lemma process_wf events sm : registry_wf sm → registry_wf (process events sm).
Proof.
  revert sm. induction events as [|e events IH]; intros sm Hwf; [done|].
  apply IH. by apply handle_wf.
Qed.


End AdmissionFacts.


(** The scenario of the design document with [maxConcurrent = 2]: A and B
    are admitted, C is rejected with queue position 1; once A's pull
    request is closed a new trigger for C's issue is admitted. *)
Example admission_scenario :
  let trigger n :=
    Orchestrator.IssueTriggered Samples.calm
      (Orchestrator.IssueObject
         {| gi_owner := "alice"; gi_repo := "proj"; gi_number := n;
            gi_title := "t"; gi_body := "@agent"; gi_htmlUrl := "u";
            gi_userLogin := "carol" |}) (JNum n) in
  let full := Orchestrator.process [trigger 1; trigger 2] (StateManager.new 2) in
  JsMap.keys (StateManager.activeIssues full) = ["alice/proj#1"; "alice/proj#2"]
  ∧ Orchestrator.run_effects (Orchestrator.handle (trigger 3) full) =
    [Orchestrator.PostIssueComment (JStr "alice") (JStr "proj") (JNum 3)
       (Orchestrator.msgQueueFull 1)]
  ∧ JsMap.keys
      (StateManager.activeIssues
         (Orchestrator.process
            [trigger 3;
             Orchestrator.PRNumberSet (JStr "alice") (JStr "proj") (JNum 1) 10;
             Orchestrator.PRClosed Samples.calm "alice" "proj" 10;
             trigger 3] full))
    = ["alice/proj#2"; "alice/proj#3"].
Proof. vm_compute. repeat split; reflexivity. Qed.

(** ** Duplicate triggers *)

Section DuplicateFacts.
Import StateManager Orchestrator GitHubClient WebhookServer Props.




End DuplicateFacts.


(** What the poller's call leaves in the registry: the owner string has no
    [owner], [repo] or [number] property, so every unit registered this way
    is stored under the same key. *)
Example polled_unit_key :
  JsMap.keys (StateManager.activeIssues Samples.polledOnce) =
  ["undefined/undefined#undefined"].
Proof. reflexivity. Qed.

Example poll_triggers_share_key :
  Orchestrator.handleIssueTriggered Samples.calm
    (Orchestrator.IssueString "bob") (JStr "other") Samples.polledOnce
  = {| Orchestrator.run_state := Samples.polledOnce;
       Orchestrator.run_effects :=
         [Orchestrator.PostIssueComment JUndefined JUndefined JUndefined
            Orchestrator.msgAlreadyHandled];
       Orchestrator.run_threw := false |}.
Proof. reflexivity. Qed.

Example pushed_unit_key :
  JsMap.keys (StateManager.activeIssues Samples.oneUnit) = ["alice/proj#7"].
Proof. reflexivity. Qed.

(** ** Registration *)

Section RegistrationFacts.
Import StateManager Orchestrator Props.

Lemma getIssueKey_case_sensitive (o1 r1 o2 r2 : string) (n : JsVal) :
  toLowerCase o1 = toLowerCase o2 →
  toLowerCase r1 = toLowerCase r2 →
  (o1, r1) ≠ (o2, r2) →
  getIssueKey (JStr o1) (JStr r1) n ≠ getIssueKey (JStr o2) (JStr r2) n.
Proof.
  intros Ho Hr Hne Hkey. unfold getIssueKey in Hkey. simpl in Hkey.
  assert (Hlo : String.length o1 = String.length o2).
  { pose proof (length_toLowerCase o1) as E1. rewrite Ho, length_toLowerCase in E1.
    by symmetry. }
  assert (Hlr : String.length r1 = String.length r2).
  { pose proof (length_toLowerCase r1) as E1. rewrite Hr, length_toLowerCase in E1.
    by symmetry. }
  apply append_inj_length in Hkey as [-> Hrest]; [|done].
  injection Hrest as Hrest.
  destruct (append_inj_length r1 r2 _ _ Hlr Hrest) as [-> _].
  by apply Hne.
Qed.

(** C10: [registerIssue] stores the unit under its composite key whatever
    the registry held: a unit already stored under that key is replaced
    (the number of entries stays the same, every other entry is left
    alone), and two keys that differ only in the letter case of owner or
    repository are different keys holding different entries. *)
Theorem registerIssue_upsert_case_sensitive
    (issue : ActiveIssue) (sm : StateManager.t)
    (o1 r1 o2 r2 : string) (n : JsVal) (i1 i2 : ActiveIssue) :
  toLowerCase o1 = toLowerCase o2 →
  toLowerCase r1 = toLowerCase r2 →
  (o1, r1) ≠ (o2, r2) →
  repoOwner i1 = JStr o1 → repoName i1 = JStr r1 → issueNumber i1 = n →
  repoOwner i2 = JStr o2 → repoName i2 = JStr r2 → issueNumber i2 = n →
  (getIssue (repoOwner issue) (repoName issue) (issueNumber issue)
     (registerIssue issue sm) = Some issue
   ∧ (isIssueActive (repoOwner issue) (repoName issue) (issueNumber issue) sm = true →
      JsMap.size (activeIssues (registerIssue issue sm)) = JsMap.size (activeIssues sm))
   ∧ (isIssueActive (repoOwner issue) (repoName issue) (issueNumber issue) sm = false →
      JsMap.size (activeIssues (registerIssue issue sm)) = JsMap.size (activeIssues sm) + 1)
   ∧ (∀ k, k ≠ keyOf issue →
      JsMap.get k (activeIssues (registerIssue issue sm)) = JsMap.get k (activeIssues sm)))
  ∧ getIssueKey (JStr o1) (JStr r1) n ≠ getIssueKey (JStr o2) (JStr r2) n
  ∧ getIssue (JStr o1) (JStr r1) n (registerIssue i2 (registerIssue i1 sm)) = Some i1
  ∧ getIssue (JStr o2) (JStr r2) n (registerIssue i2 (registerIssue i1 sm)) = Some i2.
Proof.
  intros Ho Hr Hne Ho1 Hr1 Hn1 Ho2 Hr2 Hn2.
  pose proof (getIssueKey_case_sensitive o1 r1 o2 r2 n Ho Hr Hne) as Hkeys.
  split; [|split; [done|split]].
  - split; [|split; [|split]].
    + unfold getIssue, registerIssue. simpl. apply get_set_eq.
    + intros Hact. apply isIssueActive_spec in Hact as [old Hold].
      unfold registerIssue. simpl. apply size_set_present.
      destruct (decide (getIssueKey (repoOwner issue) (repoName issue)
                          (issueNumber issue) ∈ JsMap.keys (activeIssues sm)))
        as [|Hn']; [done|].
      apply get_None_keys in Hn'. congruence.
    + intros Hact. unfold registerIssue. simpl. apply size_set_absent.
      apply get_None_keys. unfold isIssueActive, getIssue in Hact.
      apply bool_decide_eq_false in Hact.
      destruct (JsMap.get _ _); [|done]. exfalso. by apply Hact.
    + intros k Hk. unfold registerIssue. simpl. apply get_set_ne.
      unfold keyOf in Hk. congruence.
  - unfold getIssue, registerIssue. simpl.
    rewrite Ho1, Hr1, Hn1, Ho2, Hr2, Hn2.
    rewrite get_set_ne; [apply get_set_eq|congruence].
  - unfold getIssue, registerIssue. simpl.
    rewrite Ho2, Hr2, Hn2. apply get_set_eq.
Qed.

End RegistrationFacts.

Lemma registerIssue_upsert_case_sensitive_witness :
  StateManager.getIssue (JStr "alice") (JStr "proj") (JNum 7)
    (StateManager.registerIssue Samples.unit7caps
       (StateManager.registerIssue Samples.unit7 Samples.oneUnit)) = Some Samples.unit7
  ∧ StateManager.getIssue (JStr "Alice") (JStr "proj") (JNum 7)
      (StateManager.registerIssue Samples.unit7caps
         (StateManager.registerIssue Samples.unit7 Samples.oneUnit))
    = Some Samples.unit7caps.
Proof.
  apply (registerIssue_upsert_case_sensitive Samples.unit7 Samples.oneUnit
           "alice" "proj" "Alice" "proj" (JNum 7) Samples.unit7 Samples.unit7caps);
    first [reflexivity | discriminate].
Defined.

(** Registering the unit of [alice/proj#7] a second time replaces it; the
    capitalised owner gets an entry of its own. *)
Example register_twice :
  JsMap.keys (StateManager.activeIssues
                (StateManager.registerIssue Samples.unit7pr Samples.oneUnit))
    = ["alice/proj#7"]
  ∧ JsMap.keys (StateManager.activeIssues
                  (StateManager.registerIssue Samples.unit7caps Samples.oneUnit))
    = ["alice/proj#7"; "Alice/proj#7"].
Proof. split; reflexivity. Qed.

(** ** Heartbeats and staleness *)

Section HeartbeatFacts.
Import StateManager Orchestrator Props.

Lemma stored_key o r n sm issue :
  registry_wf sm → getIssue o r n sm = Some issue → keyOf issue = getIssueKey o r n.
Proof.
  intros [_ Hkey] Hget. symmetry. apply Hkey. by apply get_Some_elem.
Qed.

Lemma fresh_heartbeat_not_stale hb later issue :
  lastHeartbeat issue = Some hb →
  (later - hb ≤ 5 * 60 * 1000 → is_stale later defaultHeartbeatTimeoutMs issue = false)
  ∧ (5 * 60 * 1000 < later - hb → is_stale later defaultHeartbeatTimeoutMs issue = true).
Proof.
  intros Hhb. unfold is_stale, defaultHeartbeatTimeoutMs. rewrite Hhb. split; intros H.
  - apply Z.ltb_ge. lia.
  - apply Z.ltb_lt. lia.
Qed.

(** C9: a call of [updateIssueStatus] for a registered key sets the unit's
    [lastHeartbeat] to the time of the call, whatever the status; so a unit
    the health check has just forced to ['error'] is not among the stale
    units again until more than five minutes have passed. *)
Theorem updateIssueStatus_refreshes_heartbeat
    (now : Z) (owner repo number : JsVal) (st : ActiveIssueStatus)
    (err : option string) (sm : StateManager.t) (issue : ActiveIssue) :
  getIssue owner repo number sm = Some issue →
  (∃ issue',
     getIssue owner repo number (updateIssueStatus now owner repo number st err sm)
       = Some issue'
     ∧ lastHeartbeat issue' = Some now
     ∧ status issue' = st
     ∧ (∀ later, later - now ≤ 5 * 60 * 1000 →
          is_stale later defaultHeartbeatTimeoutMs issue' = false)
     ∧ (∀ later, 5 * 60 * 1000 < later - now →
          is_stale later defaultHeartbeatTimeoutMs issue' = true))
  ∧ (∀ tick probe,
       registry_wf sm →
       is_stale tick defaultHeartbeatTimeoutMs issue = true →
       dead_status (p_status (probe (containerId issue))) →
       (∃ issue',
          getIssue owner repo number (run_state (healthCheck tick probe sm)) = Some issue'
          ∧ status issue' = error_
          ∧ lastHeartbeat issue' = Some (p_time (probe (containerId issue))))
       ∧ ∀ later x,
           later - p_time (probe (containerId issue)) ≤ 5 * 60 * 1000 →
           x ∈ getStaleIssues later defaultHeartbeatTimeoutMs
                 (run_state (healthCheck tick probe sm)) →
           keyOf x ≠ keyOf issue).
Proof.
  intros Hget. split.
  - exists (touch_status now st err issue).
    split; [by apply getIssue_updateIssueStatus|].
    split; [done|]. split; [done|].
    split; intros later; by apply (fresh_heartbeat_not_stale now later).
  - intros tick probe Hwf Hstale Hdead.
    pose proof (stored_key _ _ _ _ _ Hwf Hget) as Hk.
    assert (Hget' : JsMap.get (keyOf issue) (activeIssues sm) = Some issue).
    { by rewrite Hk. }
    destruct (healthCheck_forces_error tick probe sm issue Hwf Hget' Hstale Hdead)
      as [Hafter _].
    split.
    + eexists. unfold getIssue. rewrite <- Hk. split; [exact Hafter|done].
    + intros later x Hlater Hx Hkx.
      pose proof (handle_wf (HealthTick tick probe) sm Hwf) as [Hnd' Hkey'].
      simpl in Hnd', Hkey'.
      apply list_elem_of_In, List.filter_In in Hx as [Hx Hsx].
      apply list_elem_of_In in Hx. unfold getAllActive, JsMap.values in Hx.
      apply list_elem_of_fmap in Hx as ([k' x'] & -> & Hin). simpl in *.
      pose proof (Hkey' _ _ Hin) as ->.
      apply (elem_get _ _ _ Hnd') in Hin. unfold keyOf in Hkx. rewrite Hkx in Hin.
      fold (keyOf issue) in Hin. rewrite Hafter in Hin. injection Hin as <-.
      destruct (fresh_heartbeat_not_stale (p_time (probe (containerId issue))) later
                  (touch_status (p_time (probe (containerId issue))) error_
                     (Some (errTerminated (p_status (probe (containerId issue))))) issue)
                  eq_refl) as [Hfresh _].
      rewrite (Hfresh Hlater) in Hsx. done.
Qed.

(** C6: a unit without heartbeat that was started more than ten minutes
    ago and whose container is reported exited or dead is forced to
    ['error'] by the health check, with a non-empty message, and exactly one
    notification is posted on its issue. *)
Theorem stale_dead_unit_forced_to_error
    (now : Z) (probe : string → Probe) (sm : StateManager.t) (issue : ActiveIssue) :
  registry_wf sm →
  JsMap.get (keyOf issue) (activeIssues sm) = Some issue →
  lastHeartbeat issue = None →
  10 * 60 * 1000 < now - startedAt issue →
  dead_status (p_status (probe (containerId issue))) →
  ∃ issue',
    JsMap.get (keyOf issue) (activeIssues (run_state (healthCheck now probe sm)))
      = Some issue'
    ∧ status issue' = error_
    ∧ (∃ msg, error issue' = Some msg ∧ msg ≠ "")
    ∧ notifications (repoOwner issue) (repoName issue) (issueNumber issue)
        (run_effects (healthCheck now probe sm)) = 1%nat.
Proof.
  intros Hwf Hget Hhb Hold Hdead.
  assert (Hstale : is_stale now defaultHeartbeatTimeoutMs issue = true).
  { unfold is_stale. rewrite Hhb. by apply Z.ltb_lt. }
  destruct (healthCheck_forces_error now probe sm issue Hwf Hget Hstale Hdead)
    as [Hafter Hcount].
  eexists. split; [exact Hafter|]. split; [done|]. split; [|done].
  eexists. split; [reflexivity|]. discriminate.
Qed.

End HeartbeatFacts.

Lemma updateIssueStatus_refreshes_heartbeat_witness :
  ∃ issue',
    StateManager.getIssue (JStr "alice") (JStr "proj") (JNum 7)
      (StateManager.updateIssueStatus 5000 (JStr "alice") (JStr "proj") (JNum 7)
         error_ (Some "boom") Samples.oneUnit) = Some issue'
    ∧ lastHeartbeat issue' = Some 5000
    ∧ status issue' = error_
    ∧ (∀ later, later - 5000 ≤ 5 * 60 * 1000 →
         StateManager.is_stale later StateManager.defaultHeartbeatTimeoutMs issue' = false)
    ∧ (∀ later, 5 * 60 * 1000 < later - 5000 →
         StateManager.is_stale later StateManager.defaultHeartbeatTimeoutMs issue' = true).
Proof.
  apply (updateIssueStatus_refreshes_heartbeat 5000 (JStr "alice") (JStr "proj") (JNum 7)
           error_ (Some "boom") Samples.oneUnit Samples.unit7).
  reflexivity.
Defined.

Lemma oneUnit_wf : Props.registry_wf Samples.oneUnit.
Proof. apply wf_registerIssue, wf_new. Defined.

Lemma stale_dead_unit_forced_to_error_witness :
  ∃ issue',
    JsMap.get "alice/proj#7"
      (StateManager.activeIssues
         (Orchestrator.run_state
            (Orchestrator.healthCheck Samples.elevenMinutes
               (Samples.allExited (Samples.elevenMinutes + 1)) Samples.oneUnit)))
      = Some issue'
    ∧ status issue' = error_
    ∧ (∃ msg, error issue' = Some msg ∧ msg ≠ "")
    ∧ Props.notifications (JStr "alice") (JStr "proj") (JNum 7)
        (Orchestrator.run_effects
           (Orchestrator.healthCheck Samples.elevenMinutes
              (Samples.allExited (Samples.elevenMinutes + 1)) Samples.oneUnit)) = 1%nat.
Proof.
  apply (stale_dead_unit_forced_to_error Samples.elevenMinutes
           (Samples.allExited (Samples.elevenMinutes + 1)) Samples.oneUnit Samples.unit7).
  - exact oneUnit_wf.
  - reflexivity.
  - reflexivity.
  - vm_compute. reflexivity.
  - left. reflexivity.
Defined.

(** The scenario of the design document, evaluated. *)
Example health_check_scenario :
  Orchestrator.run_effects
    (Orchestrator.healthCheck Samples.elevenMinutes
       (Samples.allExited (Samples.elevenMinutes + 1)) Samples.oneUnit)
  = [Orchestrator.GetContainerStatus "c1";
     Orchestrator.GetLogs "c1" 50;
     Orchestrator.PostIssueComment (JStr "alice") (JStr "proj") (JNum 7)
       (Orchestrator.msgContainerStopped "exited")]
  ∧ (status <$> StateManager.getIssue (JStr "alice") (JStr "proj") (JNum 7)
       (Orchestrator.run_state
          (Orchestrator.healthCheck Samples.elevenMinutes
             (Samples.allExited (Samples.elevenMinutes + 1)) Samples.oneUnit)))
    = Some error_.
Proof. split; reflexivity. Qed.

(** ** The status route *)

(** C5: what [POST /api/status] does with an update for a registered
    container: the unit keeps its status and stays without heartbeat, where
    [updateIssueByContainerId] with the same update would set both.  An
    update is acknowledged whatever its container id. *)
Theorem postApiStatus_leaves_registry :
  (∀ update sm, WebhookServer.postApiStatus update sm = (sm, WebhookServer.Received))
  ∧ StateManager.getIssueByContainerId "c1"
      (WebhookServer.postApiStatus Samples.developingUpdate Samples.oneUnit).1
    = Some Samples.unit7
  ∧ status Samples.unit7 = starting
  ∧ lastHeartbeat Samples.unit7 = None
  ∧ (∃ issue',
       StateManager.getIssueByContainerId "c1"
         (StateManager.updateIssueByContainerId 5000 "c1"
            (Samples.assignStatus developing) Samples.oneUnit) = Some issue'
       ∧ status issue' = developing
       ∧ lastHeartbeat issue' = Some 5000).
Proof.
  split; [done|]. split; [reflexivity|]. split; [done|]. split; [done|].
  eexists. split; [reflexivity|]. done.
Qed.

(** ** The poller *)

Section PollerFacts.
Import GitHubPoller Props.
Context {St : Type} (hs : PollerHandlers St).
Implicit Types (s : Sys St) (repo : RepoConfig).

Lemma closures_app o r n (t1 t2 : list Action) :
  closures o r n (t1 ++ t2) = (closures o r n t1 + closures o r n t2)%nat.
Proof. unfold closures. by rewrite List.filter_app, length_app. Qed.

Lemma closures_noClosure o r n (t : list Action) :
  Forall (λ a, noClosure a = true) t → closures o r n t = 0%nat.
Proof.
  unfold closures. induction 1 as [|a t Ha _ IH]; [done|]. simpl.
  destruct a; simpl in *; try done.
Qed.

Lemma quiet_refl s : quiet s s.
Proof. split; [done|]. exists []. by rewrite app_nil_r. Qed.

Lemma quiet_trans s1 s2 s3 : quiet s1 s2 → quiet s2 s3 → quiet s1 s3.
Proof.
  intros [Hp1 (a1 & Ht1 & Hf1)] [Hp2 (a2 & Ht2 & Hf2)]. split; [congruence|].
  exists (a1 ++ a2). rewrite Ht2, Ht1, app_assoc. split; [done|].
  by apply Forall_app.
Qed.

Lemma quiet_log a s : noClosure a = true → quiet s (log a s).
Proof. intros Ha. split; [done|]. exists [a]. split; [done|]. by constructor. Qed.

Lemma quiet_emitTrigger repo n s : quiet s (emitTrigger hs repo n s).1.
Proof.
  unfold emitTrigger. destruct (onIssueTriggered _ _ _ _ _ _) as [h ok]. simpl.
  split; [done|]. eexists. split; [done|]. by constructor.
Qed.

Lemma quiet_emitReview repo n rv s : quiet s (emitReview hs repo n rv s).1.
Proof.
  unfold emitReview. destruct (onPRReview _ _ _ _ _ _) as [h ok]. simpl.
  split; [done|]. eexists. split; [done|]. by constructor.
Qed.

Lemma quiet_scanReviews repo pr lastId reviews s :
  quiet s (scanReviews hs repo pr lastId reviews s).1.
Proof.
  revert s. induction reviews as [|rv reviews IH]; intros s; simpl; [apply quiet_refl|].
  destruct (ar_id rv <=? lastId); [apply IH|].
  destruct (isBotUser _); [apply IH|].
  destruct (_ || _); [|apply IH].
  pose proof (quiet_emitReview repo pr (reviewEvent rv) s) as Hq.
  destruct (emitReview hs repo pr (reviewEvent rv) s) as [s1 ok]. simpl in Hq.
  destruct ok; simpl; [|done]. eapply quiet_trans; [exact Hq|apply IH].
Qed.

Lemma quiet_scanComments repo n lastId comments s :
  quiet s (scanComments hs repo n lastId comments s).1.
Proof.
  revert s. induction comments as [|c comments IH]; intros s; simpl; [apply quiet_refl|].
  destruct (ac_id c <=? lastId); [apply IH|].
  destruct (isBotUser _); [apply IH|].
  destruct (isTriggerComment _ _); [|apply IH].
  pose proof (quiet_emitTrigger repo n s) as Hq.
  destruct (emitTrigger hs repo n s) as [s1 ok]. simpl in Hq.
  destruct ok; simpl; [|done]. eapply quiet_trans; [exact Hq|apply IH].
Qed.

(** What [pollPRReviews] does to the poller: nothing, or one entry of
    [knownReviews] set to the maximum id of a batch that was listed and
    processed to the end. *)
Lemma pollPRReviews_spec repo pr response s :
  (poller (pollPRReviews hs repo pr response s) = poller s
   ∨ ∃ r rs,
       response = Resolved (r :: rs)
       ∧ (scanReviews hs repo (ap_number pr)
            (getOr (knownReviews (poller s) !! prKeyOf repo (ap_number pr)) 0)
            (r :: rs) (reviewsRequested repo (ap_number pr) s)).2 = true
       ∧ poller (pollPRReviews hs repo pr response s) =
         set_knownReviews (prKeyOf repo (ap_number pr))
           (max_list (ar_id r) (ar_id <$> rs)) (poller s))
  ∧ ∃ added,
      trace (pollPRReviews hs repo pr response s) = trace s ++ added
      ∧ Forall (λ a, noClosure a = true) added.
Proof.
  unfold pollPRReviews.
  assert (Hq0 : quiet s (reviewsRequested repo (ap_number pr) s)) by by apply quiet_log.
  destruct response as [reviews|err].
  2:{ split; [by left|]. apply Hq0. }
  pose proof (quiet_scanReviews repo (ap_number pr)
                (getOr (knownReviews (poller s) !! prKeyOf repo (ap_number pr)) 0)
                reviews (reviewsRequested repo (ap_number pr) s)) as Hq1.
  destruct (scanReviews _ _ _ _ reviews _) as [s1 ok] eqn:Hscan. simpl in Hq1.
  pose proof (quiet_trans _ _ _ Hq0 Hq1) as [Hp Htr].
  destruct ok.
  - destruct reviews as [|r rs].
    + split; [by left|done].
    + split; [|done]. right. exists r, rs. rewrite Hscan. simpl. by rewrite Hp.
  - split; [by left|done].
Qed.

End PollerFacts.

Section PullFacts.
Import GitHubPoller Props.
Context {St : Type} (hs : PollerHandlers St).
Implicit Types (s : Sys St) (repo : RepoConfig).

Lemma append_inj_l (a s t : string) : a +:+ s = a +:+ t → s = t.
Proof. induction a as [|c a IH]; simpl; [done|]. intros [= E]. by apply IH. Qed.

Lemma prKeyOf_inj repo n n' : prKeyOf repo n = prKeyOf repo n' → n = n'.
Proof.
  unfold prKeyOf. intros E. apply append_inj_l in E. simpl in E.
  injection E as E. by apply pretty_Z_inj in E.
Qed.

Lemma same_for_refl repo n s : same_for repo n s s.
Proof. done. Qed.

Lemma same_for_trans repo n s1 s2 s3 :
  same_for repo n s1 s2 → same_for repo n s2 s3 → same_for repo n s1 s3.
Proof.
  intros (Ha & Hb & Hc) (Ha' & Hb' & Hc'). split; [|split].
  - by rewrite Ha'.
  - by rewrite Hb'.
  - by rewrite Hc'.
Qed.

Lemma pollPRReviews_same_for repo n pr response s :
  ap_number pr ≠ n → same_for repo n s (pollPRReviews hs repo pr response s).
Proof.
  intros Hne.
  destruct (pollPRReviews_spec hs repo pr response s) as [Hp (added & Ht & Hf)].
  assert (Hk : prKeyOf repo (ap_number pr) ≠ prKeyOf repo n).
  { intros E. by apply prKeyOf_inj in E. }
  split; [|split].
  - destruct Hp as [-> | (r & rs & _ & _ & ->)]; done.
  - destruct Hp as [-> | (r & rs & _ & _ & ->)]; [done|]. simpl.
    by rewrite lookup_insert_ne.
  - rewrite Ht, closures_app, (closures_noClosure _ _ _ added Hf). lia.
Qed.

Lemma pollPRReviews_own repo pr response s :
  (prKeyOf repo (ap_number pr) ∈ knownPRs (poller (pollPRReviews hs repo pr response s))
   ↔ prKeyOf repo (ap_number pr) ∈ knownPRs (poller s))
  ∧ closures (rc_owner repo) (rc_name repo) (ap_number pr)
      (trace (pollPRReviews hs repo pr response s)) =
    closures (rc_owner repo) (rc_name repo) (ap_number pr) (trace s).
Proof.
  destruct (pollPRReviews_spec hs repo pr response s) as [Hp (added & Ht & Hf)].
  split.
  - destruct Hp as [-> | (r & rs & _ & _ & ->)]; done.
  - rewrite Ht, closures_app, (closures_noClosure _ _ _ added Hf). lia.
Qed.

Lemma emitClosed_spec repo n s :
  poller (emitClosed hs repo n s).1 = poller s
  ∧ trace (emitClosed hs repo n s).1 =
    trace s ++ [PRClosedCall (rc_owner repo) (rc_name repo) n]
  ∧ (emitClosed hs repo n s).2 = (onPRClosed hs (rc_owner repo) (rc_name repo) n (hstate s)).2.
Proof. unfold emitClosed. by destruct (onPRClosed _ _ _ _ _). Qed.

(** One iteration of the loop of [pollOurPRs] on another pull request. *)
Lemma scanPulls_same_for repo n pulls s :
  (∀ x, x ∈ pulls → ap_number x.1 ≠ n) →
  same_for repo n s (scanPulls hs repo pulls s).1.
Proof.
  revert s. induction pulls as [|[pr resp] pulls IH]; intros s Hall; simpl.
  { apply same_for_refl. }
  assert (Hne : ap_number pr ≠ n) by (apply (Hall (pr, resp)); left).
  assert (Hrest : ∀ x, x ∈ pulls → ap_number x.1 ≠ n).
  { intros x Hx. apply Hall. by right. }
  assert (Hk : prKeyOf repo (ap_number pr) ≠ prKeyOf repo n).
  { intros E. by apply prKeyOf_inj in E. }
  destruct (negb _); [by apply IH|].
  set (s1 := with_poller s _).
  assert (H1 : same_for repo n s s1).
  { split; [|done]. subst s1. simpl. rewrite elem_of_union, elem_of_singleton.
    split; [intros [E|E]; [congruence|done]|by right]. }
  pose proof (pollPRReviews_same_for repo n pr resp s1 Hne) as H2.
  set (s2 := pollPRReviews hs repo pr resp s1) in *.
  pose proof (same_for_trans _ _ _ _ _ H1 H2) as H12.
  destruct (String.eqb _ "closed").
  - destruct (emitClosed_spec repo (ap_number pr) s2) as (Hp & Ht & _).
    destruct (emitClosed hs repo (ap_number pr) s2) as [s3 ok]. simpl in Hp, Ht.
    assert (H3 : same_for repo n s2 s3).
    { split; [by rewrite Hp|]. split; [by rewrite Hp|].
      rewrite Ht, closures_app. unfold closures at 2. simpl.
      rewrite bool_decide_eq_false_2; [simpl; lia|]. by intros (_ & _ & ?). }
    destruct ok; simpl.
    + eapply same_for_trans; [|apply IH; done].
      eapply same_for_trans; [exact H12|]. eapply same_for_trans; [exact H3|].
      split; [|split]; simpl; [| |done].
      * rewrite elem_of_difference, elem_of_singleton.
        split; [by intros [E _]|]. intros E. split; [done|congruence].
      * by rewrite lookup_delete_ne.
    + eapply same_for_trans; [exact H12|exact H3].
  - eapply same_for_trans; [exact H12|by apply IH].
Qed.

Lemma scanPulls_app repo l1 l2 s :
  scanPulls hs repo (l1 ++ l2) s =
  if (scanPulls hs repo l1 s).2 then scanPulls hs repo l2 (scanPulls hs repo l1 s).1
  else scanPulls hs repo l1 s.
Proof.
  revert s. induction l1 as [|[pr resp] l1 IH]; intros s; simpl; [done|].
  destruct (negb _); [apply IH|].
  destruct (String.eqb _ "closed"); [|apply IH].
  destruct (emitClosed _ _ _ _) as [s3 ok]. destruct ok; [apply IH|done].
Qed.

Lemma scanPulls_completes repo pulls s :
  closes_quietly hs → (scanPulls hs repo pulls s).2 = true.
Proof.
  intros Hq. revert s. induction pulls as [|[pr resp] pulls IH]; intros s; simpl; [done|].
  destruct (negb _); [apply IH|].
  destruct (String.eqb _ "closed"); [|apply IH].
  destruct (emitClosed_spec repo (ap_number pr)
              (pollPRReviews hs repo pr resp
                 (with_poller s (add_knownPR (prKeyOf repo (ap_number pr)) (poller s)))))
    as (_ & _ & Hok).
  rewrite Hq in Hok.
  destruct (emitClosed _ _ _ _) as [s3 ok]. simpl in Hok. subst ok. apply IH.
Qed.

(** A listed agent pull request that is closed: one closure event, and its
    two entries are gone when the cycle ends. *)
Lemma pollOurPRs_closed repo before after pr reviews s :
  closes_quietly hs →
  startsWith (ap_headRef pr) "ai-agent-issue-" = true →
  ap_state pr = "closed" →
  (∀ x, x ∈ before ++ after → ap_number x.1 ≠ ap_number pr) →
  closures (rc_owner repo) (rc_name repo) (ap_number pr)
    (trace (pollOurPRs hs repo (Resolved (before ++ (pr, reviews) :: after)) s)) =
    S (closures (rc_owner repo) (rc_name repo) (ap_number pr) (trace s))
  ∧ (prKeyOf repo (ap_number pr) ∉
       knownPRs
         (poller (pollOurPRs hs repo (Resolved (before ++ (pr, reviews) :: after)) s)))
  ∧ (knownReviews
       (poller (pollOurPRs hs repo (Resolved (before ++ (pr, reviews) :: after)) s))
       !! prKeyOf repo (ap_number pr)) = None.
Proof.
  intros Hq Href Hclosed Hothers. unfold pollOurPRs.
  set (s0 := log _ s).
  assert (H0 : same_for repo (ap_number pr) s s0).
  { split; [done|]. split; [done|]. subst s0. simpl.
    rewrite closures_app. unfold closures at 2. simpl. lia. }
  rewrite scanPulls_app, scanPulls_completes; [|done].
  assert (Hb : same_for repo (ap_number pr) s0 (scanPulls hs repo before s0).1).
  { apply scanPulls_same_for. intros x Hx. apply Hothers.
    apply elem_of_app. by left. }
  set (s1 := (scanPulls hs repo before s0).1) in *.
  simpl. rewrite Href. simpl. rewrite Hclosed. simpl.
  set (s2 := pollPRReviews hs repo pr reviews _).
  destruct (pollPRReviews_own repo pr reviews
              (with_poller s1 (add_knownPR (prKeyOf repo (ap_number pr)) (poller s1))))
    as [_ Hc2].
  fold s2 in Hc2. simpl in Hc2.
  destruct (emitClosed_spec repo (ap_number pr) s2) as (Hp & Ht & Hok).
  rewrite Hq in Hok.
  destruct (emitClosed hs repo (ap_number pr) s2) as [s3 ok]. simpl in Hp, Ht, Hok.
  subst ok.
  set (s4 := with_poller s3 _).
  assert (Ha : same_for repo (ap_number pr) s4 (scanPulls hs repo after s4).1).
  { apply scanPulls_same_for. intros x Hx. apply Hothers.
    apply elem_of_app. by right. }
  destruct Ha as (Ha1 & Ha2 & Ha3). rewrite Ha2, Ha3.
  split; [|split].
  - subst s4. simpl. rewrite Ht, closures_app, Hc2.
    destruct Hb as (_ & _ & ->). destruct H0 as (_ & _ & ->).
    unfold closures at 2. simpl. rewrite bool_decide_eq_true_2; [simpl; lia|done].
  - rewrite Ha1. subst s4. simpl. rewrite elem_of_difference, elem_of_singleton.
    by intros [_ E].
  - subst s4. simpl. apply lookup_delete_eq.
Qed.

End PullFacts.

(** ** Closure of a pull request *)

Section ClosureFacts.
Import StateManager Orchestrator GitHubPoller Props.

Lemma handlePRClosed_never_throws w owner repo pr sm :
  run_threw (handlePRClosed w owner repo pr sm) = false.
Proof.
  unfold handlePRClosed. destruct (findByPR pr sm); [|done].
  by destruct (if String.eqb _ "" then _ else _).
Qed.

Lemma polling_closes_quietly worlds : closes_quietly (Polling.handlers worlds).
Proof.
  intros owner repo pr c. simpl. by rewrite handlePRClosed_never_throws.
Qed.

(** C4: when the listing of a cycle shows a pull request on an agent
    branch as closed, the cycle emits exactly one closure event for it and
    ends with neither a known-PR entry nor a last-seen-review entry for
    it. *)
Theorem closed_pr_emits_one_closure_and_drops_entries
    (worlds : nat → World) (repo : RepoConfig)
    (before after : list (ApiPull * Result (list ApiReview)))
    (pr : ApiPull) (reviews : Result (list ApiReview)) (s : Sys Polling.Core) :
  startsWith (ap_headRef pr) "ai-agent-issue-" = true →
  ap_state pr = "closed" →
  (∀ x, x ∈ before ++ after → ap_number x.1 ≠ ap_number pr) →
  closures (rc_owner repo) (rc_name repo) (ap_number pr)
    (trace (pollOurPRs (Polling.handlers worlds) repo
              (Resolved (before ++ (pr, reviews) :: after)) s)) =
    S (closures (rc_owner repo) (rc_name repo) (ap_number pr) (trace s))
  ∧ (prKeyOf repo (ap_number pr) ∉
       knownPRs
         (poller (pollOurPRs (Polling.handlers worlds) repo
                    (Resolved (before ++ (pr, reviews) :: after)) s)))
  ∧ (knownReviews
       (poller (pollOurPRs (Polling.handlers worlds) repo
                  (Resolved (before ++ (pr, reviews) :: after)) s))
       !! prKeyOf repo (ap_number pr)) = None.
Proof.
  intros Href Hclosed Hothers.
  apply pollOurPRs_closed; [apply polling_closes_quietly|done..].
Qed.



End ClosureFacts.

Lemma closed_pr_emits_one_closure_and_drops_entries_witness :
  Props.closures "alice" "proj" 5
    (GitHubPoller.trace
       (GitHubPoller.pollOurPRs (Polling.handlers (λ _, Samples.calm)) Samples.repoAlice
          (Resolved ([] ++ (Samples.pr5closed, Resolved []) ::
                     [(Samples.pr6open, Resolved [])]))
          Samples.pollingWithPR)) = 1%nat.
Proof.
  apply (closed_pr_emits_one_closure_and_drops_entries (λ _, Samples.calm)
           Samples.repoAlice [] [(Samples.pr6open, Resolved [])]
           Samples.pr5closed (Resolved []) Samples.pollingWithPR).
  - reflexivity.
  - reflexivity.
  - intros x Hx. apply list_elem_of_singleton in Hx. subst x. simpl. lia.
Defined.




(** ** The poll cycle *)

Section CycleFacts.
Import GitHubPoller Props.
Context {St : Type} (hs : PollerHandlers St).
Implicit Types (s : Sys St) (repo : RepoConfig).

Lemma extends_refl s : extends s s.
Proof. exists []. by rewrite app_nil_r. Qed.

Lemma extends_trans s1 s2 s3 : extends s1 s2 → extends s2 s3 → extends s1 s3.
Proof.
  intros [a1 H1] [a2 H2]. exists (a1 ++ a2). by rewrite H2, H1, app_assoc.
Qed.

Lemma quiet_extends s s' : quiet s s' → extends s s'.
Proof. intros [_ (a & Ha & _)]. by exists a. Qed.

Lemma extends_log a s : extends s (log a s).
Proof. by exists [a]. Qed.

Lemma extends_with_poller s p : extends s (with_poller s p).
Proof. exists []. simpl. by rewrite app_nil_r. Qed.

Lemma initCommentTracking_spec k s :
  trace (initCommentTracking k s) = trace s
  ∧ hstate (initCommentTracking k s) = hstate s
  ∧ lastIssueCheck (poller (initCommentTracking k s)) = lastIssueCheck (poller s)
  ∧ knownPRs (poller (initCommentTracking k s)) = knownPRs (poller s)
  ∧ knownReviews (poller (initCommentTracking k s)) = knownReviews (poller s)
  ∧ ∀ rk n, commentMark (poller (initCommentTracking k s)) rk n = commentMark (poller s) rk n.
Proof.
  unfold initCommentTracking. destruct (lastCommentCheck (poller s) !! k) eqn:Hk; [done|].
  split_and!; try done. intros rk n. unfold commentMark. simpl.
  destruct (decide (k = rk)) as [->|Hne].
  - by rewrite lookup_insert_eq, Hk.
  - by rewrite lookup_insert_ne.
Qed.

(** The scan of [pollNewIssues] leaves every watermark where it was. *)
Lemma scanNewIssues_spec repo issues s :
  extends s (scanNewIssues hs repo issues s).1
  ∧ lastIssueCheck (poller (scanNewIssues hs repo issues s).1) = lastIssueCheck (poller s)
  ∧ knownReviews (poller (scanNewIssues hs repo issues s).1) = knownReviews (poller s)
  ∧ ∀ rk n, commentMark (poller (scanNewIssues hs repo issues s).1) rk n =
            commentMark (poller s) rk n.
Proof.
  revert s. induction issues as [|issue issues IH]; intros s; simpl.
  { split; [apply extends_refl|done]. }
  destruct (ai_pull_request issue); [apply IH|].
  assert (Hstep : ∃ s1 ok,
    (if isTriggerComment (orEmpty (ai_body issue)) repo
     then emitTrigger hs repo (ai_number issue) s else (s, true)) = (s1, ok)
    ∧ quiet s s1).
  { destruct (isTriggerComment _ _).
    - pose proof (quiet_emitTrigger hs repo (ai_number issue) s) as Hq.
      destruct (emitTrigger hs repo (ai_number issue) s) as [s1 ok]. by exists s1, ok.
    - exists s, true. split; [done|apply quiet_refl]. }
  destruct Hstep as (s1 & ok & -> & [Hp Hq]).
  assert (He : extends s s1) by by apply quiet_extends.
  destruct ok; simpl.
  - destruct (IH (initCommentTracking (repoKeyOf repo) s1)) as (He' & H1 & H2 & H3).
    destruct (initCommentTracking_spec (repoKeyOf repo) s1) as (Ht & _ & Hi1 & _ & Hi2 & Hi3).
    split_and!.
    + eapply extends_trans; [exact He|]. destruct He' as [a Ha]. exists a.
      by rewrite Ha, Ht.
    + by rewrite H1, Hi1, Hp.
    + by rewrite H2, Hi2, Hp.
    + intros rk n. by rewrite H3, Hi3, Hp.
  - rewrite Hp. done.
Qed.

Lemma mark_le_refl (v : option Z) : mark_le v v.
Proof. destruct v; simpl; [lia|done]. Qed.

(** What [pollNewIssues] does to the issue timestamps. *)
Lemma pollNewIssues_spec repo dateNow response now s :
  extends s (pollNewIssues hs repo dateNow response now s)
  ∧ (lastIssueCheck (poller (pollNewIssues hs repo dateNow response now s)) =
       lastIssueCheck (poller s)
     ∨ ∃ issues,
         response = Resolved issues
         ∧ (scanNewIssues hs repo issues (issuesRequested repo dateNow s)).2 = true
         ∧ lastIssueCheck (poller (pollNewIssues hs repo dateNow response now s)) =
           <[repoKeyOf repo := now]> (lastIssueCheck (poller s))).
Proof.
  unfold pollNewIssues.
  assert (H0 : extends s (issuesRequested repo dateNow s)) by apply extends_log.
  destruct response as [issues|err]; [|by split; [|left]].
  destruct (scanNewIssues_spec repo issues (issuesRequested repo dateNow s))
    as (He & Hl & _).
  destruct (scanNewIssues hs repo issues (issuesRequested repo dateNow s))
    as [s1 ok] eqn:Hscan.
  simpl in He, Hl. pose proof (extends_trans _ _ _ H0 He) as H01.
  destruct ok.
  - split; [done|]. right. exists issues. rewrite Hscan. simpl. by rewrite Hl.
  - split; [done|]. left. by rewrite Hl.
Qed.

(** What one iteration of the loop of [pollIssueComments] does to the
    comment ids of the repository. *)
Lemma checkIssueComments_spec repo (marks : gmap Z Z) s issue response :
  extends s (checkIssueComments hs repo (marks, s) (issue, response)).2
  ∧ poller (checkIssueComments hs repo (marks, s) (issue, response)).2 = poller s
  ∧ ((checkIssueComments hs repo (marks, s) (issue, response)).1 = marks
     ∨ ∃ c cs,
         response = Resolved (c :: cs)
         ∧ (scanComments hs repo (ai_number issue) (getOr (marks !! ai_number issue) 0)
              (c :: cs)
              (commentsRequested repo (ai_number issue)
                 (getOr (marks !! ai_number issue) 0) s)).2 = true
         ∧ (checkIssueComments hs repo (marks, s) (issue, response)).1 =
           <[ai_number issue := max_list (ac_id c) (ac_id <$> cs)]> marks).
Proof.
  unfold checkIssueComments.
  destruct (ai_pull_request issue); [by split; [apply extends_refl|split; [|left]]|].
  destruct (isBotUser _); [by split; [apply extends_refl|split; [|left]]|].
  set (lastId := getOr (marks !! ai_number issue) 0).
  assert (H0 : quiet s (commentsRequested repo (ai_number issue) lastId s))
    by by apply quiet_log.
  destruct response as [comments|err].
  2:{ simpl. split; [by apply quiet_extends|]. split; [apply H0|by left]. }
  pose proof (quiet_scanComments hs repo (ai_number issue) lastId comments
                (commentsRequested repo (ai_number issue) lastId s)) as H1.
  destruct (scanComments _ _ _ _ comments _) as [s1 ok] eqn:Hscan. simpl in H1.
  pose proof (quiet_trans _ _ _ H0 H1) as H01.
  destruct ok.
  - destruct comments as [|c cs]; cbn [fst snd].
    + split; [by apply quiet_extends|]. split; [apply H01|by left].
    + split; [by apply quiet_extends|]. split; [apply H01|]. right.
      exists c, cs. by rewrite Hscan.
  - cbn [fst snd]. split; [by apply quiet_extends|]. split; [apply H01|by left].
Qed.







End CycleFacts.


(** ** Watermarks *)

Section WatermarkFacts.
Import GitHubPoller Props.
Context {St : Type} (hs : PollerHandlers St).
Implicit Types (s : Sys St) (repo : RepoConfig) (p : GitHubPoller.t).

Lemma mark_le_trans (a b c : option Z) : mark_le a b → mark_le b c → mark_le a c.
Proof. destruct a, b, c; simpl; try done. lia. Qed.

Lemma marks_le_refl p : marks_le p p.
Proof. split_and!; intros; try apply mark_le_refl; done. Qed.

Lemma marks_le_set_rate p remaining reset : marks_le p (set_rate remaining reset p).
Proof. split_and!; intros; try apply mark_le_refl; done. Qed.

Lemma marks_le_trans p1 p2 p3 : marks_le p1 p2 → marks_le p2 p3 → marks_le p1 p3.
Proof.
  intros (A1 & B1 & C1 & D1) (A2 & B2 & C2 & D2). split_and!.
  - intros k. eapply mark_le_trans; [apply A1|apply A2].
  - intros k n. eapply mark_le_trans; [apply B1|apply B2].
  - intros k Hk. by apply C2, C1.
  - intros k. eapply mark_le_trans; [apply D1|apply D2].
Qed.

Lemma mark_le_insert (m : gmap Z Z) (k : Z) (v : Z) :
  (∀ old, m !! k = Some old → old ≤ v) →
  ∀ n, mark_le (m !! n) (<[k := v]> m !! n).
Proof.
  intros Hold n. destruct (decide (k = n)) as [->|Hne].
  - rewrite lookup_insert_eq. destruct (m !! n) eqn:E; simpl; [by apply Hold|done].
  - rewrite lookup_insert_ne; [apply mark_le_refl|done].
Qed.

Lemma mark_le_insert_str (m : gmap string Z) (k : string) (v : Z) :
  (∀ old, m !! k = Some old → old ≤ v) →
  ∀ n, mark_le (m !! n) (<[k := v]> m !! n).
Proof.
  intros Hold n. destruct (decide (k = n)) as [->|Hne].
  - rewrite lookup_insert_eq. destruct (m !! n) eqn:E; simpl; [by apply Hold|done].
  - rewrite lookup_insert_ne; [apply mark_le_refl|done].
Qed.

(** Storing a value that is not below what [p0] holds keeps a map above
    [p0]. *)
Lemma above_insert (m0 m : gmap string Z) (k : string) (v : Z) :
  (∀ old, m0 !! k = Some old → old ≤ v) →
  (∀ n, mark_le (m0 !! n) (m !! n)) →
  ∀ n, mark_le (m0 !! n) (<[k := v]> m !! n).
Proof.
  intros Hold Hle n. destruct (decide (k = n)) as [->|Hne].
  - rewrite lookup_insert_eq. destruct (m0 !! n) eqn:E; simpl; [by apply Hold|done].
  - rewrite lookup_insert_ne; [apply Hle|done].
Qed.

Lemma scanNewIssues_knownPRs repo issues s :
  knownPRs (poller (scanNewIssues hs repo issues s).1) = knownPRs (poller s).
Proof.
  revert s. induction issues as [|issue issues IH]; intros s; simpl; [done|].
  destruct (ai_pull_request issue); [apply IH|].
  assert (Hstep : ∃ s1 ok,
    (if isTriggerComment (orEmpty (ai_body issue)) repo
     then emitTrigger hs repo (ai_number issue) s else (s, true)) = (s1, ok)
    ∧ poller s1 = poller s).
  { destruct (isTriggerComment _ _).
    - pose proof (quiet_emitTrigger hs repo (ai_number issue) s) as [Hq _].
      destruct (emitTrigger hs repo (ai_number issue) s) as [s1 ok]. by exists s1, ok.
    - by exists s, true. }
  destruct Hstep as (s1 & ok & -> & Hp). destruct ok; simpl; [|by rewrite Hp].
  rewrite IH. destruct (initCommentTracking_spec (repoKeyOf repo) s1)
    as (_ & _ & _ & -> & _). by rewrite Hp.
Qed.

(** What [pollNewIssues] leaves alone. *)
Lemma pollNewIssues_frame repo dateNow response now s :
  knownPRs (poller (pollNewIssues hs repo dateNow response now s)) = knownPRs (poller s)
  ∧ knownReviews (poller (pollNewIssues hs repo dateNow response now s)) =
    knownReviews (poller s)
  ∧ ∀ rk n, commentMark (poller (pollNewIssues hs repo dateNow response now s)) rk n =
            commentMark (poller s) rk n.
Proof.
  unfold pollNewIssues. destruct response as [issues|err]; [|done].
  destruct (scanNewIssues_spec hs repo issues (issuesRequested repo dateNow s))
    as (_ & _ & Hr & Hc).
  pose proof (scanNewIssues_knownPRs repo issues (issuesRequested repo dateNow s)) as Hk.
  destruct (scanNewIssues hs repo issues (issuesRequested repo dateNow s)) as [s1 ok].
  simpl in Hr, Hc, Hk. destruct ok; simpl; split_and!; done.
Qed.

Lemma pollNewIssues_marks p0 repo dateNow response now s :
  (∀ t, lastIssueCheck p0 !! repoKeyOf repo = Some t → t ≤ now) →
  marks_le p0 (poller s) →
  marks_le p0 (poller (pollNewIssues hs repo dateNow response now s)).
Proof.
  intros Hclock (A & B & C & D).
  destruct (pollNewIssues_spec hs repo dateNow response now s) as [_ Hts].
  destruct (pollNewIssues_frame repo dateNow response now s) as (Hk & Hr & Hc).
  split_and!.
  - destruct Hts as [-> | (issues & _ & _ & ->)]; [done|]. by apply above_insert.
  - intros k n. rewrite Hc. apply B.
  - intros k. rewrite Hk. apply C.
  - intros k. rewrite Hr. apply D.
Qed.

(** The loop of [pollIssueComments] keeps the local ids above [m0]. *)
Lemma fold_checkIssueComments_marks (m0 : Z → option Z) repo items
    (marks : gmap Z Z) s :
  (∀ issue c cs old,
     (issue, Resolved (c :: cs)) ∈ items →
     m0 (ai_number issue) = Some old →
     old ≤ max_list (ac_id c) (ac_id <$> cs)) →
  (∀ n, mark_le (m0 n) (marks !! n)) →
  (∀ n, mark_le (m0 n) ((foldl (checkIssueComments hs repo) (marks, s) items).1 !! n))
  ∧ poller (foldl (checkIssueComments hs repo) (marks, s) items).2 = poller s.
Proof.
  revert marks s. induction items as [|[issue resp] items IH]; intros marks s Hcur Hle.
  { done. }
  change (foldl (checkIssueComments hs repo) (marks, s) ((issue, resp) :: items)) with
    (foldl (checkIssueComments hs repo)
       (checkIssueComments hs repo (marks, s) (issue, resp)) items).
  destruct (checkIssueComments_spec hs repo marks s issue resp) as (_ & Hp & Hm).
  destruct (checkIssueComments hs repo (marks, s) (issue, resp)) as [marks1 s1].
  cbn [fst snd] in Hp, Hm.
  destruct (IH marks1 s1) as [Hle' Hp'].
  - intros i c cs old Hin. apply Hcur. by right.
  - destruct Hm as [-> | (c & cs & -> & _ & ->)]; [done|].
    intros n. destruct (decide (ai_number issue = n)) as [<-|Hne].
    + rewrite lookup_insert_eq. destruct (m0 (ai_number issue)) eqn:E; simpl; [|done].
      apply (Hcur issue c cs); [left|done].
    + rewrite lookup_insert_ne; [apply Hle|done].
  - split; [done|]. by rewrite Hp'.
Qed.

Lemma commentMark_default p rk n :
  default ∅ (lastCommentCheck p !! rk) !! n = commentMark p rk n.
Proof. unfold commentMark. by destruct (lastCommentCheck p !! rk). Qed.

Lemma pollIssueComments_marks p0 repo response s :
  (∀ items issue c cs old,
     response = Resolved items →
     (issue, Resolved (c :: cs)) ∈ items →
     commentMark p0 (repoKeyOf repo) (ai_number issue) = Some old →
     old ≤ max_list (ac_id c) (ac_id <$> cs)) →
  marks_le p0 (poller s) →
  marks_le p0 (poller (pollIssueComments hs repo response s)).
Proof.
  intros Hcur (A & B & C & D). unfold pollIssueComments.
  destruct response as [items|err]; [|done].
  destruct (fold_checkIssueComments_marks (commentMark p0 (repoKeyOf repo)) repo items
              (default ∅ (lastCommentCheck (poller s) !! repoKeyOf repo))
              (log (ListOpenIssues (rc_owner repo) (rc_name repo)) s)) as [Hle Hp].
  { intros issue c cs old. by apply Hcur. }
  { intros n. rewrite commentMark_default. apply B. }
  destruct (foldl _ _ items) as [marks1 s1]. cbn [fst snd] in Hle, Hp.
  simpl. rewrite Hp. simpl. split_and!; try done.
  intros k n. unfold commentMark at 2. simpl.
  destruct (decide (repoKeyOf repo = k)) as [<-|Hne].
  - rewrite lookup_insert_eq. simpl. apply Hle.
  - rewrite lookup_insert_ne; [apply B|done].
Qed.

(** The loop of [pollOurPRs], as long as no agent pull request is listed
    as closed. *)
Lemma scanPulls_marks p0 repo pulls s :
  (∀ pr response,
     (pr, response) ∈ pulls →
     startsWith (ap_headRef pr) "ai-agent-issue-" = true →
     ap_state pr ≠ "closed"
     ∧ ∀ r rs old,
         response = Resolved (r :: rs) →
         knownReviews p0 !! prKeyOf repo (ap_number pr) = Some old →
         old ≤ max_list (ar_id r) (ar_id <$> rs)) →
  marks_le p0 (poller s) →
  marks_le p0 (poller (scanPulls hs repo pulls s).1).
Proof.
  revert s. induction pulls as [|[pr resp] pulls IH]; intros s Hcur Hle; simpl; [done|].
  assert (Hrest : ∀ pr' response,
            (pr', response) ∈ pulls →
            startsWith (ap_headRef pr') "ai-agent-issue-" = true →
            ap_state pr' ≠ "closed"
            ∧ ∀ r rs old,
                response = Resolved (r :: rs) →
                knownReviews p0 !! prKeyOf repo (ap_number pr') = Some old →
                old ≤ max_list (ar_id r) (ar_id <$> rs)).
  { intros pr' response Hin. apply Hcur. by right. }
  destruct (startsWith (ap_headRef pr) "ai-agent-issue-") eqn:Href; simpl;
    [|by apply IH].
  destruct (Hcur pr resp) as [Hopen Hbatch]; [left|done|].
  assert (Hneq : String.eqb (ap_state pr) "closed" = false).
  { by apply String.eqb_neq. }
  rewrite Hneq. apply IH; [done|].
  set (s1 := with_poller s _).
  assert (H1 : marks_le p0 (poller s1)).
  { destruct Hle as (A & B & C & D). subst s1. split_and!; try done.
    intros k Hk. simpl. apply elem_of_union. right. by apply C. }
  destruct (pollPRReviews_spec hs repo pr resp s1) as [[-> | (r & rs & -> & _ & ->)] _];
    [done|].
  destruct H1 as (A & B & C & D). split_and!; try done.
  simpl. apply above_insert; [|done]. intros old. by apply (Hbatch r rs).
Qed.

Lemma pollOurPRs_marks p0 repo response s :
  (∀ prs pr resp,
     response = Resolved prs →
     (pr, resp) ∈ prs →
     startsWith (ap_headRef pr) "ai-agent-issue-" = true →
     ap_state pr ≠ "closed"
     ∧ ∀ r rs old,
         resp = Resolved (r :: rs) →
         knownReviews p0 !! prKeyOf repo (ap_number pr) = Some old →
         old ≤ max_list (ar_id r) (ar_id <$> rs)) →
  marks_le p0 (poller s) →
  marks_le p0 (poller (pollOurPRs hs repo response s)).
Proof.
  intros Hcur Hle. unfold pollOurPRs. destruct response as [prs|err]; [|done].
  apply scanPulls_marks; [|done]. intros pr resp. by apply Hcur.
Qed.

Lemma fold_pollRepo_marks p0 (world : RepoConfig → RepoWorld)
    (repos todo : list RepoConfig) s :
  cycle_current repos world p0 →
  (∀ repo, repo ∈ todo → repo ∈ repos ∧ enabled repo = true) →
  marks_le p0 (poller s) →
  marks_le p0 (poller (foldl (λ acc repo, pollRepo hs repo (world repo) acc) s todo)).
Proof.
  intros Hcur. revert s. induction todo as [|repo todo IH]; intros s Hin Hle; [done|].
  simpl. apply IH; [intros r Hr; apply Hin; by right|].
  destruct (Hin repo) as [Hrepo Hen]; [left|].
  destruct (Hcur repo Hrepo Hen) as (Hclock & Hcomments & Hpulls).
  unfold pollRepo. apply pollOurPRs_marks; [done|].
  apply pollIssueComments_marks; [done|].
  by apply pollNewIssues_marks.
Qed.

(** One cycle that is current for the poller it starts on lowers no
    watermark. *)
Lemma pollAll_marks repos rate (world : RepoConfig → RepoWorld) s :
  cycle_current repos world (poller s) →
  marks_le (poller s) (poller (pollAll hs repos rate world s)).
Proof.
  intros Hcur. unfold pollAll.
  assert (Hrate : marks_le (poller s) (checkRateLimit rate (poller (log GetRateLimit s))).1).
  { unfold checkRateLimit. destruct rate as [info|err]; [|apply marks_le_refl].
    destruct (_ <? _); apply marks_le_set_rate. }
  destruct (checkRateLimit rate (poller (log GetRateLimit s))) as [p proceed].
  simpl in Hrate. destruct proceed; simpl; [|done].
  apply (fold_pollRepo_marks (poller s) world repos); [done| |done].
  intros repo Hin. apply list_elem_of_In, List.filter_In in Hin as [Hin Hen].
  split; [by apply list_elem_of_In|done].
Qed.

(** Neither does a run of such cycles. *)
Lemma runCycles_marks repos cycles s :
  cycles_current hs repos cycles s →
  marks_le (poller s) (poller (runCycles hs repos cycles s)).
Proof.
  revert s. induction cycles as [|[rate world] cycles IH]; intros s Hcur.
  { apply marks_le_refl. }
  destruct Hcur as [Hfirst Hrest]. simpl in Hfirst, Hrest.
  eapply marks_le_trans; [by apply (pollAll_marks repos rate world s)|].
  by apply IH.
Qed.

(** C3, amended.  Over any run of poll cycles in which the clock is not
    behind a stored issue timestamp, the largest id of every non-empty
    batch of comments or reviews is not below the id stored for its key, and
    no agent pull request is listed as closed, no watermark ever goes down:
    issue timestamps, last-seen comment ids, known-PR membership, last-seen
    review ids.  In every poll step, an issue timestamp, a comment id or a
    review id is left as it was or set once the whole batch has been listed
    and scanned without a handler throwing (the timestamp to the clock
    reading taken when the listing arrived, an id to the largest id of the
    batch): a listing that fails or a handler that throws leaves the entry
    as it was, and the step touches no entry but its own.  Known-PR
    membership is recorded when the pull request is listed, whatever the
    review listing answers. *)
Theorem watermarks_set_after_batch
    (repos : list RepoConfig)
    (cycles : list (Result RateInfo * (RepoConfig → RepoWorld))) (s : Sys St) :
  cycles_current hs repos cycles s →
  marks_le (poller s) (poller (runCycles hs repos cycles s))
  ∧ (∀ repo dateNow issuesResponse now s0,
       lastIssueCheck (poller (pollNewIssues hs repo dateNow issuesResponse now s0)) =
         lastIssueCheck (poller s0)
       ∨ ∃ issues,
           issuesResponse = Resolved issues
           ∧ (scanNewIssues hs repo issues (issuesRequested repo dateNow s0)).2 = true
           ∧ lastIssueCheck (poller (pollNewIssues hs repo dateNow issuesResponse now s0)) =
             <[repoKeyOf repo := now]> (lastIssueCheck (poller s0)))
  ∧ (∀ repo (marks : gmap Z Z) issue commentsResponse s0,
       (checkIssueComments hs repo (marks, s0) (issue, commentsResponse)).1 = marks
       ∨ ∃ c cs,
           commentsResponse = Resolved (c :: cs)
           ∧ (scanComments hs repo (ai_number issue) (getOr (marks !! ai_number issue) 0)
                (c :: cs)
                (commentsRequested repo (ai_number issue)
                   (getOr (marks !! ai_number issue) 0) s0)).2 = true
           ∧ (checkIssueComments hs repo (marks, s0) (issue, commentsResponse)).1 =
             <[ai_number issue := max_list (ac_id c) (ac_id <$> cs)]> marks)
  ∧ (∀ repo pr reviewsResponse s0,
       poller (pollPRReviews hs repo pr reviewsResponse s0) = poller s0
       ∨ ∃ r rs,
           reviewsResponse = Resolved (r :: rs)
           ∧ (scanReviews hs repo (ap_number pr)
                (getOr (knownReviews (poller s0) !! prKeyOf repo (ap_number pr)) 0)
                (r :: rs) (reviewsRequested repo (ap_number pr) s0)).2 = true
           ∧ poller (pollPRReviews hs repo pr reviewsResponse s0) =
             set_knownReviews (prKeyOf repo (ap_number pr))
               (max_list (ar_id r) (ar_id <$> rs)) (poller s0))
  ∧ (∀ repo pr reviewsResponse s0,
       prKeyOf repo (ap_number pr) ∈
         knownPRs
           (poller (pollPRReviews hs repo pr reviewsResponse
                      (with_poller s0
                         (add_knownPR (prKeyOf repo (ap_number pr)) (poller s0)))))).
Proof.
  intros Hcur. split_and!.
  - by apply runCycles_marks.
  - intros repo dateNow issuesResponse now s0.
    apply (pollNewIssues_spec hs repo dateNow issuesResponse now s0).
  - intros repo marks issue commentsResponse s0.
    apply (checkIssueComments_spec hs repo marks s0 issue commentsResponse).
  - intros repo pr reviewsResponse s0.
    apply (pollPRReviews_spec hs repo pr reviewsResponse s0).
  - intros repo pr reviewsResponse s0.
    destruct (pollPRReviews_own hs repo pr reviewsResponse
                (with_poller s0 (add_knownPR (prKeyOf repo (ap_number pr)) (poller s0))))
      as [Hk _].
    apply Hk. simpl. apply elem_of_union. left. by apply elem_of_singleton.
Qed.

End WatermarkFacts.

(** The scenario of the design document: comments 101, 102 and 103 arrive
    for issue 7, whose watermark is 100, while the comments of issue 9
    cannot be fetched; the watermark of issue 7 becomes 103 and that of
    issue 9 stays at 50. *)
Example watermark_scenario :
  let s' :=
    GitHubPoller.pollIssueComments (Polling.handlers (λ _, Samples.calm))
      Samples.repoAlice
      (Resolved
         [(Samples.openIssue 9, Rejected "Error: 502");
          (Samples.openIssue 7,
           Resolved [Samples.remark 101; Samples.remark 102; Samples.remark 103])])
      (GitHubPoller.mkSys Samples.seen100 Samples.idleCore []) in
  Props.commentMark (GitHubPoller.poller s') "alice/proj" 7 = Some 103
  ∧ Props.commentMark (GitHubPoller.poller s') "alice/proj" 9 = Some 50.
Proof. vm_compute. split; reflexivity. Qed.

Lemma watermarks_set_after_batch_witness :
  Props.marks_le Samples.seen100
    (GitHubPoller.poller
       (GitHubPoller.runCycles (Polling.handlers (λ _, Samples.calm))
          [Samples.repoAlice] [(Resolved Samples.fullBudget, Samples.busyCycle)]
          (GitHubPoller.mkSys Samples.seen100 Samples.idleCore []))).
Proof.
  apply (watermarks_set_after_batch (Polling.handlers (λ _, Samples.calm))
           [Samples.repoAlice] [(Resolved Samples.fullBudget, Samples.busyCycle)]
           (GitHubPoller.mkSys Samples.seen100 Samples.idleCore [])).
  split; [|exact I].
  intros repo Hrepo Henabled. apply list_elem_of_singleton in Hrepo. subst repo.
  split; [|split].
  - intros t Ht. vm_compute in Ht. discriminate.
  - intros items issue c cs old [= <-] Hin Hold.
    apply elem_of_cons in Hin as [Hin|Hin]; [discriminate|].
    apply list_elem_of_singleton in Hin. injection Hin as -> -> ->.
    vm_compute in Hold. injection Hold as <-. vm_compute. discriminate.
  - intros prs pr response [= <-] Hin Href.
    apply list_elem_of_singleton in Hin. injection Hin as -> ->.
    split; [discriminate|]. intros r rs old Hresp. discriminate.
Defined.

(** C3, counterexample: issue 7 has watermark 103 and the listing of its
    comments answers with comment 101 alone; the stored watermark goes down
    to 101. *)
Lemma comment_watermark_goes_down :
  let s := GitHubPoller.mkSys Samples.seen103 Samples.idleCore [] in
  let s' :=
    GitHubPoller.pollIssueComments (Polling.handlers (λ _, Samples.calm))
      Samples.repoAlice
      (Resolved [(Samples.openIssue 7, Resolved [Samples.remark 101])]) s in
  Props.commentMark (GitHubPoller.poller s) "alice/proj" 7 = Some 103
  ∧ Props.commentMark (GitHubPoller.poller s') "alice/proj" 7 = Some 101
  ∧ ¬ Props.mark_le (Props.commentMark (GitHubPoller.poller s) "alice/proj" 7)
        (Props.commentMark (GitHubPoller.poller s') "alice/proj" 7).
Proof. vm_compute. repeat split; try reflexivity. intros Hle. by apply Hle. Qed.

(** * Further properties of the code *)

(** ** The registry operations *)

Section RegistryOperations.
Import StateManager Orchestrator Props.

Lemma with_issues_same sm : with_issues sm (activeIssues sm) = sm.
Proof. by destruct sm. Qed.

Lemma delete_absent {V : Type} (k : string) (m : JsMap.t V) :
  JsMap.get k m = None → JsMap.delete k m = m.
Proof.
  induction m as [|[k' v'] m IH]; simpl; [done|].
  case_decide; [done|]. intros Hg. by rewrite IH.
Qed.

Lemma delete_set_absent {V : Type} (k : string) (v : V) (m : JsMap.t V) :
  JsMap.get k m = None → JsMap.delete k (JsMap.set k v m) = m.
Proof.
  induction m as [|[k' v'] m IH]; simpl.
  - intros _. by rewrite decide_True.
  - case_decide; [done|]. intros Hg. simpl. rewrite decide_False; [|done].
    by rewrite IH.
Qed.

Lemma isIssueActive_false o r n sm :
  isIssueActive o r n sm = false ↔ getIssue o r n sm = None.
Proof.
  unfold isIssueActive. rewrite bool_decide_eq_false.
  destruct (getIssue o r n sm); split; try done.
  - intros H. by destruct H.
  - intros _ H. by apply H.
Qed.

(** X1.  The three mutators addressed by owner, repository and issue number
    do nothing when no unit is registered under that key: a status update,
    a pull-request assignment and a removal of an unknown unit all leave the
    registry exactly as it was. *)
Theorem mutators_ignore_unknown_unit
    (now : Z) (o r n : JsVal) (st : ActiveIssueStatus) (err : option string)
    (pr : Z) (sm : StateManager.t) :
  isIssueActive o r n sm = false →
  updateIssueStatus now o r n st err sm = sm
  ∧ setPRNumber o r n pr sm = sm
  ∧ removeIssue o r n sm = sm.
Proof.
  intros Hno%isIssueActive_false. unfold updateIssueStatus, setPRNumber, removeIssue.
  rewrite Hno. split_and!; [done|done|].
  unfold getIssue in Hno. cbn zeta. rewrite delete_absent; [|done].
  apply with_issues_same.
Qed.

(** X2.  Registering a unit whose key is free and removing it again gives
    back the registry one started from, entry for entry and in the same
    order; in between the unit is the one [getIssue] returns and the
    registry holds one entry more. *)
Theorem register_then_remove_restores (issue : ActiveIssue) (sm : StateManager.t) :
  isIssueActive (repoOwner issue) (repoName issue) (issueNumber issue) sm = false →
  let sm' := registerIssue issue sm in
  getIssue (repoOwner issue) (repoName issue) (issueNumber issue) sm' = Some issue
  ∧ JsMap.size (activeIssues sm') = JsMap.size (activeIssues sm) + 1
  ∧ removeIssue (repoOwner issue) (repoName issue) (issueNumber issue) sm' = sm.
Proof.
  intros Hno%isIssueActive_false sm'. unfold getIssue in Hno. split_and!.
  - unfold sm', getIssue, registerIssue. simpl. apply get_set_eq.
  - unfold sm', registerIssue. simpl. apply size_set_absent.
    by apply get_None_keys.
  - unfold sm', removeIssue, registerIssue, with_issues. simpl.
    rewrite delete_set_absent; [|done]. by destruct sm.
Qed.

Lemma count_statuses (l : list ActiveIssue) :
  foldr Z.add 0
    (((λ st, (st, Z.of_nat (List.length
                              (List.filter (λ i, bool_decide (status i = st)) l))))
        <$> getAllStatuses).*2)
  = Z.of_nat (List.length l).
Proof.
  induction l as [|x l IH]; [done|].
  cbn [getAllStatuses fmap list_fmap snd foldr] in *.
  cbn [List.filter List.length].
  destruct (status x); simpl bool_decide; cbn [List.length]; lia.
Qed.

(** X3.  The statistics are consistent: [getStats] lists each of the eleven
    statuses once, in the order of [getAllStatuses]; the count it gives for
    a status is the number of units [getIssuesByStatus] returns for it; the
    counts add up to [total], which is the size of the registry; and
    [canStartMore] holds exactly when [total] is below the limit. *)
Theorem getStats_counts_add_up (sm : StateManager.t) :
  let stats := getStats sm in
  (byStatus stats).*1 = getAllStatuses
  ∧ (∀ st n, (st, n) ∈ byStatus stats →
       n = Z.of_nat (List.length (getIssuesByStatus st sm)))
  ∧ foldr Z.add 0 (byStatus stats).*2 = total stats
  ∧ total stats = JsMap.size (activeIssues sm)
  ∧ (canStartMore stats = true ↔ total stats < maxConcurrent sm).
Proof.
  intros stats. split_and!.
  - done.
  - intros st n Hin. unfold stats, getStats in Hin. cbn [byStatus] in Hin.
    apply list_elem_of_fmap in Hin as (st' & [= -> ->] & _). done.
  - apply count_statuses.
  - unfold stats, getStats, getAllActive, JsMap.values, JsMap.size. cbn [total].
    by rewrite length_fmap.
  - unfold stats, getStats, getAllActive, JsMap.values. cbn [total canStartMore].
    rewrite length_fmap. apply canStartNew_spec.
Qed.

Lemma find_values_update (p : ActiveIssue → bool) (f : ActiveIssue → ActiveIssue)
    (k : string) (m : JsMap.t ActiveIssue) (issue : ActiveIssue) :
  JsMap.get k m = Some issue →
  (∀ v, v ∈ JsMap.values m → p v = false) →
  p (f issue) = true →
  List.find p (JsMap.values (JsMap.update k f m)) = Some (f issue).
Proof.
  induction m as [|[k' v'] m IH]; simpl; [done|].
  intros Hget Hnone Hp. case_decide.
  - simplify_eq. simpl. by rewrite Hp.
  - simpl. rewrite Hnone; [|apply elem_of_cons; by left].
    apply IH; [done| |done]. intros v Hv. apply Hnone. apply elem_of_cons. by right.
Qed.

Lemma handlePRClosed_removes w owner repo pr sm issue :
  findByPR pr sm = Some issue →
  (containerId issue = "" ∨ resolved (removeContainer w (containerId issue)) = true) →
  run_state (handlePRClosed w owner repo pr sm) =
  removeIssue (repoOwner issue) (repoName issue) (issueNumber issue) sm.
Proof.
  intros Hfind Hrm. unfold handlePRClosed. rewrite Hfind.
  destruct Hrm as [-> | Hrm]; [done|].
  destruct (String.eqb (containerId issue) ""); [done|].
  by destruct (removeContainer w (containerId issue)).
Qed.

(** X4.  [setPRNumber] is what links a pull request to its unit.  When the
    unit of an issue is registered and no unit carries the number yet,
    after [setPRNumber] the lookup by pull-request number used by the
    closure and review handlers finds that unit, now in status
    [pr_created]; a closure event for the number then removes exactly this
    unit, provided its container can be removed. *)
Theorem setPRNumber_links_closure
    (w : World) (owner repo : string) (o r n : JsVal) (pr : Z)
    (sm : StateManager.t) (issue : ActiveIssue) :
  registry_wf sm →
  getIssue o r n sm = Some issue →
  findByPR pr sm = None →
  (containerId issue = "" ∨ resolved (removeContainer w (containerId issue)) = true) →
  let sm' := setPRNumber o r n pr sm in
  findByPR pr sm' = Some (assign_pr pr issue)
  ∧ status (assign_pr pr issue) = pr_created
  ∧ isIssueActive o r n sm' = true
  ∧ isIssueActive o r n (run_state (handlePRClosed w owner repo pr sm')) = false
  ∧ JsMap.size (activeIssues (run_state (handlePRClosed w owner repo pr sm')))
    = JsMap.size (activeIssues sm) - 1.
Proof.
  intros Hwf Hget Hnone Hrm sm'.
  assert (Hfind : findByPR pr sm' = Some (assign_pr pr issue)).
  { unfold sm', setPRNumber. rewrite Hget. unfold findByPR, getAllActive. simpl.
    apply find_values_update; [done| |by apply bool_decide_eq_true].
    intros v Hv. unfold findByPR, getAllActive in Hnone.
    apply list_elem_of_In in Hv.
    by apply (List.find_none _ _ Hnone). }
  assert (Hwf' : registry_wf sm') by by apply wf_setPRNumber.
  assert (Hkey : keyOf issue = getIssueKey o r n) by by apply (stored_key o r n sm).
  assert (Hget' : getIssue o r n sm' = Some (assign_pr pr issue)).
  { unfold sm', setPRNumber. rewrite Hget. unfold getIssue in *. simpl.
    rewrite get_update, decide_True; [|done]. by rewrite Hget. }
  rewrite (handlePRClosed_removes w owner repo pr sm' (assign_pr pr issue) Hfind Hrm).
  cbn [repoOwner repoName issueNumber assign_pr].
  fold (keyOf issue) in *.
  split_and!; [done|done| | |].
  - apply isIssueActive_spec. eauto.
  - apply isIssueActive_false. unfold getIssue, removeIssue. cbn [activeIssues with_issues].
    fold (keyOf issue). rewrite Hkey. apply get_delete_eq. apply Hwf'.
  - unfold removeIssue. cbn [activeIssues with_issues]. fold (keyOf issue).
    rewrite size_delete_present.
    + unfold sm'. by rewrite size_setPRNumber.
    + rewrite Hkey. destruct (decide (getIssueKey o r n ∈ JsMap.keys (activeIssues sm')))
        as [?|Hn]; [done|].
      apply get_None_keys in Hn. unfold getIssue in Hget'. congruence.
Qed.

End RegistryOperations.

Lemma mutators_ignore_unknown_unit_witness :
  StateManager.updateIssueStatus 5 (JStr "bob") (JStr "proj") (JNum 1) done_ None
    Samples.oneUnit = Samples.oneUnit
  ∧ StateManager.setPRNumber (JStr "bob") (JStr "proj") (JNum 1) 12 Samples.oneUnit
    = Samples.oneUnit
  ∧ StateManager.removeIssue (JStr "bob") (JStr "proj") (JNum 1) Samples.oneUnit
    = Samples.oneUnit.
Proof.
  apply (mutators_ignore_unknown_unit 5 (JStr "bob") (JStr "proj") (JNum 1) done_ None 12
           Samples.oneUnit).
  vm_compute. reflexivity.
Defined.

Lemma register_then_remove_restores_witness :
  StateManager.getIssue (JStr "Alice") (JStr "proj") (JNum 7)
    (StateManager.registerIssue Samples.unit7caps Samples.oneUnit)
  = Some Samples.unit7caps
  ∧ JsMap.size (StateManager.activeIssues
                  (StateManager.registerIssue Samples.unit7caps Samples.oneUnit))
    = JsMap.size (StateManager.activeIssues Samples.oneUnit) + 1
  ∧ StateManager.removeIssue (JStr "Alice") (JStr "proj") (JNum 7)
      (StateManager.registerIssue Samples.unit7caps Samples.oneUnit)
    = Samples.oneUnit.
Proof.
  apply (register_then_remove_restores Samples.unit7caps Samples.oneUnit).
  vm_compute. reflexivity.
Defined.

Lemma setPRNumber_links_closure_witness :
  Orchestrator.findByPR 5
    (StateManager.setPRNumber (JStr "alice") (JStr "proj") (JNum 7) 5 Samples.oneUnit)
  = Some (StateManager.assign_pr 5 Samples.unit7)
  ∧ StateManager.isIssueActive (JStr "alice") (JStr "proj") (JNum 7)
      (Orchestrator.run_state
         (Orchestrator.handlePRClosed Samples.calm "alice" "proj" 5
            (StateManager.setPRNumber (JStr "alice") (JStr "proj") (JNum 7) 5
               Samples.oneUnit)))
    = false.
Proof.
  destruct (setPRNumber_links_closure Samples.calm "alice" "proj"
              (JStr "alice") (JStr "proj") (JNum 7) 5 Samples.oneUnit Samples.unit7)
    as (H1 & _ & _ & H2 & _).
  - apply oneUnit_wf.
  - vm_compute. reflexivity.
  - vm_compute. reflexivity.
  - right. reflexivity.
  - split; [exact H1 | exact H2].
Defined.

(** ** The invariants of the registry along the webhook route *)

Section WebhookInvariants.
Import StateManager Orchestrator GitHubClient WebhookServer Props.



End WebhookInvariants.


(** ** What the handlers do to the registry *)

Section HandlerOutcomes.
Import StateManager Orchestrator Props.

(** X5.  A trigger that arrives while every slot is taken is answered with
    the queue-position comment and nothing else: no container is started,
    the registry is left as it was, and the position announced is the
    number of units minus the limit plus one, which is at least 1. *)
Theorem full_registry_reports_queue_position
    (w : World) (issue : IssueArg) (commentId : JsVal) (sm : StateManager.t) :
  isIssueActive (issue_owner issue) (issue_repo issue) (issue_number issue) sm = false →
  canStartNew sm = false →
  let r := handleIssueTriggered w issue commentId sm in
  let q := JsMap.size (activeIssues sm) - maxConcurrent sm + 1 in
  1 ≤ q
  ∧ run_state r = sm
  ∧ run_effects r =
      [PostIssueComment (issue_owner issue) (issue_repo issue) (issue_number issue)
         (msgQueueFull q)].
Proof.
  intros Hact Hcan r q. unfold r, handleIssueTriggered. rewrite Hact, Hcan. simpl.
  split_and!; [|done|done].
  unfold canStartNew in Hcan. apply Z.ltb_ge in Hcan. unfold q. lia.
Qed.

(** X6.  When the container cannot be started the trigger leaves no trace
    in the registry: the issue is not registered, so a later trigger
    is admitted again.  The calls made are the rocket reaction, the
    starting comment, the start attempt and the failure comment that quotes
    the error. *)
Theorem failed_start_registers_nothing
    (w : World) (issue : IssueArg) (commentId : JsVal) (sm : StateManager.t)
    (err : string) :
  isIssueActive (issue_owner issue) (issue_repo issue) (issue_number issue) sm = false →
  canStartNew sm = true →
  (∀ body, postIssueComment w (issue_owner issue) (issue_repo issue)
             (issue_number issue) body = Resolved tt) →
  (∀ unit, startAgentContainer w unit = Rejected err) →
  let r := handleIssueTriggered w issue commentId sm in
  run_state r = sm
  ∧ run_threw r = false
  ∧ ∃ branch unit,
      run_effects r =
        [AddReaction (issue_owner issue) (issue_repo issue) commentId "rocket";
         PostIssueComment (issue_owner issue) (issue_repo issue) (issue_number issue)
           (msgStarting branch);
         StartAgentContainer unit;
         PostIssueComment (issue_owner issue) (issue_repo issue) (issue_number issue)
           (msgStartFailed err)].
Proof.
  intros Hact Hcan Hpost Hstart r. unfold r, handleIssueTriggered.
  rewrite Hact, Hcan. cbn [negb]. rewrite Hpost, Hstart.
  unfold startFailed. rewrite Hpost. simpl. split_and!; [done|done|]. eauto.
Qed.

(** X7.  When the container starts, the unit is registered under the key
    of the trigger with the identifier Docker returned, in status
    [starting], without pull request or heartbeat, and with the start time
    read from the clock.  The registry grows by one, and the calls made are
    the rocket reaction, the starting comment and the start itself. *)
Theorem started_unit_is_registered
    (w : World) (issue : IssueArg) (commentId : JsVal) (sm : StateManager.t)
    (cid : string) :
  isIssueActive (issue_owner issue) (issue_repo issue) (issue_number issue) sm = false →
  canStartNew sm = true →
  (∀ body, postIssueComment w (issue_owner issue) (issue_repo issue)
             (issue_number issue) body = Resolved tt) →
  (∀ unit, startAgentContainer w unit = Resolved cid) →
  let r := handleIssueTriggered w issue commentId sm in
  run_threw r = false
  ∧ (∃ branch pending,
       run_effects r =
         [AddReaction (issue_owner issue) (issue_repo issue) commentId "rocket";
          PostIssueComment (issue_owner issue) (issue_repo issue) (issue_number issue)
            (msgStarting branch);
          StartAgentContainer pending])
  ∧ JsMap.size (activeIssues (run_state r)) = JsMap.size (activeIssues sm) + 1
  ∧ ∃ unit,
      getIssue (issue_owner issue) (issue_repo issue) (issue_number issue) (run_state r)
        = Some unit
      ∧ containerId unit = cid
      ∧ status unit = starting
      ∧ prNumber unit = None
      ∧ lastHeartbeat unit = None
      ∧ startedAt unit = clock w
      ∧ keyOf unit =
          getIssueKey (issue_owner issue) (issue_repo issue) (issue_number issue).
Proof.
  intros Hact Hcan Hpost Hstart r. unfold r, handleIssueTriggered.
  rewrite Hact, Hcan. cbn [negb]. rewrite Hpost, Hstart.
  cbn [run_state run_effects run_threw].
  apply isIssueActive_false in Hact. unfold getIssue in Hact.
  split_and!; [done|by eexists _, _| |].
  - unfold registerIssue. cbn [activeIssues with_issues repoOwner repoName issueNumber].
    apply size_set_absent. by apply get_None_keys.
  - eexists. split.
    + unfold getIssue, registerIssue.
      cbn [activeIssues with_issues repoOwner repoName issueNumber].
      apply get_set_eq.
    + done.
Qed.

Lemma keys_updateIssueStatus now o r n st err sm :
  JsMap.keys (activeIssues (updateIssueStatus now o r n st err sm)) =
  JsMap.keys (activeIssues sm).
Proof.
  unfold updateIssueStatus. destruct (getIssue o r n sm); [|done].
  simpl. apply keys_update.
Qed.

(** X8.  A review never adds or removes a unit: the keys of the registry
    and the limit are what they were.  A review in any state other than
    [CHANGES_REQUESTED], or on a pull request no unit carries, changes
    nothing and posts nothing; otherwise one feedback comment is posted on
    the unit's issue number in the repository of the event, and a unit that
    differs afterwards is in status [iterating]. *)
Theorem review_only_marks_iterating
    (w : World) (owner repo : string) (pr : Z) (review : Review)
    (sm : StateManager.t) :
  let r := handlePRReview w owner repo pr review sm in
  JsMap.keys (activeIssues (run_state r)) = JsMap.keys (activeIssues sm)
  ∧ maxConcurrent (run_state r) = maxConcurrent sm
  ∧ (rv_state review ≠ "CHANGES_REQUESTED" ∨ findByPR pr sm = None →
       run_state r = sm ∧ run_effects r = [] ∧ run_threw r = false)
  ∧ (∀ issue, rv_state review = "CHANGES_REQUESTED" → findByPR pr sm = Some issue →
       run_effects r =
         [PostIssueComment (JStr owner) (JStr repo) (issueNumber issue)
            (msgFeedback (rv_body review))])
  ∧ (∀ k unit, (k, unit) ∈ activeIssues (run_state r) →
       (k, unit) ∈ activeIssues sm ∨ status unit = iterating).
Proof.
  intros r. unfold r, handlePRReview.
  destruct (findByPR pr sm) as [issue|] eqn:Hfind.
  2:{ simpl. split_and!; try done. intros; by left. }
  destruct (String.eqb (rv_state review) "CHANGES_REQUESTED") eqn:Hst.
  - apply String.eqb_eq in Hst. cbn [run_state run_effects run_threw].
    split_and!.
    + apply keys_updateIssueStatus.
    + apply max_updateIssueStatus.
    + intros [?|?]; done.
    + by intros ? _ [= ->].
    + intros k unit Hin. unfold updateIssueStatus in Hin.
      destruct (getIssue _ _ _ sm); [|by left].
      cbn [activeIssues with_issues] in Hin.
      apply elem_update in Hin as (v & Hv & [E|E]); cbn [fst snd] in *; subst.
      * by left.
      * by right.
  - apply String.eqb_neq in Hst. cbn [run_state run_effects run_threw].
    split_and!; try done. intros; by left.
Qed.

Lemma fold_checkStale_live probe (l : list ActiveIssue) sm log :
  (∀ issue, issue ∈ l → ¬ dead_status (p_status (probe (containerId issue)))) →
  foldl (checkStale probe) (sm, log) l =
  (sm, log ++ ((λ issue, GetContainerStatus (containerId issue)) <$> l)).
Proof.
  revert log. induction l as [|x l IH]; intros log Hlive.
  - simpl. by rewrite app_nil_r.
  - change (foldl (checkStale probe) (sm, log) (x :: l)) with
      (foldl (checkStale probe) (checkStale probe (sm, log) x) l).
    assert (Hx : String.eqb (p_status (probe (containerId x))) "exited"
                 || String.eqb (p_status (probe (containerId x))) "dead" = false).
    { destruct (String.eqb _ "exited" || String.eqb _ "dead") eqn:E; [|done].
      exfalso. apply (Hlive x); [apply elem_of_cons; by left|].
      apply orb_true_iff in E as [E|E]; apply String.eqb_eq in E; [by left|by right]. }
    unfold checkStale at 2. rewrite Hx. rewrite IH.
    + by rewrite <- app_assoc.
    + intros i Hi. apply Hlive. apply elem_of_cons. by right.
Qed.

(** X9.  The health check only acts on a crash.  If the container of every
    stale unit is reported in a state other than [exited] and [dead] (this
    includes [unknown], the answer when the inspection itself fails), the
    check leaves the registry untouched and posts no comment: all it does is
    inspect the container of each stale unit once, in registry order. *)
Theorem health_check_spares_live_units
    (now : Z) (probe : string → Probe) (sm : StateManager.t) :
  (∀ issue, issue ∈ getStaleIssues now defaultHeartbeatTimeoutMs sm →
     ¬ dead_status (p_status (probe (containerId issue)))) →
  run_state (healthCheck now probe sm) = sm
  ∧ run_effects (healthCheck now probe sm) =
      (λ issue, GetContainerStatus (containerId issue))
        <$> getStaleIssues now defaultHeartbeatTimeoutMs sm
  ∧ run_threw (healthCheck now probe sm) = false.
Proof.
  intros Hlive. unfold healthCheck. by rewrite fold_checkStale_live.
Qed.

End HandlerOutcomes.

Lemma full_registry_reports_queue_position_witness :
  Orchestrator.run_effects
    (Orchestrator.handleIssueTriggered Samples.calm
       (Orchestrator.IssueObject Samples.issue8) (JNum 900) Samples.fullHouse)
  = [Orchestrator.PostIssueComment (JStr "alice") (JStr "proj") (JNum 8)
       (Orchestrator.msgQueueFull 1)]
  ∧ Orchestrator.run_state
      (Orchestrator.handleIssueTriggered Samples.calm
         (Orchestrator.IssueObject Samples.issue8) (JNum 900) Samples.fullHouse)
    = Samples.fullHouse.
Proof.
  destruct (full_registry_reports_queue_position Samples.calm
              (Orchestrator.IssueObject Samples.issue8) (JNum 900) Samples.fullHouse)
    as (_ & H1 & H2).
  - vm_compute. reflexivity.
  - vm_compute. reflexivity.
  - split; [exact H2 | exact H1].
Defined.

Lemma failed_start_registers_nothing_witness :
  Orchestrator.run_state
    (Orchestrator.handleIssueTriggered Samples.dockerDown
       (Orchestrator.IssueObject Samples.issue8) (JNum 900) Samples.oneUnit)
  = Samples.oneUnit
  ∧ Orchestrator.run_threw
      (Orchestrator.handleIssueTriggered Samples.dockerDown
         (Orchestrator.IssueObject Samples.issue8) (JNum 900) Samples.oneUnit)
    = false.
Proof.
  destruct (failed_start_registers_nothing Samples.dockerDown
              (Orchestrator.IssueObject Samples.issue8) (JNum 900) Samples.oneUnit
              "Error: Failed to start container: Error: connect ENOENT")
    as (H1 & H2 & _).
  - vm_compute. reflexivity.
  - vm_compute. reflexivity.
  - intros body. reflexivity.
  - intros unit. reflexivity.
  - split; [exact H1 | exact H2].
Defined.

Lemma started_unit_is_registered_witness :
  JsMap.size
    (StateManager.activeIssues
       (Orchestrator.run_state
          (Orchestrator.handleIssueTriggered Samples.calm
             (Orchestrator.IssueObject Samples.issue8) (JNum 900) Samples.oneUnit)))
  = JsMap.size (StateManager.activeIssues Samples.oneUnit) + 1.
Proof.
  destruct (started_unit_is_registered Samples.calm
              (Orchestrator.IssueObject Samples.issue8) (JNum 900) Samples.oneUnit "c1")
    as (_ & _ & H & _).
  - vm_compute. reflexivity.
  - vm_compute. reflexivity.
  - intros body. reflexivity.
  - intros unit. reflexivity.
  - exact H.
Defined.

Lemma review_only_marks_iterating_witness :
  Orchestrator.run_effects
    (Orchestrator.handlePRReview Samples.calm "alice" "proj" 5 Samples.changesRequested
       Samples.oneUnitWithPR)
  = [Orchestrator.PostIssueComment (JStr "alice") (JStr "proj") (JNum 7)
       (Orchestrator.msgFeedback "Please add a test")]
  ∧ Orchestrator.run_state
      (Orchestrator.handlePRReview Samples.calm "alice" "proj" 6 Samples.changesRequested
         Samples.oneUnitWithPR)
    = Samples.oneUnitWithPR.
Proof.
  split.
  - destruct (review_only_marks_iterating Samples.calm "alice" "proj" 5
                Samples.changesRequested Samples.oneUnitWithPR) as (_ & _ & _ & H & _).
    apply (H Samples.unit7pr); reflexivity.
  - destruct (review_only_marks_iterating Samples.calm "alice" "proj" 6
                Samples.changesRequested Samples.oneUnitWithPR) as (_ & _ & H & _).
    apply H. right. reflexivity.
Defined.

Lemma health_check_spares_live_units_witness :
  Orchestrator.run_state
    (Orchestrator.healthCheck Samples.elevenMinutes (Samples.allUnknown 0) Samples.oneUnit)
  = Samples.oneUnit
  ∧ Orchestrator.run_effects
      (Orchestrator.healthCheck Samples.elevenMinutes (Samples.allUnknown 0)
         Samples.oneUnit)
    = [Orchestrator.GetContainerStatus "c1"].
Proof.
  destruct (health_check_spares_live_units Samples.elevenMinutes (Samples.allUnknown 0)
              Samples.oneUnit) as (H1 & H2 & _).
  - intros issue _ [H|H]; discriminate H.
  - split; [exact H1 | exact H2].
Defined.

(** ** The poller and the state of its handlers *)

Section HandlerState.
Import GitHubPoller Props.
Context {St : Type} (hs : PollerHandlers St) (P : St → Prop).
Hypothesis Hkept : kept_by hs P.

Lemma kept_emitTrigger repo n s : P (hstate s) → P (hstate (emitTrigger hs repo n s).1).
Proof.
  intros HP. unfold emitTrigger.
  pose proof (proj1 Hkept (rc_owner repo) (rc_name repo) n (triggerComment repo)
                (hstate s) HP) as H.
  by destruct (onIssueTriggered hs _ _ _ _ _).
Qed.

Lemma kept_emitClosed repo n s : P (hstate s) → P (hstate (emitClosed hs repo n s).1).
Proof.
  intros HP. unfold emitClosed.
  pose proof (proj1 (proj2 Hkept) (rc_owner repo) (rc_name repo) n (hstate s) HP) as H.
  by destruct (onPRClosed hs _ _ _ _).
Qed.

Lemma kept_emitReview repo n rv s :
  P (hstate s) → P (hstate (emitReview hs repo n rv s).1).
Proof.
  intros HP. unfold emitReview.
  pose proof (proj2 (proj2 Hkept) (rc_owner repo) (rc_name repo) n rv (hstate s) HP) as H.
  by destruct (onPRReview hs _ _ _ _ _).
Qed.

Lemma kept_initCommentTracking k (s : Sys St) :
  P (hstate s) → P (hstate (initCommentTracking k s)).
Proof. unfold initCommentTracking. by destruct (_ !! _). Qed.

Lemma kept_scanNewIssues repo issues s :
  P (hstate s) → P (hstate (scanNewIssues hs repo issues s).1).
Proof.
  revert s. induction issues as [|issue rest IH]; intros s HP; [done|].
  simpl. destruct (ai_pull_request issue); [by apply IH|].
  destruct (isTriggerComment _ repo).
  - pose proof (kept_emitTrigger repo (ai_number issue) s HP) as H.
    destruct (emitTrigger hs repo (ai_number issue) s) as [s1 [|]]; [|done].
    apply IH. by apply kept_initCommentTracking.
  - apply IH. by apply kept_initCommentTracking.
Qed.

Lemma kept_pollNewIssues repo dateNow response now s :
  P (hstate s) → P (hstate (pollNewIssues hs repo dateNow response now s)).
Proof.
  intros HP. unfold pollNewIssues. destruct response as [issues|]; [|done].
  pose proof (kept_scanNewIssues repo issues (issuesRequested repo dateNow s) HP) as H.
  destruct (scanNewIssues hs repo issues _) as [s1 [|]]; done.
Qed.

Lemma kept_scanComments repo n lastId comments s :
  P (hstate s) → P (hstate (scanComments hs repo n lastId comments s).1).
Proof.
  revert s. induction comments as [|c rest IH]; intros s HP; [done|].
  simpl. destruct (ac_id c <=? lastId); [by apply IH|].
  destruct (isBotUser _); [by apply IH|].
  destruct (isTriggerComment _ repo); [|by apply IH].
  pose proof (kept_emitTrigger repo n s HP) as H.
  destruct (emitTrigger hs repo n s) as [s1 [|]]; [|done]. by apply IH.
Qed.

Lemma kept_checkIssueComments repo (acc : gmap Z Z * Sys St) item :
  P (hstate acc.2) → P (hstate (checkIssueComments hs repo acc item).2).
Proof.
  destruct acc as [marks s], item as [issue response]. cbn [snd]. intros HP.
  unfold checkIssueComments.
  destruct (ai_pull_request issue); [done|].
  destruct (isBotUser _); [done|].
  destruct response as [comments|]; [|done].
  pose proof (kept_scanComments repo (ai_number issue)
                (getOr (marks !! ai_number issue) 0) comments
                (commentsRequested repo (ai_number issue)
                   (getOr (marks !! ai_number issue) 0) s) HP) as H.
  destruct (scanComments hs repo _ _ comments _) as [s1 [|]]; [|done].
  by destruct comments.
Qed.

Lemma kept_pollIssueComments repo response s :
  P (hstate s) → P (hstate (pollIssueComments hs repo response s)).
Proof.
  intros HP. unfold pollIssueComments. destruct response as [items|]; [|done].
  assert (H : ∀ l acc, P (hstate acc.2) →
                P (hstate (foldl (checkIssueComments hs repo) acc l).2)).
  { induction l as [|x l IH]; intros acc Hacc; [done|].
    change (foldl (checkIssueComments hs repo) acc (x :: l)) with
      (foldl (checkIssueComments hs repo) (checkIssueComments hs repo acc x) l).
    apply IH. by apply kept_checkIssueComments. }
  specialize (H items (default ∅ (lastCommentCheck (poller s) !! repoKeyOf repo),
                       log (ListOpenIssues (rc_owner repo) (rc_name repo)) s) HP).
  by destruct (foldl _ _ items).
Qed.

Lemma kept_scanReviews repo pr lastId reviews s :
  P (hstate s) → P (hstate (scanReviews hs repo pr lastId reviews s).1).
Proof.
  revert s. induction reviews as [|rv rest IH]; intros s HP; [done|].
  simpl. destruct (ar_id rv <=? lastId); [by apply IH|].
  destruct (isBotUser _); [by apply IH|].
  destruct (String.eqb _ "CHANGES_REQUESTED" || String.eqb _ "COMMENTED");
    [|by apply IH].
  pose proof (kept_emitReview repo pr (reviewEvent rv) s HP) as H.
  destruct (emitReview hs repo pr (reviewEvent rv) s) as [s1 [|]]; [|done].
  by apply IH.
Qed.

Lemma kept_pollPRReviews repo pr response s :
  P (hstate s) → P (hstate (pollPRReviews hs repo pr response s)).
Proof.
  intros HP. unfold pollPRReviews. destruct response as [reviews|]; [|done].
  pose proof (kept_scanReviews repo (ap_number pr)
                (getOr (knownReviews (poller s) !! prKeyOf repo (ap_number pr)) 0)
                reviews (reviewsRequested repo (ap_number pr) s) HP) as H.
  destruct (scanReviews hs repo _ _ reviews _) as [s1 [|]]; [|done].
  by destruct reviews.
Qed.

Lemma kept_scanPulls repo pulls s :
  P (hstate s) → P (hstate (scanPulls hs repo pulls s).1).
Proof.
  revert s. induction pulls as [|[pr response] rest IH]; intros s HP; [done|].
  simpl. destruct (negb (startsWith _ _)); [by apply IH|].
  pose proof (kept_pollPRReviews repo pr response
                (with_poller s (add_knownPR (prKeyOf repo (ap_number pr)) (poller s)))
                HP) as H2.
  destruct (String.eqb (ap_state pr) "closed"); [|by apply IH].
  pose proof (kept_emitClosed repo (ap_number pr) _ H2) as H3.
  destruct (emitClosed hs repo (ap_number pr) _) as [s3 [|]]; [|done].
  by apply IH.
Qed.

Lemma kept_pollRepo repo rw s : P (hstate s) → P (hstate (pollRepo hs repo rw s)).
Proof.
  intros HP. unfold pollRepo, pollOurPRs.
  pose proof (kept_pollIssueComments repo (openIssues rw) _
                (kept_pollNewIssues repo (dateNow rw) (issuesSince rw) (scannedAt rw)
                   s HP)) as H2.
  destruct (pulls rw) as [prs|]; [|done].
  by apply kept_scanPulls.
Qed.

Lemma kept_pollAll repos rate (world : RepoConfig → RepoWorld) s :
  P (hstate s) → P (hstate (pollAll hs repos rate world s)).
Proof.
  intros HP. unfold pollAll.
  destruct (checkRateLimit rate (poller (log GetRateLimit s))) as [p proceed].
  destruct proceed; [|done]. cbn [negb].
  assert (H : ∀ l acc, P (hstate acc) →
                P (hstate (foldl (λ acc repo, pollRepo hs repo (world repo) acc) acc l))).
  { induction l as [|x l IH]; intros acc Hacc; [done|].
    simpl. apply IH. by apply kept_pollRepo. }
  by apply H.
Qed.

End HandlerState.



(** ** Polling mode *)

Section PollingMode.
Import StateManager Orchestrator GitHubPoller Props.

Lemma manager_rejects_undefined_owner timestamp rest issue :
  repoOwner issue = JUndefined →
  ∃ err, ContainerManager.startAgentContainer timestamp rest issue = Rejected err.
Proof.
  intros Ho. unfold ContainerManager.startAgentContainer,
    ContainerManager.generateContainerName. rewrite Ho. simpl. eauto.
Qed.

Lemma polled_trigger_unchanged w owner repo sm :
  starts_by_manager w →
  run_state (handleIssueTriggered w (IssueString owner) (JStr repo) sm) = sm.
Proof.
  intros (timestamp & rest & Hstart). unfold handleIssueTriggered.
  cbn [issue_owner issue_repo issue_number issue_title issue_body].
  destruct (isIssueActive _ _ _ sm); [done|].
  destruct (canStartNew sm); cbn [negb]; [|done].
  destruct (postIssueComment w _ _ _ _); [|done].
  rewrite Hstart.
  by edestruct manager_rejects_undefined_owner as [err ->]; [reflexivity|].
Qed.

(** X11.  A trigger reported by the poller never registers a unit.  The
    poller passes the owner string where the handler expects the issue
    object, so owner, repository and number of the unit are [undefined];
    the container manager fails on the owner before it asks Docker for
    anything, and the handler leaves the registry as it was.  Every call the
    handler makes meanwhile is addressed to [undefined/undefined#undefined],
    and there is at least one. *)
Theorem polled_trigger_never_registers
    (w : World) (owner repo : string) (sm : StateManager.t) :
  starts_by_manager w →
  let r := handleIssueTriggered w (IssueString owner) (JStr repo) sm in
  run_state r = sm
  ∧ run_effects r ≠ []
  ∧ Forall (λ e, addressedToUndefined e = true) (run_effects r).
Proof.
  intros (timestamp & rest & Hstart) r. unfold r, handleIssueTriggered.
  cbn [issue_owner issue_repo issue_number issue_title issue_body].
  destruct (isIssueActive _ _ _ sm).
  { cbn [run_state run_effects]. split_and!; [done|done|]. by repeat constructor. }
  destruct (canStartNew sm); cbn [negb].
  2:{ cbn [run_state run_effects]. split_and!; [done|done|]. by repeat constructor. }
  destruct (postIssueComment w _ _ _ _).
  - rewrite Hstart.
    edestruct manager_rejects_undefined_owner as [err ->]; [reflexivity|].
    unfold startFailed. cbn [run_state run_effects].
    split_and!; [done|done|]. by repeat constructor.
  - unfold startFailed. cbn [run_state run_effects].
    split_and!; [done|done|]. by repeat constructor.
Qed.

(** X12.  In polling mode the registry stays empty.  With the bound
    handlers of the orchestrator and containers started by the container
    manager, a poller that begins on an empty registry leaves it empty
    after any number of cycles: triggers register nothing, and closures and
    reviews find no unit to act on. *)
Theorem polling_mode_registry_stays_empty
    (worlds : nat → World) (repos : list RepoConfig)
    (cycles : list (Result RateInfo * (RepoConfig → RepoWorld)))
    (limit : Z) (s : Sys Polling.Core) :
  (∀ n, starts_by_manager (worlds n)) →
  Polling.registry (hstate s) = StateManager.new limit →
  Polling.registry (hstate (runCycles (Polling.handlers worlds) repos cycles s))
    = StateManager.new limit.
Proof.
  intros Hworlds.
  assert (Hkept : kept_by (Polling.handlers worlds)
                    (λ c, Polling.registry c = StateManager.new limit)).
  2:{ revert s. induction cycles as [|c cycles IH]; intros s Hempty; [done|].
      change (runCycles (Polling.handlers worlds) repos (c :: cycles) s) with
        (runCycles (Polling.handlers worlds) repos cycles
           (pollAll (Polling.handlers worlds) repos c.1 c.2 s)).
      apply IH. by apply (kept_pollAll (Polling.handlers worlds) _ Hkept). }
  split_and!; intros until h; intros HP.
  - change (run_state (handleIssueTriggered (worlds (Polling.runs h))
                         (IssueString owner) (JStr repo) (Polling.registry h))
            = StateManager.new limit).
    rewrite polled_trigger_unchanged; [done|apply Hworlds].
  - change (run_state (handlePRClosed (worlds (Polling.runs h)) owner repo pr
                         (Polling.registry h)) = StateManager.new limit).
    by rewrite HP.
  - change (run_state (handlePRReview (worlds (Polling.runs h)) owner repo pr review
                         (Polling.registry h)) = StateManager.new limit).
    by rewrite HP.
Qed.

End PollingMode.

Lemma managed_starts_by_manager : Props.starts_by_manager Samples.managed.
Proof. exists 1000, (λ _ _, Resolved "c1"). intros issue. reflexivity. Qed.

Lemma polled_trigger_never_registers_witness :
  Orchestrator.run_state
    (Orchestrator.handleIssueTriggered Samples.managed
       (Orchestrator.IssueString "alice") (JStr "proj") (StateManager.new 2))
  = StateManager.new 2
  ∧ Orchestrator.run_effects
      (Orchestrator.handleIssueTriggered Samples.managed
         (Orchestrator.IssueString "alice") (JStr "proj") (StateManager.new 2))
    ≠ [].
Proof.
  destruct (polled_trigger_never_registers Samples.managed "alice" "proj"
              (StateManager.new 2)) as (H1 & H2 & _).
  - apply managed_starts_by_manager.
  - split; [exact H1 | exact H2].
Defined.

Lemma polling_mode_registry_stays_empty_witness :
  Polling.registry
    (GitHubPoller.hstate
       (GitHubPoller.runCycles (Polling.handlers (λ _, Samples.managed))
          [Samples.repoAlice]
          [(Resolved Samples.fullBudget, Samples.triggerCycle)]
          (GitHubPoller.mkSys (GitHubPoller.new 0) Samples.idleCore [])))
  = StateManager.new 2
  ∧ GitHubPoller.IssueTriggeredCall "alice" "proj" 7 "@agent"
    ∈ GitHubPoller.trace
        (GitHubPoller.runCycles (Polling.handlers (λ _, Samples.managed))
           [Samples.repoAlice]
           [(Resolved Samples.fullBudget, Samples.triggerCycle)]
           (GitHubPoller.mkSys (GitHubPoller.new 0) Samples.idleCore [])).
Proof.
  split.
  - apply (polling_mode_registry_stays_empty (λ _, Samples.managed)).
    + intros n. apply managed_starts_by_manager.
    + reflexivity.
  - vm_compute. apply elem_of_cons. right. apply elem_of_cons. right.
    apply elem_of_cons. by left.
Defined.

(** ** The webhook route *)

Section WebhookRoute.
Import StateManager Orchestrator GitHubClient WebhookServer Props.

Lemma truthy_Some (v : option string) :
  truthy v = true → ∃ s, v = Some s ∧ s ≠ "".
Proof.
  destruct v as [s|]; [|done]. simpl. intros H. exists s. split; [done|].
  intros ->. done.
Qed.

(** X13.  The webhook route acts on a delivery only when the
    [x-hub-signature-256] header is exactly ["sha256="] followed by the
    HMAC of the raw body.  With any other header, or none, the registry is
    untouched, no collaborator is called, and the answer is 401 or, when
    the header differs from the digest in length, no answer at all.  With
    the right header a parsed delivery is dispatched, and the answer is 202
    unless the handler threw. *)
Theorem webhook_acts_only_on_signed_deliveries
    (w : World) (repos : list RepoConfig) (hmacSha256Hex : string → string)
    (req : Request) (sm : StateManager.t) :
  let digest := "sha256=" +:+ hmacSha256Hex (rawBody req) in
  (signatureHeader req ≠ Some digest →
     ∃ response,
       handleGitHubWebhook w repos hmacSha256Hex req sm = (sm, [], response)
       ∧ (response = Status 401 ∨ ∃ err, response = Unanswered err))
  ∧ (signatureHeader req = Some digest →
     ∀ d, parsedBody req = Resolved d →
       handleGitHubWebhook w repos hmacSha256Hex req sm =
       (run_state (processWebhookEvent w repos d sm),
        run_effects (processWebhookEvent w repos d sm),
        if run_threw (processWebhookEvent w repos d sm) then Status 500
        else Status 202)).
Proof.
  intros digest. split.
  - intros Hne. unfold handleGitHubWebhook.
    destruct (truthy (signatureHeader req)) eqn:Htr; cbn [negb].
    2:{ eexists. split; [done|by left]. }
    apply truthy_Some in Htr as (s & Hs & _). rewrite Hs in *.
    change (default "" (Some s)) with s.
    unfold verifyWebhookSignature. fold digest.
    destruct (Nat.eqb _ _).
    + destruct (String.eqb s digest) eqn:Heq.
      * apply String.eqb_eq in Heq. congruence.
      * eexists. split; [done|by left].
    + eexists. split; [done|]. right. eauto.
  - intros Hsig d Hd. unfold handleGitHubWebhook. rewrite Hsig, Hd.
    change (default "" (Some digest)) with digest.
    assert (Htr : truthy (Some digest) = true) by done. rewrite Htr. cbn [negb].
    unfold verifyWebhookSignature. fold digest.
    rewrite Nat.eqb_refl, String.eqb_refl. done.
Qed.

(** X14.  A review delivery changes something only when it requests
    changes, comes from a login that does not look like a bot, and concerns
    a pull request some unit carries.  Every other review delivery, a plain
    comment review included, leaves the registry as it was and calls no
    collaborator. *)
Theorem review_delivery_acts_only_on_changes_requested
    (w : World) (review : HookReview) (prNumber : Z) (repository : HookRepository)
    (sm : StateManager.t) :
  hv_state review ≠ "CHANGES_REQUESTED"
  ∨ isBotComment (hv_userLogin review) = true
  ∨ findByPR prNumber sm = None →
  handlePullRequestReviewEvent w review prNumber repository sm = nothing sm.
Proof.
  intros Hcase. unfold handlePullRequestReviewEvent, handlePRReview.
  destruct (negb (String.eqb (hv_state review) "CHANGES_REQUESTED")
            && negb (String.eqb (hv_state review) "COMMENTED")); [done|].
  destruct (isBotComment (hv_userLogin review)) eqn:Hbot; [done|].
  cbn [rv_state rv_body].
  destruct (findByPR prNumber sm) eqn:Hfind; [|done].
  destruct (String.eqb (hv_state review) "CHANGES_REQUESTED") eqn:Hst; [|done].
  apply String.eqb_eq in Hst. by destruct Hcase as [?|[?|?]].
Qed.

(** X15.  Issues opened or edited by, and comments written by, a login
    that [isBotComment] recognises never trigger anything: the delivery is
    dropped before a handler or a reaction is reached. *)
Theorem trigger_from_bot_is_ignored
    (w : World) (repos : list RepoConfig) (sm : StateManager.t) :
  (∀ action issue repository,
     isBotComment (hi_userLogin issue) = true →
     processWebhookEvent w repos (IssuesEvent action issue repository) sm = nothing sm)
  ∧ (∀ action comment issue repository,
       isBotComment (hc_userLogin comment) = true →
       processWebhookEvent w repos (IssueCommentEvent action comment issue repository) sm
       = nothing sm).
Proof.
  split.
  - intros action issue repository Hbot. cbn [processWebhookEvent].
    unfold handleIssuesEvent. rewrite Hbot.
    destruct (negb _ && negb _); [done|].
    destruct (getRepoConfig _ _ repos); [|done].
    by rewrite andb_false_r.
  - intros action comment issue repository Hbot. cbn [processWebhookEvent].
    unfold handleIssueCommentEvent. rewrite Hbot.
    by destruct (negb _).
Qed.

Lemma isTriggerComment_any body repos repo :
  repo ∈ repos → enabled repo = true →
  includes (toLowerCase body) (toLowerCase (triggerComment repo)) = true →
  isTriggerComment body repos = true.
Proof.
  intros Hin Hen Hinc. unfold isTriggerComment. apply existsb_exists.
  exists repo. split; [by apply list_elem_of_In|]. by rewrite Hen, Hinc.
Qed.

(** X16.  In webhook mode the phrases are not tied to their repositories.
    A new comment in any configured repository triggers the agent as soon
    as it contains the phrase of some enabled repository of the
    configuration, its own or another one: the comment gets the eyes
    reaction and the trigger handler runs on the issue. *)
Theorem webhook_accepts_phrase_of_any_repo
    (w : World) (repos : list RepoConfig) (comment : HookComment) (issue : HookIssue)
    (repository : HookRepository) (other : RepoConfig) (sm : StateManager.t) :
  is_Some (getRepoConfig (hr_ownerLogin repository) (hr_name repository) repos) →
  isBotComment (hc_userLogin comment) = false →
  other ∈ repos →
  enabled other = true →
  includes (toLowerCase (hc_body comment)) (toLowerCase (triggerComment other)) = true →
  let r := handleIssueCommentEvent w repos "created" comment issue repository sm in
  let t := handleIssueTriggered w (triggerObject issue repository)
             (JNum (hc_id comment)) sm in
  run_state r = run_state t
  ∧ run_effects r =
      AddReaction (JStr (hr_ownerLogin repository)) (JStr (hr_name repository))
        (JNum (hc_id comment)) "eyes" :: run_effects t.
Proof.
  intros [cfg Hcfg] Hbot Hin Hen Hinc r t. unfold r, handleIssueCommentEvent.
  change (negb (String.eqb "created" "created")) with false. cbn iota.
  rewrite Hbot, Hcfg, (isTriggerComment_any _ _ other Hin Hen Hinc). done.
Qed.

End WebhookRoute.

Lemma webhook_acts_only_on_signed_deliveries_witness :
  ∃ response,
    WebhookServer.handleGitHubWebhook Samples.calm [Samples.repoAlice] Samples.toyHmac
      Samples.forged Samples.oneUnitWithPR
    = (Samples.oneUnitWithPR, [], response).
Proof.
  destruct (webhook_acts_only_on_signed_deliveries Samples.calm [Samples.repoAlice]
              Samples.toyHmac Samples.forged Samples.oneUnitWithPR) as [H _].
  destruct H as (response & H & _).
  - vm_compute. discriminate.
  - exists response. exact H.
Defined.

Lemma review_delivery_acts_only_on_changes_requested_witness :
  WebhookServer.handlePullRequestReviewEvent Samples.calm Samples.commentReview 5
    Samples.hookRepo Samples.oneUnitWithPR
  = WebhookServer.nothing Samples.oneUnitWithPR.
Proof.
  apply review_delivery_acts_only_on_changes_requested.
  left. vm_compute. discriminate.
Defined.

Lemma trigger_from_bot_is_ignored_witness :
  WebhookServer.processWebhookEvent Samples.calm [Samples.repoAlice]
    (WebhookServer.IssueCommentEvent "created" Samples.appComment Samples.hookIssue7
       Samples.hookRepo)
    Samples.oneUnit
  = WebhookServer.nothing Samples.oneUnit.
Proof.
  apply (proj2 (trigger_from_bot_is_ignored Samples.calm [Samples.repoAlice]
                  Samples.oneUnit)).
  vm_compute. reflexivity.
Defined.

Lemma webhook_accepts_phrase_of_any_repo_witness :
  Orchestrator.run_effects
    (WebhookServer.handleIssueCommentEvent Samples.calm
       [Samples.repoAlice; Samples.repoBob] "created" Samples.helperComment
       Samples.hookIssue7 Samples.hookRepo (StateManager.new 2))
  = Orchestrator.AddReaction (JStr "alice") (JStr "proj") (JNum 900) "eyes"
    :: Orchestrator.run_effects
         (Orchestrator.handleIssueTriggered Samples.calm
            (WebhookServer.triggerObject Samples.hookIssue7 Samples.hookRepo)
            (JNum 900) (StateManager.new 2)).
Proof.
  destruct (webhook_accepts_phrase_of_any_repo Samples.calm
              [Samples.repoAlice; Samples.repoBob] Samples.helperComment
              Samples.hookIssue7 Samples.hookRepo Samples.repoBob (StateManager.new 2))
    as [_ H].
  - vm_compute. eauto.
  - vm_compute. reflexivity.
  - apply elem_of_cons. right. apply elem_of_cons. by left.
  - reflexivity.
  - vm_compute. reflexivity.
  - exact H.
Defined.

(** ** Trigger phrases and bot logins *)

Section StringFacts.



Lemma endsWith_spec (s p : string) :
  endsWith s p = true ↔ ∃ pre, s = pre +:+ p.
Proof.
  induction s as [|c s IH].
  - cbn [endsWith]. rewrite orb_false_r, String.eqb_eq. split.
    + intros <-. by exists "".
    + intros [pre H]. destruct pre; [done|done].
  - cbn [endsWith]. rewrite orb_true_iff, String.eqb_eq, IH. split.
    + intros [<-|[pre H]]; [by exists ""|]. exists (String c pre). by rewrite H.
    + intros [pre H]. destruct pre as [|a pre].
      * by left.
      * right. exists pre. by injection H.
Qed.

Lemma append_assoc_s (a b c : string) : (a +:+ b) +:+ c = a +:+ (b +:+ c).
Proof.
  induction a as [|x a IH]; [done|].
  change (String x ((a +:+ b) +:+ c) = String x (a +:+ (b +:+ c))). by rewrite IH.
Qed.

Lemma endsWith_trans (s p q : string) :
  endsWith s p = true → endsWith p q = true → endsWith s q = true.
Proof.
  rewrite !endsWith_spec. intros [pre ->] [pre' ->].
  exists (pre +:+ pre'). by rewrite append_assoc_s.
Qed.


End StringFacts.

Section TriggerFacts.
Import GitHubClient.


(** X18.  [getMatchedTrigger] agrees with [isTriggerComment]: it returns
    a phrase exactly when the body triggers, and the phrase it returns is
    the configured phrase, in its configured spelling, of the first enabled
    repository in configuration order whose phrase the body contains. *)
Theorem getMatchedTrigger_is_first_match (body : string) (repos : list RepoConfig) :
  (is_Some (getMatchedTrigger body repos) ↔ isTriggerComment body repos = true)
  ∧ (∀ phrase, getMatchedTrigger body repos = Some phrase →
       ∃ before repo after,
         repos = before ++ repo :: after
         ∧ phrase = triggerComment repo
         ∧ enabled repo = true
         ∧ includes (toLowerCase body) (toLowerCase (triggerComment repo)) = true
         ∧ isTriggerComment body before = false).
Proof.
  split.
  - unfold isTriggerComment. induction repos as [|repo rest IH]; simpl.
    + split; [by intros [? ?]|done].
    + destruct (enabled repo && includes _ _); simpl; [|done].
      split; [done|]. intros _. eauto.
  - induction repos as [|repo rest IH]; intros phrase; simpl; [done|].
    destruct (enabled repo && includes _ _) eqn:Hm.
    + intros [= <-]. apply andb_true_iff in Hm as [Hen Hinc].
      by exists [], repo, rest.
    + intros Hrest. destruct (IH phrase Hrest) as (before & r & after & -> & ? & ? & ? & Hb).
      exists (repo :: before), r, after. split_and!; try done.
      unfold isTriggerComment in *. simpl. by rewrite Hm.
Qed.

End TriggerFacts.

Section BotFacts.
Import GitHubClient.

Lemma existsb_endsWith_weaken (l : string) (ps qs : list string) :
  (∀ p, p ∈ ps → ∃ q, q ∈ qs ∧ endsWith p q = true) →
  existsb (λ p, endsWith l p) ps = true → existsb (λ q, endsWith l q) qs = true.
Proof.
  intros Hsub. rewrite !existsb_exists. intros (p & Hin & Hp).
  apply list_elem_of_In in Hin. destruct (Hsub p Hin) as (q & Hq & Hpq).
  exists q. split; [by apply list_elem_of_In|]. by apply (endsWith_trans _ p).
Qed.

(** X19.  The three bot tests of the system compared.  The webhook
    server's [isBotComment] holds exactly for logins that end, letter case
    aside, in ["bot"], ["[bot]"] or ["agent"]; its other two suffixes add
    nothing.  The poller's [isBotUser] is the same test on a non-empty
    login and holds for a missing or empty one.  The agent's own
    [isBotUser] lacks the bare ["bot"] suffix, so whatever the agent takes
    for a bot the orchestrator does too. *)
Theorem bot_tests_compared (login : string) :
  (isBotComment login =
     endsWith (toLowerCase login) "bot"
     || endsWith (toLowerCase login) "[bot]"
     || endsWith (toLowerCase login) "agent")
  ∧ (login ≠ "" → GitHubPoller.isBotUser (Some login) = isBotComment login)
  ∧ GitHubPoller.isBotUser (Some "") = true
  ∧ GitHubPoller.isBotUser None = true
  ∧ (Agent.isBotUser (Some login) = true → GitHubPoller.isBotUser (Some login) = true).
Proof.
  split_and!.
  - unfold isBotComment, botSuffixes. cbn [existsb]. rewrite orb_false_r.
    set (l := toLowerCase login).
    destruct (endsWith l "-bot") eqn:H1.
    { rewrite (endsWith_trans l "-bot" "bot" H1 eq_refl).
      by destruct (endsWith l "[bot]"). }
    destruct (endsWith l "ai-agent") eqn:H2.
    { rewrite (endsWith_trans l "ai-agent" "agent" H2 eq_refl).
      destruct (endsWith l "[bot]"), (endsWith l "bot"); done. }
    destruct (endsWith l "[bot]"), (endsWith l "bot"), (endsWith l "agent"); done.
  - intros Hne. unfold GitHubPoller.isBotUser, isBotComment.
    destruct (String.eqb login "") eqn:E; [by apply String.eqb_eq in E|done].
  - done.
  - done.
  - unfold Agent.isBotUser, GitHubPoller.isBotUser.
    destruct (String.eqb login ""); [done|].
    apply existsb_endsWith_weaken. intros p Hp. exists p. split.
    + unfold Agent.botPatterns in Hp. unfold GitHubPoller.botPatterns.
      repeat (apply elem_of_cons in Hp as [->|Hp];
              [repeat (first [by apply list_elem_of_here | apply list_elem_of_further])|]).
      by apply elem_of_nil in Hp.
    + apply endsWith_spec. by exists "".
Qed.

End BotFacts.


Lemma getMatchedTrigger_is_first_match_witness :
  ∃ before repo after,
    [Samples.repoAlice; Samples.repoBob] = before ++ repo :: after
    ∧ "@helper" = triggerComment repo
    ∧ GitHubClient.isTriggerComment "@Helper take this one" before = false.
Proof.
  destruct (proj2 (getMatchedTrigger_is_first_match "@Helper take this one"
                     [Samples.repoAlice; Samples.repoBob]) "@helper")
    as (before & repo & after & H1 & H2 & _ & _ & H3).
  - vm_compute. reflexivity.
  - exists before, repo, after. split; [exact H1|]. split; [exact H2 | exact H3].
Defined.

Lemma bot_tests_compared_witness :
  GitHubPoller.isBotUser (Some "Abbot") = GitHubClient.isBotComment "Abbot".
Proof.
  apply (proj1 (proj2 (bot_tests_compared "Abbot"))).
  discriminate.
Defined.

(** ** Batches seen before *)

Section SeenBefore.
Import GitHubPoller Props.
Context {St : Type} (hs : PollerHandlers St).

Lemma max_list_ge_head (x : Z) (xs : list Z) : x ≤ max_list x xs.
Proof.
  unfold max_list. revert x. induction xs as [|y xs IH]; intros x; simpl; [lia|].
  specialize (IH (Z.max x y)). lia.
Qed.

Lemma max_list_ge (x : Z) (xs : list Z) (y : Z) : y ∈ x :: xs → y ≤ max_list x xs.
Proof.
  unfold max_list. revert x. induction xs as [|z xs IH]; intros x Hin.
  - apply list_elem_of_singleton in Hin as ->. simpl. lia.
  - simpl. apply elem_of_cons in Hin as [->|Hin].
    + pose proof (max_list_ge_head (Z.max x z) xs) as H. unfold max_list in H. lia.
    + apply elem_of_cons in Hin as [->|Hin].
      * pose proof (max_list_ge_head (Z.max x z) xs) as H. unfold max_list in H. lia.
      * apply IH. apply elem_of_cons. by right.
Qed.

Lemma getOr_Some_0 (m : Z) : getOr (Some m) 0 = m.
Proof. unfold getOr. destruct (m =? 0) eqn:E; [|done]. apply Z.eqb_eq in E. lia. Qed.

Lemma scanComments_seen repo n lastId comments (s : Sys St) :
  (∀ c, c ∈ comments → ac_id c ≤ lastId) →
  scanComments hs repo n lastId comments s = (s, true).
Proof.
  induction comments as [|c rest IH]; intros Hle; [done|].
  simpl. assert ((ac_id c <=? lastId) = true) as ->.
  { apply Z.leb_le. apply Hle. apply elem_of_cons. by left. }
  apply IH. intros c' Hc'. apply Hle. apply elem_of_cons. by right.
Qed.

Lemma scanReviews_seen repo pr lastId reviews (s : Sys St) :
  (∀ r, r ∈ reviews → ar_id r ≤ lastId) →
  scanReviews hs repo pr lastId reviews s = (s, true).
Proof.
  induction reviews as [|r rest IH]; intros Hle; [done|].
  simpl. assert ((ar_id r <=? lastId) = true) as ->.
  { apply Z.leb_le. apply Hle. apply elem_of_cons. by left. }
  apply IH. intros r' Hr'. apply Hle. apply elem_of_cons. by right.
Qed.

(** X20.  A batch of comments triggers at most once.  When a pass over
    the comments of an issue ran to its end, a later pass over the same
    batch calls no handler, whatever happened in between to the rest of
    the system: it leaves the handler state, the poller and the watermarks
    as they are, and adds nothing to the trace but, at most, the one
    listing request. *)
Theorem comment_batch_triggers_once
    (repo : RepoConfig) (marks : gmap Z Z) (s later : Sys St) (issue : ApiIssue)
    (comments : list ApiComment) :
  comments_pass_completed hs repo marks s issue comments →
  let first := checkIssueComments hs repo (marks, s) (issue, Resolved comments) in
  let second := checkIssueComments hs repo (first.1, later) (issue, Resolved comments) in
  second.1 = first.1
  ∧ hstate second.2 = hstate later
  ∧ poller second.2 = poller later
  ∧ (trace second.2 = trace later
     ∨ ∃ since,
         trace second.2 =
         trace later ++ [ListComments (rc_owner repo) (rc_name repo) (ai_number issue)
                           since]).
Proof.
  unfold comments_pass_completed. cbn zeta. intros Hdone.
  destruct (ai_pull_request issue) eqn:Hpr.
  { unfold checkIssueComments. rewrite Hpr. cbn [fst snd].
    split_and!; try done. by left. }
  destruct (isBotUser (ai_userLogin issue)) eqn:Hbot.
  { unfold checkIssueComments. rewrite Hpr, Hbot. cbn [fst snd].
    split_and!; try done. by left. }
  assert (Hfirst : (checkIssueComments hs repo (marks, s) (issue, Resolved comments)).1
                   = match comments with
                     | [] => marks
                     | c :: cs =>
                         <[ai_number issue := max_list (ac_id c) (ac_id <$> cs)]> marks
                     end).
  { unfold checkIssueComments. rewrite Hpr, Hbot.
    destruct (scanComments hs repo (ai_number issue) _ comments _) as [s1 ok].
    cbn [snd] in Hdone. subst ok. by destruct comments. }
  rewrite Hfirst. clear Hfirst Hdone.
  unfold checkIssueComments. rewrite Hpr, Hbot.
  destruct comments as [|c cs].
  - cbn [scanComments fst snd commentsRequested log hstate poller trace].
    split_and!; try done. right. by eexists.
  - rewrite lookup_insert_eq, getOr_Some_0.
    rewrite scanComments_seen.
    + cbn [fst snd commentsRequested log hstate poller trace].
      split_and!; try done.
      * by rewrite insert_insert_eq.
      * right. by eexists.
    + intros c' Hc'. apply max_list_ge.
      apply elem_of_cons in Hc' as [->|Hc']; [apply elem_of_cons; by left|].
      apply elem_of_cons. right. apply list_elem_of_fmap. eauto.
Qed.

(** X21.  A batch of reviews is reported at most once.  When a pass over
    the reviews of a pull request ran to its end, polling the same batch
    again right afterwards only repeats the listing request: no review
    event is emitted and the poller and the handler state stay as the
    first pass left them. *)
Theorem review_batch_reported_once
    (repo : RepoConfig) (pr : ApiPull) (reviews : list ApiReview) (s : Sys St) :
  reviews_pass_completed hs repo pr reviews s →
  let first := pollPRReviews hs repo pr (Resolved reviews) s in
  pollPRReviews hs repo pr (Resolved reviews) first
  = reviewsRequested repo (ap_number pr) first.
Proof.
  unfold reviews_pass_completed. cbn zeta. intros Hdone.
  unfold pollPRReviews at 2 3.
  destruct (scanReviews hs repo (ap_number pr) _ reviews _) as [s1 ok] eqn:Hscan.
  cbn [snd] in Hdone. subst ok.
  destruct reviews as [|r rs].
  - unfold pollPRReviews. by cbn [scanReviews].
  - unfold pollPRReviews. cbn [poller with_poller set_knownReviews knownReviews].
    rewrite lookup_insert_eq, getOr_Some_0.
    rewrite scanReviews_seen.
    + unfold reviewsRequested, log, with_poller.
      cbn [poller hstate trace set_knownReviews knownReviews lastIssueCheck
           lastCommentCheck knownPRs rateLimitRemaining rateLimitReset].
      unfold set_knownReviews.
      cbn [knownReviews lastIssueCheck lastCommentCheck knownPRs rateLimitRemaining
           rateLimitReset].
      by rewrite insert_insert_eq.
    + intros r' Hr'. apply max_list_ge.
      apply elem_of_cons in Hr' as [->|Hr']; [apply elem_of_cons; by left|].
      apply elem_of_cons. right. apply list_elem_of_fmap. eauto.
Qed.

Lemma scanPulls_foreign repo pulls (s : Sys St) :
  (∀ pr response, (pr, response) ∈ pulls →
     startsWith (ap_headRef pr) "ai-agent-issue-" = false) →
  scanPulls hs repo pulls s = (s, true).
Proof.
  induction pulls as [|[pr response] rest IH]; intros Hforeign; [done|].
  simpl. rewrite (Hforeign pr response); [|apply elem_of_cons; by left].
  cbn [negb]. apply IH. intros pr' response' Hin. apply (Hforeign pr' response').
  apply elem_of_cons. by right.
Qed.

(** X22.  Pull requests that are not on an agent branch are invisible to
    the poller.  If no listed pull request has a head branch starting with
    ["ai-agent-issue-"], polling the pull requests of a repository only
    records the listing request: nothing is tracked, no reviews are
    fetched, no closure or review event is emitted, whether the pull
    requests are open or closed. *)
Theorem foreign_pull_requests_are_ignored
    (repo : RepoConfig) (pulls : list (ApiPull * Result (list ApiReview)))
    (s : Sys St) :
  (∀ pr response, (pr, response) ∈ pulls →
     startsWith (ap_headRef pr) "ai-agent-issue-" = false) →
  pollOurPRs hs repo (Resolved pulls) s = log (ListPulls (rc_owner repo) (rc_name repo)) s.
Proof.
  intros Hforeign. unfold pollOurPRs. by rewrite scanPulls_foreign.
Qed.

End SeenBefore.

Lemma comment_batch_triggers_once_witness :
  GitHubPoller.hstate
    (GitHubPoller.checkIssueComments Samples.calmHandlers Samples.repoAlice
       ((GitHubPoller.checkIssueComments Samples.calmHandlers Samples.repoAlice
           (∅, Samples.pollingIdle)
           (Samples.openIssue 7,
            Resolved [Samples.askingComment 101; Samples.remark 102])).1,
        Samples.pollingIdle)
       (Samples.openIssue 7,
        Resolved [Samples.askingComment 101; Samples.remark 102])).2
  = GitHubPoller.hstate Samples.pollingIdle.
Proof.
  destruct (comment_batch_triggers_once Samples.calmHandlers Samples.repoAlice ∅
              Samples.pollingIdle Samples.pollingIdle (Samples.openIssue 7)
              [Samples.askingComment 101; Samples.remark 102]) as (_ & H & _).
  - vm_compute. reflexivity.
  - exact H.
Defined.

Lemma review_batch_reported_once_witness :
  GitHubPoller.pollPRReviews Samples.calmHandlers Samples.repoAlice Samples.pr6open
    (Resolved [Samples.requestingReview 31])
    (GitHubPoller.pollPRReviews Samples.calmHandlers Samples.repoAlice Samples.pr6open
       (Resolved [Samples.requestingReview 31]) Samples.pollingIdle)
  = GitHubPoller.reviewsRequested Samples.repoAlice 6
      (GitHubPoller.pollPRReviews Samples.calmHandlers Samples.repoAlice Samples.pr6open
         (Resolved [Samples.requestingReview 31]) Samples.pollingIdle).
Proof.
  apply (review_batch_reported_once Samples.calmHandlers Samples.repoAlice
           Samples.pr6open [Samples.requestingReview 31] Samples.pollingIdle).
  vm_compute. reflexivity.
Defined.

Lemma foreign_pull_requests_are_ignored_witness :
  GitHubPoller.pollOurPRs Samples.calmHandlers Samples.repoAlice
    (Resolved [(Samples.pr3foreign, Resolved [Samples.requestingReview 31])])
    Samples.pollingWithPR
  = GitHubPoller.log (GitHubPoller.ListPulls "alice" "proj") Samples.pollingWithPR.
Proof.
  apply (foreign_pull_requests_are_ignored Samples.calmHandlers Samples.repoAlice
           [(Samples.pr3foreign, Resolved [Samples.requestingReview 31])]
           Samples.pollingWithPR).
  intros pr response Hin. apply list_elem_of_singleton in Hin.
  injection Hin as -> _. reflexivity.
Defined.

(** ** The review loop of the agent *)

Section ReviewLoop.
Import Agent Props.

Lemma feedbackRounds_app (l1 l2 : list Step) :
  feedbackRounds (l1 ++ l2) = (feedbackRounds l1 + feedbackRounds l2)%nat.
Proof. unfold feedbackRounds. by rewrite List.filter_app, length_app. Qed.

Lemma monitor_bound (turns : list Turn) (iterations : Z) (log : list Step) :
  iterations ≤ maxIterations →
  Z.of_nat (feedbackRounds (monitorPRAndIterate turns iterations log).1)
  ≤ Z.of_nat (feedbackRounds log) + (maxIterations - iterations).
Proof.
  revert iterations log. induction turns as [|turn later IH]; intros it log Hle.
  - cbn [monitorPRAndIterate]. destruct (negb (it <? maxIterations)); cbn [fst]; lia.
  - cbn [monitorPRAndIterate].
    destruct (it <? maxIterations) eqn:Hlt; cbn [negb]; [|cbn [fst]; lia].
    apply Z.ltb_lt in Hlt.
    destruct (changesRequested (reviews turn)) as [|r rs].
    + destruct (approved (reviews turn)); [cbn [fst]; lia|]. by apply IH.
    + destruct (handled turn); cbn [negb].
      * destruct (approved (reviews turn)).
        -- cbn [fst]. rewrite !feedbackRounds_app. cbn. lia.
        -- etrans; [apply IH; lia|]. rewrite !feedbackRounds_app. cbn. lia.
      * etrans; [apply IH; lia|]. rewrite !feedbackRounds_app. cbn. lia.
Qed.

Lemma monitor_ends (turns : list Turn) (iterations : Z) (log : list Step) :
  (∀ turn, turn ∈ turns → changesRequested (reviews turn) ≠ []) →
  maxIterations - iterations ≤ Z.of_nat (List.length turns) →
  ∃ n, (monitorPRAndIterate turns iterations log).2 = Ended n
       ∧ n ≤ Z.max iterations maxIterations.
Proof.
  revert iterations log. induction turns as [|turn later IH]; intros it log Hcr Hlen.
  - cbn [monitorPRAndIterate]. cbn [List.length] in Hlen.
    assert ((it <? maxIterations) = false) as -> by (apply Z.ltb_ge; lia).
    cbn [negb snd]. exists it. split; [done|lia].
  - cbn [monitorPRAndIterate].
    destruct (it <? maxIterations) eqn:Hlt; cbn [negb].
    2:{ exists it. split; [done|lia]. }
    apply Z.ltb_lt in Hlt.
    pose proof (Hcr turn ltac:(apply elem_of_cons; by left)) as Hne.
    destruct (changesRequested (reviews turn)) as [|r rs]; [done|].
    assert (Hlater : ∀ log', ∃ n,
              (monitorPRAndIterate later (it + 1) log').2 = Ended n
              ∧ n ≤ Z.max it maxIterations).
    { intros log'. destruct (IH (it + 1) log') as (n & Hn & Hmax).
      - intros t Ht. apply Hcr. apply elem_of_cons. by right.
      - cbn [List.length] in Hlen. lia.
      - exists n. split; [done|lia]. }
    destruct (handled turn); cbn [negb]; [|apply Hlater].
    destruct (approved (reviews turn)); [|apply Hlater].
    cbn [snd]. exists (it + 1). split; [done|lia].
Qed.

(** X23.  The review loop hands feedback to Claude Code at most five
    times, however many turns it takes and whatever the reviews are; and
    once five turns that each show a request for changes by a human have
    passed, the loop has ended, whether or not the feedback could be
    handled. *)
Theorem feedback_is_handled_at_most_five_times (turns : list Turn) :
  (feedbackRounds (monitorPRAndIterate turns 0 []).1 ≤ 5)%nat
  ∧ ((∀ turn, turn ∈ turns → changesRequested (reviews turn) ≠ []) →
     (5 ≤ List.length turns)%nat →
     ∃ n, (monitorPRAndIterate turns 0 []).2 = Ended n ∧ n ≤ 5).
Proof.
  split.
  - pose proof (monitor_bound turns 0 [] ltac:(done)) as H.
    unfold maxIterations in H. cbn in H. lia.
  - intros Hcr Hlen. destruct (monitor_ends turns 0 [] Hcr) as (n & Hn & Hmax).
    + unfold maxIterations. lia.
    + exists n. split; [done|]. unfold maxIterations in Hmax. lia.
Qed.

(** X24.  The loop does not remember which reviews it has dealt with.
    The listing keeps returning a review that requests changes, so as long
    as nobody approves, one such review makes the agent handle the same
    feedback on five turns in a row and then stop with the iteration limit
    reached. *)
Theorem one_review_is_handled_five_times (turn : Turn) :
  changesRequested (reviews turn) ≠ [] →
  approved (reviews turn) = false →
  handled turn = true →
  (monitorPRAndIterate (replicate 5 turn) 0 []).2 = Ended 5
  ∧ List.filter isHandleFeedback (monitorPRAndIterate (replicate 5 turn) 0 []).1
    = replicate 5 (HandleFeedback (feedbackOf (changesRequested (reviews turn)))).
Proof.
  intros Hcr Happ Hh. cbn [replicate monitorPRAndIterate].
  destruct (changesRequested (reviews turn)) as [|r rs] eqn:E; [done|].
  rewrite Happ, Hh. cbn. done.
Qed.

End ReviewLoop.

Lemma feedback_is_handled_at_most_five_times_witness :
  ∃ n, (Agent.monitorPRAndIterate (replicate 6 Samples.sameReviewAgain) 0 []).2
       = Agent.Ended n ∧ n ≤ 5.
Proof.
  apply (proj2 (feedback_is_handled_at_most_five_times
                  (replicate 6 Samples.sameReviewAgain))).
  - intros turn Hin. apply elem_of_replicate in Hin as [-> _]. vm_compute. discriminate.
  - vm_compute. lia.
Defined.

Lemma one_review_is_handled_five_times_witness :
  (Agent.monitorPRAndIterate (replicate 5 Samples.sameReviewAgain) 0 []).2
  = Agent.Ended 5.
Proof.
  apply (one_review_is_handled_five_times Samples.sameReviewAgain).
  - vm_compute. discriminate.
  - reflexivity.
  - reflexivity.
Defined.

(** ** The container manager *)

Section ContainerFacts.
Import ContainerManager Props.

Lemma length_append_s (a b : string) :
  String.length (a +:+ b) = (String.length a + String.length b)%nat.
Proof.
  induction a as [|x a IH]; [done|].
  change (S (String.length (a +:+ b)) = S (String.length a + String.length b)).
  by rewrite IH.
Qed.

Lemma length_sanitize (s : string) : String.length (sanitize s) = String.length s.
Proof. induction s as [|c s IH]; simpl; [done|by rewrite IH]. Qed.

Lemma sanitize_safe (s : string) :
  Forall (λ c, isSafeChar c = true) (list_ascii_of_string (sanitize s)).
Proof.
  induction s as [|c s IH]; simpl; [constructor|].
  constructor; [|done]. by destruct (isSafeChar c) eqn:E.
Qed.

Lemma lowerOf_resolved expr v s :
  lowerOf expr v = Resolved s → ∃ t, v = JStr t ∧ s = toLowerCase t.
Proof. destruct v; simpl; intros [= <-]. eauto. Qed.

(** X25.  The name a container gets.  [generateContainerName] produces a
    name only for a unit whose owner and repository are strings.  The name
    is ["agent-"], the owner, a dash, the repository, ["-issue-"], the
    issue number, a dash and the timestamp, where owner and repository
    keep their length but consist of lower-case letters, digits and dashes
    only.  It is never the [containerName] the orchestrator stores for the
    unit, which has no timestamp. *)
Theorem container_name_shape (timestamp : Z) (issue : ActiveIssue) (name : string) :
  generateContainerName timestamp issue = Resolved name →
  ∃ owner repo safeOwner safeRepo,
    repoOwner issue = JStr owner
    ∧ repoName issue = JStr repo
    ∧ name = "agent-" +:+ safeOwner +:+ "-" +:+ safeRepo +:+ "-issue-" +:+
             tmpl (issueNumber issue) +:+ "-" +:+ pretty timestamp
    ∧ String.length safeOwner = String.length owner
    ∧ String.length safeRepo = String.length repo
    ∧ Forall (λ c, isSafeChar c = true) (list_ascii_of_string safeOwner)
    ∧ Forall (λ c, isSafeChar c = true) (list_ascii_of_string safeRepo)
    ∧ name ≠ "agent-" +:+ tmpl (repoOwner issue) +:+ "-" +:+ tmpl (repoName issue) +:+
             "-issue-" +:+ tmpl (issueNumber issue).
Proof.
  unfold generateContainerName.
  destruct (lowerOf "issue.repoOwner" (repoOwner issue)) as [lo|] eqn:Ho; [|done].
  destruct (lowerOf "issue.repoName" (repoName issue)) as [lr|] eqn:Hr; [|done].
  apply lowerOf_resolved in Ho as (o & Ho & ->).
  apply lowerOf_resolved in Hr as (r & Hr & ->).
  intros [= <-]. exists o, r, (sanitize (toLowerCase o)), (sanitize (toLowerCase r)).
  split_and!; try done.
  - by rewrite length_sanitize, length_toLowerCase.
  - by rewrite length_sanitize, length_toLowerCase.
  - apply sanitize_safe.
  - apply sanitize_safe.
  - rewrite Ho, Hr. cbn [tmpl]. intros Heq.
    apply append_inj_l in Heq.
    apply append_inj_length in Heq as [_ Heq];
      [|by rewrite length_sanitize, length_toLowerCase].
    apply append_inj_l in Heq.
    apply append_inj_length in Heq as [_ Heq];
      [|by rewrite length_sanitize, length_toLowerCase].
    apply append_inj_l in Heq.
    assert (Hnil : tmpl (issueNumber issue) = tmpl (issueNumber issue) +:+ "").
    { generalize (tmpl (issueNumber issue)). intros t. induction t as [|c t IH]; [done|].
      change (String c t = String c (t +:+ "")). by rewrite <- IH. }
    rewrite Hnil in Heq at 2. apply append_inj_l in Heq. done.
Qed.

Lemma guarded_escapeChar_self (x : ascii) (b : bool) (s : string) :
  x ≠ backslash → guardedFrom x b (escapeChar x s) = true.
Proof.
  intros Hx. revert b. induction s as [|c s IH]; intros b; [done|].
  cbn [escapeChar]. destruct (Ascii.eqb c x) eqn:Hc.
  - cbn [guardedFrom]. rewrite Ascii.eqb_refl.
    assert (Ascii.eqb backslash x = false) as ->.
    { apply Ascii.eqb_neq. congruence. }
    assert (Ascii.eqb x backslash = false) as -> by by apply Ascii.eqb_neq.
    cbn. apply IH.
  - cbn [guardedFrom]. rewrite Hc. cbn. apply IH.
Qed.

Lemma guarded_escapeChar_other (q x : ascii) (b : bool) (s : string) :
  q ≠ x → q ≠ backslash →
  guardedFrom q b s = true → guardedFrom q b (escapeChar x s) = true.
Proof.
  intros Hqx Hq. revert b. induction s as [|c s IH]; intros b; [done|].
  cbn [escapeChar guardedFrom]. intros [H1 H2]%andb_true_iff.
  destruct (Ascii.eqb c x) eqn:Hc.
  - apply Ascii.eqb_eq in Hc as ->. cbn [guardedFrom].
    assert (Ascii.eqb backslash q = false) as ->.
    { apply Ascii.eqb_neq. congruence. }
    assert (Ascii.eqb x q = false) as ->.
    { apply Ascii.eqb_neq. congruence. }
    rewrite Ascii.eqb_refl. cbn. by apply IH.
  - cbn [guardedFrom]. rewrite H1. cbn. by apply IH.
Qed.

Lemma guarded_split (x : ascii) (b : bool) (s pre post : string) :
  guardedFrom x b s = true → s = pre +:+ String x post →
  (pre = "" ∧ b = true) ∨ ∃ pre', pre = pre' +:+ String backslash "".
Proof.
  revert b pre. induction s as [|c s IH]; intros b pre Hg Hs.
  - by destruct pre.
  - cbn [guardedFrom] in Hg. apply andb_true_iff in Hg as [H1 H2].
    destruct pre as [|a pre].
    + injection Hs as -> _. rewrite Ascii.eqb_refl in H1. cbn in H1. by left.
    + injection Hs as -> Hs. right.
      destruct (IH _ pre H2 Hs) as [[-> Hb]|[pre' ->]].
      * apply Ascii.eqb_eq in Hb as ->. by exists "".
      * by exists (String a pre').
Qed.

Lemma chars_replaceNewlines (s : string) (c : ascii) :
  c ∈ list_ascii_of_string (replaceNewlines s) → c ≠ lineFeed ∧ c ≠ carriageReturn.
Proof.
  induction s as [|a s IH]; cbn [replaceNewlines list_ascii_of_string].
  - intros H. by apply elem_of_nil in H.
  - intros [->|H]%elem_of_cons; [|by apply IH].
    destruct (Ascii.eqb a lineFeed) eqn:E1; [done|].
    destruct (Ascii.eqb a carriageReturn) eqn:E2; [done|].
    cbn. by split; apply Ascii.eqb_neq.
Qed.

Lemma chars_escapeChar (x : ascii) (s : string) (c : ascii) :
  c ∈ list_ascii_of_string (escapeChar x s) →
  c ∈ list_ascii_of_string s ∨ c = backslash.
Proof.
  induction s as [|a s IH]; cbn [escapeChar list_ascii_of_string]; [by left|].
  destruct (Ascii.eqb a x) eqn:E.
  - apply Ascii.eqb_eq in E as ->. cbn [list_ascii_of_string].
    intros [->|[->|H]%elem_of_cons]%elem_of_cons.
    + by right.
    + left. apply elem_of_cons. by left.
    + destruct (IH H) as [?|?]; [left; apply elem_of_cons; by right|by right].
  - cbn [list_ascii_of_string]. intros [->|H]%elem_of_cons.
    + left. apply elem_of_cons. by left.
    + destruct (IH H) as [?|?]; [left; apply elem_of_cons; by right|by right].
Qed.

(** X26.  What [escapeEnvVar] guarantees about a value it has processed:
    the result contains no line feed and no carriage return, and every
    double quote and every dollar sign in it stands right after a
    backslash. *)
Theorem escapeEnvVar_output_is_escaped (value : string) :
  (∀ c, c ∈ list_ascii_of_string (escapeEnvVar value) →
     c ≠ lineFeed ∧ c ≠ carriageReturn)
  ∧ (∀ x pre post,
       x = quote ∨ x = dollar →
       escapeEnvVar value = pre +:+ String x post →
       ∃ pre', pre = pre' +:+ String backslash "").
Proof.
  split.
  - intros c Hc. unfold escapeEnvVar in Hc.
    apply chars_escapeChar in Hc as [Hc| ->]; [|done].
    apply chars_escapeChar in Hc as [Hc| ->]; [|done].
    by apply chars_replaceNewlines in Hc.
  - intros x pre post Hx Hs.
    assert (Hg : guardedFrom x false (escapeEnvVar value) = true).
    { unfold escapeEnvVar. destruct Hx as [-> | ->].
      - apply guarded_escapeChar_other; [done|done|].
        by apply guarded_escapeChar_self.
      - by apply guarded_escapeChar_self. }
    by destruct (guarded_split x false _ pre post Hg Hs) as [[_ ?]|?].
Qed.

End ContainerFacts.

Lemma container_name_shape_witness :
  ∃ safeOwner safeRepo,
    "agent-alice-proj-issue-7-1000" =
      "agent-" +:+ safeOwner +:+ "-" +:+ safeRepo +:+ "-issue-" +:+ "7" +:+ "-" +:+ "1000"
    ∧ String.length safeOwner = 5%nat
    ∧ Forall (λ c, ContainerManager.isSafeChar c = true) (list_ascii_of_string safeRepo).
Proof.
  destruct (container_name_shape 1000 Samples.unit7caps "agent-alice-proj-issue-7-1000")
    as (owner & repo & safeOwner & safeRepo & Ho & _ & Hname & Hlen & _ & _ & Hsafe & _).
  - vm_compute. reflexivity.
  - exists safeOwner, safeRepo. split; [exact Hname|]. split; [|exact Hsafe].
    injection Ho as <-. exact Hlen.
Defined.

Lemma escapeEnvVar_output_is_escaped_witness :
  ∃ pre', "cost: \" = pre' +:+ String ContainerManager.backslash "".
Proof.
  apply (proj2 (escapeEnvVar_output_is_escaped "cost: $5")
           ContainerManager.dollar "cost: \" "5").
  - right. reflexivity.
  - vm_compute. reflexivity.
Defined.

(** ** Further edge cases *)

Section EdgeCases.
Import StateManager Orchestrator GitHubPoller Props.

Lemma keys_update_first (p : ActiveIssue → bool) (f : ActiveIssue → ActiveIssue)
    (m : JsMap.t ActiveIssue) :
  JsMap.keys (JsMap.update_first p f m) = JsMap.keys m.
Proof.
  unfold JsMap.keys. induction m as [|[k v] m IH]; simpl; [done|].
  destruct (p v); simpl; [done|]. by f_equal.
Qed.

Lemma find_values_update_first (p : ActiveIssue → bool) (f : ActiveIssue → ActiveIssue)
    (m : JsMap.t ActiveIssue) (issue : ActiveIssue) :
  List.find p (JsMap.values m) = Some issue →
  p (f issue) = true →
  List.find p (JsMap.values (JsMap.update_first p f m)) = Some (f issue).
Proof.
  induction m as [|[k v] m IH]; simpl; [done|].
  destruct (p v) eqn:Hv; simpl.
  - intros [= ->] Hp. by rewrite Hp.
  - intros Hfind Hp. rewrite Hv. by apply IH.
Qed.

(** X27.  [updateIssueByContainerId] on an identifier no unit has is
    a no-op.  Otherwise it changes the first unit with that identifier and
    nothing about the keys or the limit: the unit receives the update and
    a fresh heartbeat, and, as long as the update leaves the identifier
    alone, a lookup by the identifier returns the updated unit. *)
Theorem updateIssueByContainerId_updates_first_match
    (now : Z) (cid : string) (assign : ActiveIssue → ActiveIssue) (sm : StateManager.t) :
  let sm' := updateIssueByContainerId now cid assign sm in
  (getIssueByContainerId cid sm = None → sm' = sm)
  ∧ JsMap.keys (activeIssues sm') = JsMap.keys (activeIssues sm)
  ∧ maxConcurrent sm' = maxConcurrent sm
  ∧ (∀ issue,
       getIssueByContainerId cid sm = Some issue →
       containerId (assign issue) = cid →
       getIssueByContainerId cid sm' = Some (touch_heartbeat now (assign issue))
       ∧ lastHeartbeat (touch_heartbeat now (assign issue)) = Some now).
Proof.
  intros sm'. unfold sm', updateIssueByContainerId.
  destruct (getIssueByContainerId cid sm) as [found|] eqn:Hfind.
  - split_and!; [done| | |].
    + cbn [activeIssues with_issues]. apply keys_update_first.
    + done.
    + intros issue [= <-] Hcid. split; [|done].
      unfold getIssueByContainerId, getAllActive in *. cbn [activeIssues with_issues].
      apply (find_values_update_first
               (λ issue, bool_decide (containerId issue = cid))
               (λ issue, touch_heartbeat now (assign issue)) _ found Hfind).
      apply bool_decide_eq_true. done.
  - split_and!; done.
Qed.

(** X28.  A review is matched to a unit by the pull-request number alone,
    but the status update is addressed with the repository of the event.
    When the unit that carries the number belongs to another repository
    and the event's repository has no unit for that issue number, a request
    for changes updates no unit at all, yet the feedback comment is posted,
    on the issue with the unit's number in the repository of the event. *)
Theorem review_of_namesake_pull_request
    (w : World) (owner repo : string) (pr : Z) (review : Review)
    (sm : StateManager.t) (issue : ActiveIssue) :
  findByPR pr sm = Some issue →
  isIssueActive (JStr owner) (JStr repo) (issueNumber issue) sm = false →
  rv_state review = "CHANGES_REQUESTED" →
  let r := handlePRReview w owner repo pr review sm in
  run_state r = sm
  ∧ run_effects r =
      [PostIssueComment (JStr owner) (JStr repo) (issueNumber issue)
         (msgFeedback (rv_body review))].
Proof.
  intros Hfind Hno Hst r. unfold r, handlePRReview. rewrite Hfind, Hst.
  change (String.eqb "CHANGES_REQUESTED" "CHANGES_REQUESTED") with true. cbn iota.
  cbn [run_state run_effects]. split; [|done].
  unfold updateIssueStatus. apply isIssueActive_false in Hno. by rewrite Hno.
Qed.

Lemma handlerCalls_app (t1 t2 : list Action) :
  handlerCalls (t1 ++ t2) = (handlerCalls t1 + handlerCalls t2)%nat.
Proof. unfold handlerCalls. by rewrite List.filter_app, length_app. Qed.

Lemma lastIssueCheck_initCommentTracking {St : Type} k (s : Sys St) :
  lastIssueCheck (poller (initCommentTracking k s)) = lastIssueCheck (poller s)
  ∧ trace (initCommentTracking k s) = trace s.
Proof. unfold initCommentTracking. by destruct (_ !! _). Qed.

Lemma scanNewIssues_throwing {St : Type} (hs : PollerHandlers St) repo issues
    (s : Sys St) :
  trigger_always_throws hs →
  (∃ issue, issue ∈ issues ∧ ai_pull_request issue = false
            ∧ isTriggerComment (orEmpty (ai_body issue)) repo = true) →
  (scanNewIssues hs repo issues s).2 = false
  ∧ lastIssueCheck (poller (scanNewIssues hs repo issues s).1) = lastIssueCheck (poller s)
  ∧ handlerCalls (trace (scanNewIssues hs repo issues s).1)
    = S (handlerCalls (trace s)).
Proof.
  intros Hthrow. revert s. induction issues as [|issue rest IH]; intros s Hex.
  { destruct Hex as (i & Hin & _). by apply elem_of_nil in Hin. }
  cbn [scanNewIssues].
  destruct (ai_pull_request issue) eqn:Hpr.
  { apply IH. destruct Hex as (i & Hin & Hi1 & Hi2).
    apply elem_of_cons in Hin as [->|Hin]; [congruence|]. eauto. }
  destruct (isTriggerComment (orEmpty (ai_body issue)) repo) eqn:Htr.
  - unfold emitTrigger.
    pose proof (Hthrow (rc_owner repo) (rc_name repo) (ai_number issue)
                  (triggerComment repo) (hstate s)) as Hf.
    destruct (onIssueTriggered hs _ _ _ _ _) as [h ok]. cbn [snd] in Hf. subst ok.
    cbn [fst snd poller trace]. split_and!; [done|done|].
    rewrite handlerCalls_app. cbn. lia.
  - destruct (lastIssueCheck_initCommentTracking (repoKeyOf repo) s) as [Hl Ht].
    destruct (IH (initCommentTracking (repoKeyOf repo) s)) as (H1 & H2 & H3).
    + destruct Hex as (i & Hin & Hi1 & Hi2).
      apply elem_of_cons in Hin as [->|Hin]; [congruence|]. eauto.
    + rewrite H1, H2, H3, Hl, Ht. done.
Qed.

(** X29.  A handler that throws stops the scan of new issues.  If the
    trigger handler throws whenever it is called and the listing holds an
    issue that triggers, the poller calls the handler once, for the first
    such issue, abandons the remaining issues, and does not move the
    repository's issue watermark, so the next cycle lists the same issues
    again. *)
Theorem throwing_handler_stops_issue_scan
    {St : Type} (hs : PollerHandlers St) (repo : RepoConfig) (dateNow : Z)
    (issues : list ApiIssue) (now : Z) (s : Sys St) :
  trigger_always_throws hs →
  (∃ issue, issue ∈ issues ∧ ai_pull_request issue = false
            ∧ isTriggerComment (orEmpty (ai_body issue)) repo = true) →
  let s' := pollNewIssues hs repo dateNow (Resolved issues) now s in
  lastIssueCheck (poller s') = lastIssueCheck (poller s)
  ∧ handlerCalls (trace s') = S (handlerCalls (trace s)).
Proof.
  intros Hthrow Hex s'. unfold s', pollNewIssues.
  destruct (scanNewIssues_throwing hs repo issues (issuesRequested repo dateNow s)
              Hthrow Hex) as (H1 & H2 & H3).
  destruct (scanNewIssues hs repo issues _) as [s1 ok]. cbn [fst snd] in *. subst ok.
  rewrite H2, H3. split; [done|].
  unfold issuesRequested, log. cbn [trace]. rewrite handlerCalls_app. cbn. lia.
Qed.

End EdgeCases.

Lemma getStats_counts_add_up_witness :
  1 = Z.of_nat (List.length (StateManager.getIssuesByStatus starting Samples.oneUnit)).
Proof.
  apply (proj1 (proj2 (getStats_counts_add_up Samples.oneUnit)) starting 1).
  vm_compute. apply elem_of_cons. by left.
Defined.

Lemma updateIssueByContainerId_updates_first_match_witness :
  StateManager.getIssueByContainerId "c1"
    (StateManager.updateIssueByContainerId 77 "c1" (Samples.assignStatus developing)
       Samples.oneUnit)
  = Some (StateManager.touch_heartbeat 77 (Samples.assignStatus developing Samples.unit7)).
Proof.
  destruct (updateIssueByContainerId_updates_first_match 77 "c1"
              (Samples.assignStatus developing) Samples.oneUnit) as (_ & _ & _ & H).
  destruct (H Samples.unit7) as [H1 _].
  - vm_compute. reflexivity.
  - reflexivity.
  - exact H1.
Defined.

Lemma review_of_namesake_pull_request_witness :
  Orchestrator.run_state
    (Orchestrator.handlePRReview Samples.calm "alice" "proj" 5 Samples.changesRequested
       Samples.onlyBob)
  = Samples.onlyBob
  ∧ Orchestrator.run_effects
      (Orchestrator.handlePRReview Samples.calm "alice" "proj" 5 Samples.changesRequested
         Samples.onlyBob)
    = [Orchestrator.PostIssueComment (JStr "alice") (JStr "proj") (JNum 7)
         (Orchestrator.msgFeedback "Please add a test")].
Proof.
  apply (review_of_namesake_pull_request Samples.calm "alice" "proj" 5
           Samples.changesRequested Samples.onlyBob Samples.bobUnit).
  - vm_compute. reflexivity.
  - vm_compute. reflexivity.
  - reflexivity.
Defined.

Lemma commentsRefused_throws :
  Props.trigger_always_throws (Polling.handlers (λ _, Samples.commentsRefused)).
Proof.
  intros owner repo number trigger h. cbn [GitHubPoller.onIssueTriggered Polling.handlers].
  unfold Polling.after. cbn [snd]. unfold Orchestrator.handleIssueTriggered.
  cbn [Orchestrator.issue_owner Orchestrator.issue_repo Orchestrator.issue_number].
  destruct (StateManager.isIssueActive _ _ _ _); [done|].
  destruct (StateManager.canStartNew _); done.
Qed.

Lemma throwing_handler_stops_issue_scan_witness :
  GitHubPoller.lastIssueCheck
    (GitHubPoller.poller
       (GitHubPoller.pollNewIssues (Polling.handlers (λ _, Samples.commentsRefused))
          Samples.repoAlice 1000
          (Resolved [Samples.askingIssue 7; Samples.askingIssue 8]) 1001
          Samples.pollingIdle))
  = GitHubPoller.lastIssueCheck (GitHubPoller.poller Samples.pollingIdle)
  ∧ Props.handlerCalls
      (GitHubPoller.trace
         (GitHubPoller.pollNewIssues (Polling.handlers (λ _, Samples.commentsRefused))
            Samples.repoAlice 1000
            (Resolved [Samples.askingIssue 7; Samples.askingIssue 8]) 1001
            Samples.pollingIdle))
    = S (Props.handlerCalls (GitHubPoller.trace Samples.pollingIdle)).
Proof.
  apply (throwing_handler_stops_issue_scan (Polling.handlers (λ _, Samples.commentsRefused))
           Samples.repoAlice 1000 [Samples.askingIssue 7; Samples.askingIssue 8] 1001
           Samples.pollingIdle).
  - apply commentsRefused_throws.
  - exists (Samples.askingIssue 7). split; [apply elem_of_cons; by left|].
    split; [reflexivity|]. vm_compute. reflexivity.
Defined.
